(** * BUYLAND: the deterministic tile sampler and its collaborators

    A shallow embedding of the JavaScript sources

      - [src/unnamed/part_000]            frontend, first version   (module [V1])
      - [src/public/app.js]               frontend, second version  (module [V2])
      - [src/unnamed/part_001]            frontend, third version   (module [V3])
      - [src/netlify/functions/stripe.js] payment and e-mail endpoint (module [Stripe])

    and of the derivation as section 4.1 of the specification words it
    (module [Spec]), followed by the properties proved of them. The
    section "Further code" adds the index pages ([Pages], [Index1]), the
    other actions of the endpoint and its handler as a whole
    ([Endpoint]), the second copy of the endpoint ([Legacy]) and the
    bodies the checkout pages post ([Checkout]).

    Modelling conventions.

    - Integer-valued JavaScript Numbers are [Z]; the 32-bit conversions the
      bit operators and [Math.imul] perform are written out ([ToInt32],
      [ToUint32]). The hash and the generator are therefore bit-exact.
    - The other Numbers (coordinates, metres, the values of the generator)
      are exact rationals [Q]: the rounding of IEEE-754 [+], [*] and [/] is
      left out, and [Math.cos] is whatever function the platform provides.
    - Strings are [string], their characters having codes below 256;
      [charCodeAt] is the code of the character and [toLowerCase] acts on
      the ASCII letters.
    - An object used as a table is a finite map on its own keys.
    - The closure returned by [mulberry32] owns a cell of a heap, its
      captured variable [t]; the network services and
      [crypto.randomUUID] are an environment the code queries, the
      requests being logged; an exception is an explicit result. *)

From Stdlib Require Import ZArith QArith Qround Qabs String Ascii List Lia Bool.
From Stdlib Require Import DecimalString HexadecimalString HexadecimalN Lqa.
From stdpp Require Import base option list gmap strings.

Local Open Scope Z_scope.

(** ** JavaScript primitives *)

Module JS.

(** [ToUint32] and [ToInt32] of ECMA-262 on an integer-valued Number. *)
Definition ToUint32 (z : Z) : Z := z mod 4294967296.
Definition ToInt32 (z : Z) : Z := (z + 2147483648) mod 4294967296 - 2147483648.

(** [a ^ b] *)
Definition xor (a b : Z) : Z := ToInt32 (Z.lxor (ToInt32 a) (ToInt32 b)).
(** [a | b] *)
Definition or (a b : Z) : Z := ToInt32 (Z.lor (ToInt32 a) (ToInt32 b)).
(** [a >>> n], for a literal shift count [0 <= n < 32] *)
Definition ushr (a n : Z) : Z := Z.shiftr (ToUint32 a) n.
(** [Math.imul(a, b)] *)
Definition imul (a b : Z) : Z := ToInt32 (ToUint32 a * ToUint32 b).

(** [str.charCodeAt(i)] for the [i]-th character [c] *)
Definition charCode (c : ascii) : Z := Z.of_N (N_of_ascii c).

(** [String(n)] / template-literal conversion of an integer-valued Number *)
Definition Number_toString (n : Z) : string :=
  DecimalString.NilZero.string_of_int (Z.to_int n).

(** [n.toString(16)] for a non-negative integer-valued Number *)
Definition Number_toString16 (n : Z) : string :=
  HexadecimalString.NilZero.string_of_uint (N.to_hex_uint (Z.to_N n)).

(** [x.toFixed(d)] picks the integer [n] with [n / 10^d] nearest to [x],
    the larger in magnitude on a tie, and prints [n / 10^d];
    [Number(x.toFixed(d))] reads the decimal back. From 10^21 on
    [toFixed] prints the number itself. *)
Definition toFixed_units (d : nat) (x : Q) : Z :=
  if Qlt_le_dec x 0
  then - Qfloor (- x * inject_Z (10 ^ Z.of_nat d) + (1 # 2))%Q
  else Qfloor (x * inject_Z (10 ^ Z.of_nat d) + (1 # 2))%Q.

Definition Number_toFixed (d : nat) (x : Q) : Q :=
  if Qlt_le_dec (Qabs x) (inject_Z (10 ^ 21))
  then (inject_Z (toFixed_units d x) / inject_Z (10 ^ Z.of_nat d))%Q
  else x.

(** [Math.abs], [Math.max], [Math.min] *)
Definition Math_abs (x : Q) : Q := Qabs x.
Definition Math_max (a b : Q) : Q := if Qlt_le_dec a b then b else a.
Definition Math_min (a b : Q) : Q := if Qlt_le_dec b a then b else a.

(** [a % b]: the remainder takes the sign of the dividend *)
Definition rem (a b : Q) : Q :=
  let q := (a / b)%Q in
  let t := if Qlt_le_dec q 0 then - Qfloor (- q)%Q else Qfloor q in
  (a - b * inject_Z t)%Q.

(** [s || d] on strings: the empty string is falsy *)
Definition or_else (s d : string) : string :=
  match s with EmptyString => d | _ => s end.

(** [!!s] on a string *)
Definition truthy (s : string) : bool :=
  match s with EmptyString => false | _ => true end.

(** [s.toLowerCase()] *)
Definition lower (c : ascii) : ascii :=
  let n := N_of_ascii c in
  if ((65 <=? n) && (n <=? 90))%N then ascii_of_N (n + 32) else c.

Fixpoint toLowerCase (s : string) : string :=
  match s with
  | EmptyString => EmptyString
  | String c r => String (lower c) (toLowerCase r)
  end.

(** [s.startsWith(p)] *)
Definition startsWith (s p : string) : bool := String.prefix p s.

(** [s.includes(sub)] *)
Fixpoint includes (s sub : string) : bool :=
  String.prefix sub s ||
  match s with
  | EmptyString => false
  | String _ r => includes r sub
  end.

(** White space as [trim] and the regular-expression class [\s] see it. *)
Definition isSpace (c : ascii) : bool :=
  let n := N_of_ascii c in
  (((9 <=? n) && (n <=? 13)) || (n =? 32) || (n =? 160))%N.

Fixpoint trimStart (s : string) : string :=
  match s with
  | EmptyString => EmptyString
  | String c r => if isSpace c then trimStart r else s
  end.

(** [trimEnd] keeps a character when it is not white space or when
    something is kept after it. *)
Fixpoint trimEnd (s : string) : string :=
  match s with
  | EmptyString => EmptyString
  | String c r =>
      match trimEnd r with
      | EmptyString => if isSpace c then EmptyString else String c EmptyString
      | r' => String c r'
      end
  end.

(** [s.trim()] *)
Definition trim (s : string) : string := trimEnd (trimStart s).

(** [s.length] *)
Definition str_length (s : string) : Z := Z.of_nat (String.length s).

(** [s.slice(0, max)] *)
Definition slice0 (s : string) (max : nat) : string := String.substring 0 max s.

End JS.

(** ** The seeded generator (identical in the three frontends) *)

Module Rng.
Import JS.

(** [hashStrToSeed]: the [for] loop over the characters of [str] *)
Fixpoint hash_loop (h : Z) (str : string) : Z :=
  match str with
  | EmptyString => h
  | String c rest => hash_loop (imul (xor h (charCode c)) 16777619) rest
  end.

Definition hashStrToSeed (str : string) : Z :=
  ushr (hash_loop (ushr 2166136261 0) str) 0.

(** One call of the closure returned by [mulberry32], on the captured
    variable [t]: the new value of [t] and the numerator of the result
    (the result is that numerator divided by 4294967296). *)
Definition mulberry32_step (t0 : Z) : Z * Z :=
  let t := t0 + 1831565813 in
  let x := imul (xor t (ushr t 15)) (or 1 t) in
  let x := xor x (x + imul (xor x (ushr x 7)) (or 61 x)) in
  (t, ushr (xor x (ushr x 14)) 0).

End Rng.

(** ** The runtime: heap of closure cells, environment, exceptions *)

Module Run.

(** How an external call fails: the service answers with a non-2xx
    status, for which the calling code throws its own [Error], or
    [fetch] or [r.json()] rejects with a message of its own. *)
Inductive Failure : Type :=
| BadStatus
| Rejected (msg : string).

(** The message of the exception, [msg] being the one the code throws on
    a bad status. *)
Definition thrown (f : Failure) (msg : string) : string :=
  match f with
  | BadStatus => msg
  | Rejected m => m
  end.

(** What an external call yields: a decoded JSON reply, or a failure. *)
Inductive Outcome (A : Type) : Type :=
| Replied (a : A)
| Failed (f : Failure).
Arguments Replied {A} a.
Arguments Failed {A} f.

(** The [address] object of a Nominatim reply; an absent or falsy field
    is the empty string. *)
Record Address := {
  road : string; pedestrian : string; footway : string; cycleway : string;
  city : string; town : string; village : string; hamlet : string;
  suburb : string; neighbourhood : string;
  a_country : string
}.

(** A Nominatim [jsonv2] reply; an absent or falsy field is the empty
    string, and [address = None] is a reply without [address]. *)
Record NominatimData := {
  d_type : string;
  d_category : string;
  d_display_name : string;
  d_address : option Address
}.

(** The external calls the frontends make. *)
Inductive Request : Type :=
| ReqNominatim (zoom : Z) (addressdetails : Z) (lat lon : Q)
| ReqOverpass (radiusMeters : Z) (lat lon : Q).

(** The environment: the [n]-th UUID of [crypto.randomUUID], the answer of
    each service to a request given how many requests were made before,
    and the platform's [Math.cos]. The Overpass answer is the length of
    [data.elements], [None] when that is not an array. *)
Record Env := {
  crypto_randomUUID : nat -> string;
  nominatim : nat -> Request -> Outcome NominatimData;
  overpass : nat -> Request -> Outcome (option Z);
  Math_cos : Q -> Q
}.

(** The mutable state: one cell per live [mulberry32] closure (its
    captured [t]), the number of UUIDs handed out, the requests sent. *)
Record World := {
  heap : list Z;
  uuids : nat;
  requests : list Request
}.

Definition set_heap (h : list Z) (w : World) : World :=
  {| heap := h; uuids := uuids w; requests := requests w |}.
Definition set_uuids (n : nat) (w : World) : World :=
  {| heap := heap w; uuids := n; requests := requests w |}.
Definition set_requests (l : list Request) (w : World) : World :=
  {| heap := heap w; uuids := uuids w; requests := l |}.

(** A computation returns a value or throws, and leaves a world. *)
Inductive Res (A : Type) : Type :=
| Ret (a : A)
| Throw (msg : string).
Arguments Ret {A} a.
Arguments Throw {A} msg.

Definition M (A : Type) : Type := World -> Res A * World.

Definition ret {A} (a : A) : M A := fun w => (Ret a, w).
Definition throw {A} (msg : string) : M A := fun w => (Throw msg, w).
Definition bind {A B} (m : M A) (k : A -> M B) : M B :=
  fun w => match m w with
           | (Ret a, w') => k a w'
           | (Throw e, w') => (Throw e, w')
           end.
(** [try { m } catch (e) { h e }] *)
Definition try_catch {A} (m : M A) (h : string -> M A) : M A :=
  fun w => match m w with
           | (Ret a, w') => (Ret a, w')
           | (Throw e, w') => h e w'
           end.

Notation "x <- m ;; k" := (bind m (fun x => k))
  (at level 100, m at next level, right associativity).

(** [mulberry32(seed)]: a fresh closure whose captured [t] is
    [seed >>> 0]; the closure is named by the index of its cell. *)
Definition mulberry32 (seed : Z) : M nat :=
  fun w => (Ret (length (heap w)), set_heap (heap w ++ [JS.ushr seed 0]) w).

(** [rng()]: one call of the closure in cell [r]. *)
Definition call (r : nat) : M Q :=
  fun w => match heap w !! r with
           | Some t0 =>
               let '(t, k) := Rng.mulberry32_step t0 in
               (Ret (k # 4294967296), set_heap (<[r := t]> (heap w)) w)
           | None => (Throw "ReferenceError", w)
           end.

(** [crypto.randomUUID()] *)
Definition randomUUID (env : Env) : M string :=
  fun w => (Ret (crypto_randomUUID env (uuids w)), set_uuids (S (uuids w)) w).

(** [fetch] of one request against a service, decoded; [msg] is the
    message the code throws when the status is bad. *)
Definition fetch {A} (service : nat -> Request -> Outcome A) (req : Request)
    (msg : string) : M A :=
  fun w => let w' := set_requests (requests w ++ [req]) w in
           match service (length (requests w)) req with
           | Replied a => (Ret a, w')
           | Failed f => (Throw (thrown f msg), w')
           end.

End Run.

(** ** The country table (identical in the three frontends) *)

Module Geo.
Local Open Scope string_scope.

Record Bounds := {
  name : string;
  latMin : Q; latMax : Q;
  lonMin : Q; lonMax : Q
}.

Definition NZ : Bounds :=
  {| name := "New Zealand"; latMin := -(475 # 10); latMax := -(34 # 1);
     lonMin := 166 # 1; lonMax := 1798 # 10 |}.
Definition AU : Bounds :=
  {| name := "Australia"; latMin := -(438 # 10); latMax := -(10 # 1);
     lonMin := 112 # 1; lonMax := 154 # 1 |}.
Definition US : Bounds :=
  {| name := "USA (lower 48)"; latMin := 245 # 10; latMax := 495 # 10;
     lonMin := -(125 # 1); lonMax := -(665 # 10) |}.
Definition GB : Bounds :=
  {| name := "United Kingdom"; latMin := 498 # 10; latMax := 59 # 1;
     lonMin := -(86 # 10); lonMax := 18 # 10 |}.
Definition JP : Bounds :=
  {| name := "Japan"; latMin := 30 # 1; latMax := 458 # 10;
     lonMin := 129 # 1; lonMax := 1458 # 10 |}.

Definition COUNTRY_BOUNDS_entries : list (string * Bounds) :=
  [("NZ", NZ); ("AU", AU); ("US", US); ("GB", GB); ("JP", JP)].

(** The object [COUNTRY_BOUNDS], read as a map on its own keys. *)
Definition COUNTRY_BOUNDS : gmap string Bounds :=
  list_to_map COUNTRY_BOUNDS_entries.

(** [COUNTRY_BOUNDS[countryCode] || COUNTRY_BOUNDS.NZ] *)
Definition boundsFor (countryCode : string) : Bounds :=
  match COUNTRY_BOUNDS !! countryCode with
  | Some b => b
  | None => default NZ (COUNTRY_BOUNDS !! "NZ")
  end.

(** The object every [rollSpot]/[rollCenter] returns; [brand] is present
    in the third frontend only. *)
Record Spot := {
  brand : option string;
  country : string;
  countryCode : string;
  mode : string;
  lat : Q;
  lon : Q;
  seed : string;
  rerolls : Z
}.

End Geo.

(** ** src/public/app.js: the point generator *)

Module V2.
Import JS Rng Run Geo.
Local Open Scope string_scope.

Definition rollSpot (countryCode mode userSeed : string) (rerolls : Z)
    : M Spot :=
  let bounds := boundsFor countryCode in
  let base := countryCode ++ "|" ++ mode ++ "|" ++ userSeed ++ "|"
              ++ Number_toString rerolls in
  let seed32 := hashStrToSeed base in
  rng <- mulberry32 seed32 ;;
  u <- call rng ;;
  let lat := (latMin bounds + u * (latMax bounds - latMin bounds))%Q in
  v <- call rng ;;
  let lon := (lonMin bounds + v * (lonMax bounds - lonMin bounds))%Q in
  ret {| brand := None;
         country := name bounds;
         countryCode := countryCode;
         mode := mode;
         lat := Number_toFixed 6 lat;
         lon := Number_toFixed 6 lon;
         seed := countryCode ++ "-" ++ mode ++ "-" ++ Number_toString16 seed32;
         rerolls := rerolls |}.

(** The object [reverseCheck] returns, and the one the [catch] block
    builds. *)
Record Check := {
  ok : bool;
  looksWater : bool;
  place : string;
  rawType : string;
  rawCategory : string
}.

Definition waterTypes : list string :=
  ["ocean"; "sea"; "bay"; "strait"; "channel"; "water"; "river"; "lake";
   "reservoir"; "reef"].

(** [waterTypes.has(type)] *)
Definition waterTypes_has (type : string) : bool :=
  existsb (String.eqb type) waterTypes.

(** The heuristics of [reverseCheck] on the decoded reply. *)
Definition judge (data : NominatimData) : Check :=
  let type := toLowerCase (d_type data) in
  let category := toLowerCase (d_category data) in
  let looksWater :=
    waterTypes_has type
    || includes category "water"
    || includes category "sea"
    || includes type "ocean"
    || includes type "sea" in
  let display := trim (d_display_name data) in
  let ok := negb looksWater && (6 <=? str_length display)%Z in
  {| ok := ok;
     looksWater := looksWater;
     place := or_else display "Unknown";
     rawType := or_else type "unknown";
     rawCategory := or_else category "unknown" |}.

Section Orchestrator.
Variable env : Env.

Definition reverseCheck (lat lon : Q) : M Check :=
  data <- fetch (nominatim env) (ReqNominatim 10 0 lat lon)
            "Reverse lookup failed" ;;
  ret (judge data).

Definition lookup_unavailable : Check :=
  {| ok := false; looksWater := false; place := "Lookup unavailable";
     rawType := ""; rawCategory := "" |}.

(** The loop [for (let i = 1; i <= maxAttempts; i++)] of
    [rollUntilLikelyLand] with [n] iterations left; [spot] and [check]
    are the variables of the same names. *)
Fixpoint attempts (countryCode mode userSeed : string) (n : nat) (i : Z)
    (spot : option Spot) (check : option Check)
    : M (option Spot * option Check) :=
  match n with
  | O => ret (spot, check)
  | S n' =>
      s <- rollSpot countryCode mode userSeed i ;;
      r <- try_catch
             (c <- reverseCheck (lat s) (lon s) ;;
              if negb (String.eqb mode "publicish") then ret (Some c, true)
              else if ok c then ret (Some c, true)
              else ret (Some c, false))
             (fun _ =>
                if (3 <=? i)%Z then ret (Some lookup_unavailable, true)
                else ret (check, false)) ;;
      let '(check', stop) := r in
      if stop : bool then ret (Some s, check')
      else attempts countryCode mode userSeed n' (i + 1) (Some s) check'
  end.

(** [rollUntilLikelyLand({ countryCode, mode, maxAttempts = 8 })] *)
Definition rollUntilLikelyLand (countryCode mode : string)
    (maxAttempts : option Z) : M (option Spot * option Check) :=
  let maxAttempts := default 8 maxAttempts in
  userSeed <- randomUUID env ;;
  attempts countryCode mode userSeed (Z.to_nat maxAttempts) 1 None None.

End Orchestrator.

End V2.

(** ** src/unnamed/part_001: the point generator *)

Module V3.
Import JS Rng Run Geo.
Local Open Scope string_scope.

Definition BRAND : string := "Random Spot Certificate".

Definition rollCenter (countryCode mode userSeed : string) (rerolls : Z)
    : M Spot :=
  let bounds := boundsFor countryCode in
  let base := countryCode ++ "|" ++ mode ++ "|" ++ userSeed ++ "|"
              ++ Number_toString rerolls in
  let seed32 := hashStrToSeed base in
  rng <- mulberry32 seed32 ;;
  u <- call rng ;;
  let lat := (latMin bounds + u * (latMax bounds - latMin bounds))%Q in
  v <- call rng ;;
  let lon := (lonMin bounds + v * (lonMax bounds - lonMin bounds))%Q in
  ret {| brand := Some BRAND;
         country := name bounds;
         countryCode := countryCode;
         mode := mode;
         lat := Number_toFixed 6 lat;
         lon := Number_toFixed 6 lon;
         seed := countryCode ++ "-" ++ mode ++ "-" ++ Number_toString16 seed32;
         rerolls := rerolls |}.

(** *** Tile math *)

Record LatLon := { p_lat : Q; p_lon : Q }.
Record TileBounds := { north : Q; south : Q; east : Q; west : Q }.
Record Corners := { NW : LatLon; NE : LatLon; SW : LatLon; SE : LatLon }.
Record Tile := {
  sizeMeters : Q;
  areaM2 : Q;
  center : LatLon;
  bounds : TileBounds;
  corners : Corners
}.

(** [Math.PI], the double nearest to pi *)
Definition Math_PI : Q := 884279719003555 # 281474976710656.

Definition metersToLatDeg (m : Q) : Q := (m / 111320)%Q.

Definition metersToLonDeg (cosine : Q -> Q) (m latDeg : Q) : Q :=
  let cos := cosine ((latDeg * Math_PI) / 180)%Q in
  (m / (111320 * Math_max cos (12 # 100)))%Q.

(** [makeTileFromCenter(lat, lon, sizeMeters = 1)] *)
Definition makeTileFromCenter (cosine : Q -> Q) (lat lon : Q)
    (sizeMeters : option Q) : Tile :=
  let sizeMeters := default 1%Q sizeMeters in
  let half := (sizeMeters / 2)%Q in
  let dLat := metersToLatDeg half in
  let dLon := metersToLonDeg cosine half lat in
  let north := (lat + dLat)%Q in
  let south := (lat - dLat)%Q in
  let east := (lon + dLon)%Q in
  let west := (lon - dLon)%Q in
  {| sizeMeters := sizeMeters;
     areaM2 := Number_toFixed 2 (sizeMeters * sizeMeters)%Q;
     center := {| p_lat := lat; p_lon := lon |};
     bounds := {| north := north; south := south; east := east; west := west |};
     corners := {| NW := {| p_lat := north; p_lon := west |};
                   NE := {| p_lat := north; p_lon := east |};
                   SW := {| p_lat := south; p_lon := west |};
                   SE := {| p_lat := south; p_lon := east |} |} |}.

(** *** Land checks *)

Record Signals := { hasRoadish : bool; hasPlaceish : bool; hasCountry : bool }.

Record NomCheck := {
  n_ok : bool;
  n_looksWater : bool;
  n_place : string;
  n_type : string;
  n_category : string;
  signals : Signals
}.

Definition waterWords : list string :=
  ["ocean"; "sea"; "bay"; "strait"; "channel"; "water"; "river"; "lake";
   "reservoir"; "reef"; "coastline"; "beach"].

(** [data?.address || {}] *)
Definition no_address : Address :=
  {| road := ""; pedestrian := ""; footway := ""; cycleway := "";
     city := ""; town := ""; village := ""; hamlet := ""; suburb := "";
     neighbourhood := ""; a_country := "" |}.

(** The heuristics of [reverseCheckNominatim] on the decoded reply. *)
Definition judge (data : NominatimData) : NomCheck :=
  let type := toLowerCase (d_type data) in
  let category := toLowerCase (d_category data) in
  let display := trim (d_display_name data) in
  let addr := default no_address (d_address data) in
  let looksWater :=
    existsb (fun w => includes type w) waterWords
    || existsb (fun w => includes category w) waterWords
    || (String.eqb category "natural"
        && (String.eqb type "water" || String.eqb type "coastline")) in
  let hasRoadish :=
    truthy (or_else (or_else (or_else (road addr) (pedestrian addr))
                       (footway addr)) (cycleway addr)) in
  let hasPlaceish :=
    truthy (or_else (or_else (or_else (or_else (or_else (city addr) (town addr))
                       (village addr)) (hamlet addr)) (suburb addr))
                       (neighbourhood addr)) in
  let hasCountry := truthy (a_country addr) in
  let ok := negb looksWater && hasCountry
            && (hasRoadish || hasPlaceish || (12 <? str_length display)%Z) in
  {| n_ok := ok;
     n_looksWater := looksWater;
     n_place := or_else display "Unknown";
     n_type := type;
     n_category := category;
     signals := {| hasRoadish := hasRoadish; hasPlaceish := hasPlaceish;
                   hasCountry := hasCountry |} |}.

(** What [overpassHasHighwayNearby] returns, or the [roads] object of the
    fallback. *)
Inductive Roads : Type :=
| RoadsFound (r_ok : bool) (count : Z) (radiusMeters : Z)
| RoadsError (error : string).

(** The [check] object of a spot. *)
Record Check := {
  ok : bool;
  level : string;
  place : string;
  nom : option NomCheck;
  roads : option Roads;
  error : option string;
  note : option string
}.

(** The object [rollUntilGood] returns: [{ ...center, tile, check }]. *)
Record TileSpot := {
  point : Spot;
  tile : Tile;
  check : Check
}.

Section Orchestrator.
Variable env : Env.

Definition reverseCheckNominatim (lat lon : Q) : M NomCheck :=
  data <- fetch (nominatim env) (ReqNominatim 18 1 lat lon)
            "Nominatim reverse failed" ;;
  ret (judge data).

(** [overpassHasHighwayNearby(lat, lon, radiusMeters = 3000)] *)
Definition overpassHasHighwayNearby (lat lon : Q) (radiusMeters : option Z)
    : M Roads :=
  let radiusMeters := default 3000 radiusMeters in
  elements <- fetch (overpass env) (ReqOverpass radiusMeters lat lon)
                "Overpass failed" ;;
  let count := default 0 elements in
  ret (RoadsFound (0 <? count)%Z count radiusMeters).

Definition roads_ok (r : Roads) : bool :=
  match r with RoadsFound b _ _ => b | RoadsError _ => false end.

Definition strongLandCheck (lat lon : Q) (mode : string) : M Check :=
  nom <- reverseCheckNominatim lat lon ;;
  if negb (String.eqb mode "publicish") then
    ret {| ok := true; level := "lite"; place := n_place nom;
           nom := Some nom; roads := None; error := None; note := None |}
  else if negb (n_ok nom) then
    ret {| ok := false; level := "nominatim"; place := n_place nom;
           nom := Some nom; roads := None; error := None; note := None |}
  else
    try_catch
      (roads <- overpassHasHighwayNearby lat lon (Some 3000) ;;
       if negb (roads_ok roads) then
         ret {| ok := false; level := "overpass"; place := n_place nom;
                nom := Some nom; roads := Some roads; error := None;
                note := None |}
       else
         ret {| ok := true; level := "strong"; place := n_place nom;
                nom := Some nom; roads := Some roads; error := None;
                note := None |})
      (fun e =>
         ret {| ok := n_ok nom; level := "fallback"; place := n_place nom;
                nom := Some nom; roads := Some (RoadsError e); error := None;
                note := None |}).

(** The loop of [rollUntilGood] with [n] iterations left; [best] is the
    variable of the same name. An early [return] is [inl], leaving the
    loop at its end is [inr best]. *)
Fixpoint attempts (countryCode mode : string) (tileMeters : option Q)
    (userSeed : string) (n : nat) (i : Z) (best : option TileSpot)
    : M (TileSpot + option TileSpot) :=
  match n with
  | O => ret (inr best)
  | S n' =>
      center <- rollCenter countryCode mode userSeed i ;;
      let tile := makeTileFromCenter (Math_cos env) (lat center) (lon center)
                    tileMeters in
      check <- try_catch (strongLandCheck (lat center) (lon center) mode)
                 (fun e =>
                    ret {| ok := negb (String.eqb mode "publicish");
                           level := "error"; place := "Lookup unavailable";
                           nom := None; roads := None; error := Some e;
                           note := None |}) ;;
      let spot := {| point := center; tile := tile; check := check |} in
      if negb (String.eqb mode "publicish") then ret (inl spot)
      else if ok check then ret (inl spot)
      else attempts countryCode mode tileMeters userSeed n' (i + 1) (Some spot)
  end.

(** [best.check = { ...(best.check || {}), ok: false, level: "exhausted",
    note: ... }] *)
Definition mark_exhausted (best : TileSpot) : TileSpot :=
  {| point := point best;
     tile := tile best;
     check := {| ok := false; level := "exhausted";
                 place := place (check best);
                 nom := nom (check best);
                 roads := roads (check best);
                 error := error (check best);
                 note := Some "Could not confidently avoid water/remote picks." |} |}.

(** [rollUntilGood({ countryCode, mode, tileMeters, maxAttempts = 30 })];
    [None] is [null]. *)
Definition rollUntilGood (countryCode mode : string) (tileMeters : option Q)
    (maxAttempts : option Z) : M (option TileSpot) :=
  let maxAttempts := default 30 maxAttempts in
  userSeed <- randomUUID env ;;
  r <- attempts countryCode mode tileMeters userSeed (Z.to_nat maxAttempts) 1
         None ;;
  match r with
  | inl spot => ret (Some spot)
  | inr best => ret (option_map mark_exhausted best)
  end.

End Orchestrator.

End V3.

(** ** src/unnamed/part_000: the point generator with its land bias *)

Module V1.
Import JS Rng Run Geo.
Local Open Scope string_scope.

Definition clamp (n a b : Q) : Q := Math_max a (Math_min b n).

Definition oceanishHeuristic (lat lon : Q) : Q :=
  let latScore := (1 - Math_abs lat / 90)%Q in
  let lonScore := (1 - (Math_abs (rem lon 180) / 180) * (2 # 10))%Q in
  clamp (latScore * lonScore)%Q 0 1.

Definition landBiasAccept (lat lon : Q) (rng : nat) : M bool :=
  let p := oceanishHeuristic lat lon in
  u <- call rng ;;
  ret (if Qlt_le_dec u (clamp (p * (115 # 100))%Q (5 # 100) (95 # 100))
       then true else false).

(** The [for] loop of [rollSpot]: [tries] iterations remain, [lat] and
    [lon] hold the values of the previous iteration. *)
Fixpoint roll_loop (tries : nat) (bounds : Bounds) (mode : string) (rng : nat)
    (lat lon : Q) : M (Q * Q) :=
  match tries with
  | O => ret (lat, lon)
  | S tries' =>
      u <- call rng ;;
      let lat := (latMin bounds + u * (latMax bounds - latMin bounds))%Q in
      v <- call rng ;;
      let lon := (lonMin bounds + v * (lonMax bounds - lonMin bounds))%Q in
      if negb (String.eqb mode "publicish") then ret (lat, lon)
      else
        accepted <- landBiasAccept lat lon rng ;;
        if accepted : bool then ret (lat, lon)
        else roll_loop tries' bounds mode rng lat lon
  end.

Definition rollSpot (countryCode mode userSeed : string) (rerolls : Z)
    : M Spot :=
  let bounds := boundsFor countryCode in
  let base := countryCode ++ "|" ++ mode ++ "|" ++ userSeed ++ "|"
              ++ Number_toString rerolls in
  let seed32 := hashStrToSeed base in
  rng <- mulberry32 seed32 ;;
  let maxTries := if String.eqb mode "publicish" then 120%nat else 40%nat in
  p <- roll_loop maxTries bounds mode rng 0 0 ;;
  ret {| brand := None;
         country := name bounds;
         countryCode := countryCode;
         mode := mode;
         lat := Number_toFixed 6 (fst p);
         lon := Number_toFixed 6 (snd p);
         seed := countryCode ++ "-" ++ mode ++ "-" ++ Number_toString16 seed32;
         rerolls := rerolls |}.

End V1.

(** ** src/netlify/functions/stripe.js: the [deliver] action *)

Module Stripe.
Import JS.
Local Open Scope string_scope.

(** A checkout session as [sessions.retrieve] returns it; [payment_intent]
    is the id of its payment intent, [None] when it has none. *)
Record Session := {
  payment_status : string;
  metadata : option (gmap string string);
  payment_intent : option string
}.

Record Mail := {
  m_from : string;
  m_to : string;
  m_subject : string;
  m_attachment : string
}.

(** What the endpoint acts on: the sessions and the metadata of the
    payment intents held by the payment service, and the mail sent. *)
Record Store := {
  sessions : gmap string Session;
  intents : gmap string (gmap string string);
  outbox : list Mail
}.

(** [process.env]; an unset variable is the empty string. *)
Record ProcessEnv := {
  STRIPE_SECRET_KEY : string;
  GMAIL_USER : string;
  GMAIL_APP_PASSWORD : string
}.

(** What the collaborators do during one invocation: whether the
    retrieval, the PDF rendering, the SMTP send and the metadata update
    succeed, and the time [new Date().toISOString()] reads. *)
Record Conditions := {
  retrieve_works : bool;
  pdf_works : bool;
  sendMail_works : bool;
  update_works : bool;
  now : string
}.

(** The Netlify event; [body] is the decoded JSON body ([None] when
    [JSON.parse] throws), with the string-valued fields only. *)
Record Event := {
  httpMethod : string;
  queryStringParameters : gmap string string;
  body : option (gmap string string)
}.

Inductive Json : Type :=
| JBool (b : bool)
| JStr (s : string).

Record Response := {
  statusCode : Z;
  payload : list (string * Json)
}.

Definition json (statusCode : Z) (data : list (string * Json)) : Response :=
  {| statusCode := statusCode; payload := data |}.

(** [m.k || ""], and [typeof v !== "string"] giving [""] *)
Definition field (m : gmap string string) (k : string) : string :=
  default "" (m !! k).

Definition asStr (v : string) (max : nat) : string :=
  let s := trim v in
  if (max <? String.length s)%nat then slice0 s max else s.

(** [/^[^\s@]+@[^\s@]+\.[^\s@]+$/.test(email)] *)
Definition plain (c : ascii) : bool :=
  negb (isSpace c) && negb (Ascii.eqb c "@").

Fixpoint split_at (l : list ascii) : option (list ascii * list ascii) :=
  match l with
  | [] => None
  | c :: r =>
      if Ascii.eqb c "@" then Some ([], r)
      else match split_at r with
           | Some (a, b) => Some (c :: a, b)
           | None => None
           end
  end.

(** Some dot of [l] has a character before it and one after it. *)
Fixpoint inner_dot (first : bool) (l : list ascii) : bool :=
  match l with
  | [] => false
  | c :: r =>
      (negb first && Ascii.eqb c "." && negb (match r with [] => true | _ => false end))
      || inner_dot false r
  end.

Definition looksLikeEmail (email : string) : bool :=
  match split_at (list_ascii_of_string email) with
  | Some (loc, dom) =>
      negb (match loc with [] => true | _ => false end)
      && forallb plain loc && forallb plain dom && inner_dot true dom
  | None => false
  end.

Definition set_outbox (o : list Mail) (st : Store) : Store :=
  {| sessions := sessions st; intents := intents st; outbox := o |}.
Definition set_intents (i : gmap string (gmap string string)) (st : Store) : Store :=
  {| sessions := sessions st; intents := i; outbox := outbox st |}.

(** [certificate-<country>-<seed>.pdf]; white space in the country becomes
    [_]. *)
Fixpoint underscore (s : string) (in_space : bool) : string :=
  match s with
  | EmptyString => EmptyString
  | String c r =>
      if isSpace c
      then (if in_space then underscore r true else String "_" (underscore r true))
      else String c (underscore r false)
  end.

Definition filename (meta : gmap string string) : string :=
  "certificate-" ++ underscore (or_else (field meta "country") "XX") false
  ++ "-" ++ slice0 (or_else (field meta "seed") "seed") 10 ++ ".pdf".

(** The block [if (action === "deliver") { ... }]: a response ([inl]) or a
    thrown message ([inr]), and the store it leaves. *)
Definition deliver (penv : ProcessEnv) (cond : Conditions)
    (q body : gmap string string) (st : Store)
    : (Response + string) * Store :=
  let session_id := asStr (or_else (field q "session_id") (field body "session_id")) 200 in
  if negb (truthy session_id) || negb (startsWith session_id "cs_") then
    (inl (json 400 [("error", JStr "Missing/invalid session_id")]), st)
  else if negb (retrieve_works cond) then (inr "Stripe retrieve failed", st)
  else
  match sessions st !! session_id with
  | None => (inr "No such checkout.session", st)
  | Some session =>
    if negb (String.eqb (payment_status session) "paid") then
      (inl (json 200 [("ok", JBool false); ("delivered", JBool false);
                      ("message", JStr "Payment not confirmed.")]), st)
    else
    let meta := default ∅ (metadata session) in
    let consentYes := String.eqb (toLowerCase (field meta "email_consent")) "yes" in
    let to := asStr (field meta "email") 120 in
    if negb consentYes then
      (inl (json 200 [("ok", JBool true); ("delivered", JBool false);
                      ("message", JStr "Email delivery not opted in.")]), st)
    else if negb (truthy to) || negb (looksLikeEmail to) then
      (inl (json 200 [("ok", JBool false); ("delivered", JBool false);
                      ("message", JStr "Missing/invalid email in metadata.")]), st)
    else
    match payment_intent session with
    | None =>
      (inl (json 500 [("ok", JBool false); ("delivered", JBool false);
                      ("message", JStr "Missing payment_intent.")]), st)
    | Some pi_id =>
      match (if truthy pi_id then intents st !! pi_id else None) with
      | None =>
        (inl (json 500 [("ok", JBool false); ("delivered", JBool false);
                        ("message", JStr "Missing payment_intent.")]), st)
      | Some piMeta =>
        if String.eqb (toLowerCase (field piMeta "certificate_emailed")) "yes" then
          (inl (json 200 [("ok", JBool true); ("delivered", JBool true);
                          ("to", JStr to);
                          ("message", JStr "Already emailed (idempotent).")]), st)
        else if negb (pdf_works cond) then (inr "PDF generation failed", st)
        else if negb (truthy (GMAIL_USER penv)) then (inr "Missing GMAIL_USER", st)
        else if negb (truthy (GMAIL_APP_PASSWORD penv)) then
          (inr "Missing GMAIL_APP_PASSWORD", st)
        else if negb (sendMail_works cond) then (inr "sendMail failed", st)
        else
          let mail := {| m_from := "Random Spot Certificate <" ++ GMAIL_USER penv ++ ">";
                         m_to := to;
                         m_subject := "Your Random Spot Certificate (PDF)";
                         m_attachment := filename meta |} in
          let st1 := set_outbox (outbox st ++ [mail]) st in
          if negb (update_works cond) then (inr "Stripe update failed", st1)
          else
            let marked :=
              <["certificate_email_to" := to]>
                (<["certificate_emailed_at" := now cond]>
                   (<["certificate_emailed" := "yes"]> piMeta)) in
            (inl (json 200 [("ok", JBool true); ("delivered", JBool true);
                            ("to", JStr to)]),
             set_intents (<[pi_id := marked]> (intents st1)) st1)
      end
    end
  end.

(** [exports.handler] on an event whose action is not [create], [verify]
    or [subscribe]; those three actions are outside this development and
    give [None]. *)
Definition handler (penv : ProcessEnv) (cond : Conditions) (event : Event)
    (st : Store) : option (Response * Store) :=
  if String.eqb (httpMethod event) "OPTIONS" then
    Some (json 200 [("ok", JBool true)], st)
  else if negb (truthy (STRIPE_SECRET_KEY penv)) then
    Some (json 500 [("error", JStr "Missing STRIPE_SECRET_KEY")], st)
  else
  match (if String.eqb (httpMethod event) "POST" then body event else Some ∅) with
  | None => Some (json 400 [("error", JStr "Invalid JSON body")], st)
  | Some body =>
    let q := queryStringParameters event in
    let action := asStr (or_else (field q "action") (field body "action")) 20 in
    if String.eqb action "create" || String.eqb action "verify"
       || String.eqb action "subscribe" then None
    else if String.eqb action "deliver" then
      match deliver penv cond q body st with
      | (inl r, st') => Some (r, st')
      | (inr e, st') =>
          Some (json 500 [("error", JStr "Server error"); ("detail", JStr e)], st')
      end
    else
      Some (json 400 [("error",
              JStr "Unknown action. Use ?action=create | verify | deliver | subscribe")],
            st)
  end.

End Stripe.

(** ** The derivation as the specification words it (section 4.1)

    These definitions follow the text of the specification, not the
    code: unsigned 32-bit arithmetic throughout. *)

Module Spec.
Import JS Rng Geo.
Local Open Scope string_scope.

(** 32-bit FNV-1a: start from the offset basis, for each character XOR
    then multiply by the prime, keeping an unsigned 32-bit value. *)
Definition fnv1a_step (h : Z) (c : ascii) : Z :=
  (Z.lxor h (charCode c) * 16777619) mod 2 ^ 32.

Definition fnv1a32 (str : string) : Z :=
  fold_left fnv1a_step (list_ascii_of_string str) 2166136261.

(** [countryCode|mode|userSeed|attemptNumber] *)
Definition request_string (countryCode mode userSeed : string)
    (attemptNumber : Z) : string :=
  countryCode ++ "|" ++ mode ++ "|" ++ userSeed ++ "|"
  ++ Number_toString attemptNumber.

(** The generator, a 32-bit counter-based mix: a call advances the
    32-bit state by 0x6D2B79F5, applies two rounds of XOR-shift-multiply
    to the advanced value, all in unsigned 32-bit arithmetic, and returns
    the resulting 32 bits, to be divided by 2^32. The result is the new
    state and that numerator. *)
Definition mulberry32_next (state : Z) : Z * Z :=
  let t := (state + 1831565813) mod 2 ^ 32 in
  let x := (Z.lxor t (Z.shiftr t 15) * Z.lor 1 t) mod 2 ^ 32 in
  let y := (Z.lxor x (Z.shiftr x 7) * Z.lor 61 x) mod 2 ^ 32 in
  let x := Z.lxor x ((x + y) mod 2 ^ 32) in
  (t, Z.lxor x (Z.shiftr x 14)).

(** The first two values of the generator seeded with [s], as numerators
    over 2^32. *)
Definition two_draws (s : Z) : Z * Z :=
  let '(s1, k1) := mulberry32_next s in
  let '(_, k2) := mulberry32_next s1 in
  (k1, k2).

(** Linear map of a draw [k / 2^32] into [[lo, hi]], rounded to 6 places. *)
Definition into_range (lo hi : Q) (k : Z) : Q :=
  Number_toFixed 6 (lo + (k # 4294967296) * (hi - lo))%Q.

Definition derivePoint (b : Bounds) (countryCode mode userSeed : string)
    (attemptNumber : Z) : Q * Q :=
  let s := fnv1a32 (request_string countryCode mode userSeed attemptNumber) in
  let '(k1, k2) := two_draws s in
  (into_range (latMin b) (latMax b) k1, into_range (lonMin b) (lonMax b) k2).

(** The seed label: country code, mode and the seed in hexadecimal. *)
Definition seedLabel (countryCode mode userSeed : string)
    (attemptNumber : Z) : string :=
  countryCode ++ "-" ++ mode ++ "-"
  ++ Number_toString16
       (fnv1a32 (request_string countryCode mode userSeed attemptNumber)).

End Spec.

(** ** The two-draw derivation as a value *)

Module Derived.
Import JS Rng Run Geo.
Local Open Scope string_scope.

(** The common shape of [rollSpot] (app.js) and [rollCenter]: two calls of
    a fresh generator, whatever the world. *)
Definition rolled (br : option string) (countryCode mode userSeed : string)
    (rerolls : Z) : Spot :=
  let b := boundsFor countryCode in
  let s := hashStrToSeed (Spec.request_string countryCode mode userSeed rerolls) in
  let '(k1, k2) := Spec.two_draws s in
  {| brand := br; country := name b; countryCode := countryCode; mode := mode;
     lat := Spec.into_range (latMin b) (latMax b) k1;
     lon := Spec.into_range (lonMin b) (lonMax b) k2;
     seed := countryCode ++ "-" ++ mode ++ "-" ++ Number_toString16 s;
     rerolls := rerolls |}.

Definition after_two_draws (countryCode mode userSeed : string) (rerolls : Z)
    (w : World) : World :=
  let s := hashStrToSeed (Spec.request_string countryCode mode userSeed rerolls) in
  set_heap (heap w ++ [s + 2 * 1831565813]) w.

(** The world after one more request. *)
Definition sent (req : Request) (w : World) : World :=
  set_requests (requests w ++ [req]) w.

(** Point derivations and external calls between two worlds: every
    derivation creates one generator closure, every call is logged. *)
Definition derivations (w w' : World) : Z :=
  Z.of_nat (length (heap w')) - Z.of_nat (length (heap w)).
Definition external_calls (w w' : World) : Z :=
  Z.of_nat (length (requests w')) - Z.of_nat (length (requests w)).

(** The [check] object the [catch] block of [rollUntilGood] builds. *)
Definition check_error (mode e : string) : V3.Check :=
  {| V3.ok := negb (String.eqb mode "publicish"); V3.level := "error";
     V3.place := "Lookup unavailable"; V3.nom := None; V3.roads := None;
     V3.error := Some e; V3.note := None |}.

(** [try { check = await strongLandCheck(...) } catch (e) { check = ... }]
    as the check obtained and the world left. *)
Definition checked (env : Env) (mode : string) (lat lon : Q) (w : World)
    : V3.Check * World :=
  match V3.strongLandCheck env lat lon mode w with
  | (Ret c, w') => (c, w')
  | (Throw e, w') => (check_error mode e, w')
  end.

(** The spot held after [k] iterations that started at attempt [i]. *)
Definition held (br : option string) (c m u : string) (i : Z) (k : nat)
    (before : option Spot) : option Spot :=
  match k with
  | O => before
  | S _ => Some (rolled br c m u (i + Z.of_nat k - 1))
  end.

(** The spot object of attempt [i]. *)
Definition tiled (env : Env) (c m : string) (t : option Q) (u : string) (i : Z)
    (ck : V3.Check) : V3.TileSpot :=
  let s := rolled (Some V3.BRAND) c m u i in
  {| V3.point := s;
     V3.tile := V3.makeTileFromCenter (Math_cos env) (lat s) (lon s) t;
     V3.check := ck |}.

End Derived.

(** ** Invariants of the data model *)

Module Invariants.
Import Geo.
Local Open Scope Q_scope.

(** A rational with at most six decimals. *)
Definition six_decimals (x : Q) : Prop :=
  exists a : Z, x == inject_Z a / inject_Z (10 ^ Z.of_nat 6).

Definition well_formed (b : Bounds) : Prop :=
  six_decimals (latMin b) /\ six_decimals (latMax b)
  /\ six_decimals (lonMin b) /\ six_decimals (lonMax b)
  /\ latMin b < latMax b /\ lonMin b < lonMax b
  /\ -(90) <= latMin b /\ latMax b <= 90
  /\ -(180) <= lonMin b /\ lonMax b <= 180.

(** [p] is the image of two draws of the generator in the rectangle [b]. *)
Definition drawn (b : Bounds) (p : Q * Q) : Prop :=
  exists k1 k2 : Z,
    (0 <= k1 < 4294967296)%Z /\ (0 <= k2 < 4294967296)%Z
    /\ p = ((latMin b + (k1 # 4294967296) * (latMax b - latMin b))%Q,
            (lonMin b + (k2 # 4294967296) * (lonMax b - lonMin b))%Q).

End Invariants.

(** ** Vocabulary of the statements *)

Module Props.
Import JS Rng Run Geo.
Local Open Scope string_scope.

(** A world with no closure, no UUID drawn and no request sent. *)
Definition fresh_world : World := {| heap := []; uuids := 0; requests := [] |}.


(** The point lies in the rectangle. *)
Definition inside (b : Bounds) (s : Spot) : Prop :=
  (latMin b <= lat s /\ lat s <= latMax b
   /\ lonMin b <= lon s /\ lon s <= lonMax b)%Q.

(** The call touched nothing that existed before it: it left one new
    closure cell and the rest of the world as it was. *)
Definition only_allocates (w w' : World) : Prop :=
  exists t : Z, w' = set_heap (heap w ++ [t]) w.


(** What a run of [rollUntilLikelyLand] reports: the [ok] of the check
    returned (if a check is returned), and the attempt number of the spot
    returned. *)
Definition accepted2 (r : Res (option Spot * option V2.Check) * World)
    : option bool :=
  match fst r with
  | Ret (_, Some c) => Some (V2.ok c)
  | _ => None
  end.

Definition attempt2 (r : Res (option Spot * option V2.Check) * World)
    : option Z :=
  match fst r with
  | Ret (Some s, _) => Some (rerolls s)
  | _ => None
  end.

(** What a run of [rollUntilGood] reports: [check.ok], [check.level] and
    the attempt number of the spot returned. *)
Definition accepted3 (r : Res (option V3.TileSpot) * World) : option bool :=
  match fst r with
  | Ret (Some s) => Some (V3.ok (V3.check s))
  | _ => None
  end.

Definition level3 (r : Res (option V3.TileSpot) * World) : option string :=
  match fst r with
  | Ret (Some s) => Some (V3.level (V3.check s))
  | _ => None
  end.

Definition attempt3 (r : Res (option V3.TileSpot) * World) : option Z :=
  match fst r with
  | Ret (Some s) => Some (rerolls (V3.point s))
  | _ => None
  end.

(** The rejection conditions of the two place-type checks on a reply:
    those of [reverseCheckNominatim] (part_001) and those of
    [reverseCheck] (app.js). *)
Definition rejects_nominatim (d : NominatimData) : Prop :=
  let type := toLowerCase (d_type d) in
  let category := toLowerCase (d_category d) in
  let display := trim (d_display_name d) in
  let addr := default V3.no_address (d_address d) in
  (exists w, In w V3.waterWords
             /\ (includes type w = true \/ includes category w = true))
  \/ a_country addr = ""
  \/ (road addr = "" /\ pedestrian addr = "" /\ footway addr = ""
      /\ cycleway addr = ""
      /\ city addr = "" /\ town addr = "" /\ village addr = ""
      /\ hamlet addr = "" /\ suburb addr = "" /\ neighbourhood addr = ""
      /\ (str_length display <= 12)%Z).

Definition rejects_reverse (d : NominatimData) : Prop :=
  let type := toLowerCase (d_type d) in
  let category := toLowerCase (d_category d) in
  let display := trim (d_display_name d) in
  In type V2.waterTypes
  \/ includes category "water" = true \/ includes category "sea" = true
  \/ includes type "ocean" = true \/ includes type "sea" = true
  \/ (str_length display < 6)%Z.

(** A beach with a long display name and no address details. *)
Definition beach : NominatimData :=
  {| d_type := "beach"; d_category := "natural";
     d_display_name := "Ninety Mile Beach, Northland, New Zealand";
     d_address := None |}.

(** *** Environments used as examples *)

Definition ocean : NominatimData :=
  {| d_type := "ocean"; d_category := "natural";
     d_display_name := "South Pacific Ocean"; d_address := None |}.

Definition town : NominatimData :=
  {| d_type := "residential"; d_category := "highway";
     d_display_name := "Main Street, Wellington, New Zealand";
     d_address := Some {| road := "Main Street"; pedestrian := ""; footway := "";
                          cycleway := ""; city := "Wellington"; town := "";
                          village := ""; hamlet := ""; suburb := "";
                          neighbourhood := ""; a_country := "New Zealand" |} |}.

(** Every reverse lookup answers "ocean"; no road nearby. *)
Definition env_ocean : Env :=
  {| crypto_randomUUID := fun _ => "3b241101-e2bb-4255-8caf-4136c566a962";
     nominatim := fun _ _ => Replied ocean;
     overpass := fun _ _ => Replied (Some 0);
     Math_cos := fun _ => 1%Q |}.

(** Every service is unreachable. *)
Definition env_down : Env :=
  {| crypto_randomUUID := fun _ => "3b241101-e2bb-4255-8caf-4136c566a962";
     nominatim := fun _ _ => Failed BadStatus;
     overpass := fun _ _ => Failed BadStatus;
     Math_cos := fun _ => 1%Q |}.

(** The first two reverse lookups answer "ocean", the later ones fail. *)
Definition env_third_fails : Env :=
  {| crypto_randomUUID := fun _ => "3b241101-e2bb-4255-8caf-4136c566a962";
     nominatim := fun n _ => if (n <? 2)%nat then Replied ocean
                             else Failed (Rejected "Failed to fetch");
     overpass := fun _ _ => Failed BadStatus;
     Math_cos := fun _ => 1%Q |}.

(** Reverse lookups answer a street in a town; the road service fails. *)
Definition env_roads_down : Env :=
  {| crypto_randomUUID := fun _ => "3b241101-e2bb-4255-8caf-4136c566a962";
     nominatim := fun _ _ => Replied town;
     overpass := fun _ _ => Failed BadStatus;
     Math_cos := fun _ => 1%Q |}.

(** *** The delivery endpoint *)

(** [GET /api/stripe?action=deliver&session_id=<sid>] *)
Definition deliver_request (sid : string) : Stripe.Event :=
  {| Stripe.httpMethod := "GET";
     Stripe.queryStringParameters :=
       <["action" := "deliver"]> (<["session_id" := sid]> ∅);
     Stripe.body := None |}.

(** The payment intent [pi] carries the delivery marker. *)
Definition marked (st : Stripe.Store) (pi : string) : Prop :=
  exists piMeta,
    Stripe.intents st !! pi = Some piMeta
    /\ toLowerCase (Stripe.field piMeta "certificate_emailed") = "yes".

(** A paid session [sid] whose payer opted in with a well-formed address
    [to], and whose payment intent [pi] exists. *)
Definition deliverable (st : Stripe.Store) (sid pi to : string) : Prop :=
  Stripe.asStr sid 200 = sid
  /\ startsWith sid "cs_" = true
  /\ exists session,
       Stripe.sessions st !! sid = Some session
       /\ Stripe.payment_status session = "paid"
       /\ toLowerCase (Stripe.field (default ∅ (Stripe.metadata session))
                         "email_consent") = "yes"
       /\ Stripe.asStr (Stripe.field (default ∅ (Stripe.metadata session)) "email") 120
          = to
       /\ truthy to = true /\ Stripe.looksLikeEmail to = true
       /\ Stripe.payment_intent session = Some pi
       /\ truthy pi = true
       /\ exists piMeta, Stripe.intents st !! pi = Some piMeta.

(** The process environment is configured. *)
Definition configured (penv : Stripe.ProcessEnv) : Prop :=
  truthy (Stripe.STRIPE_SECRET_KEY penv) = true
  /\ truthy (Stripe.GMAIL_USER penv) = true
  /\ truthy (Stripe.GMAIL_APP_PASSWORD penv) = true.

(** Every collaborator answers. *)
Definition all_work (cond : Stripe.Conditions) : Prop :=
  Stripe.retrieve_works cond = true /\ Stripe.pdf_works cond = true
  /\ Stripe.sendMail_works cond = true /\ Stripe.update_works cond = true.

(** The store a call leaves (the store itself for an action outside the
    model), and its response. *)
Definition store_after (r : option (Stripe.Response * Stripe.Store))
    (st : Stripe.Store) : Stripe.Store :=
  match r with Some (_, st') => st' | None => st end.

Definition response_of (r : option (Stripe.Response * Stripe.Store))
    : option Stripe.Response :=
  option_map fst r.

(** Examples: a configured process, fair and foul weather, and a store
    with one paid session, with or without consent. *)
Definition penv_ok : Stripe.ProcessEnv :=
  {| Stripe.STRIPE_SECRET_KEY := "sk_test_1"; Stripe.GMAIL_USER := "shop@gmail.com";
     Stripe.GMAIL_APP_PASSWORD := "app-password" |}.

Definition fair : Stripe.Conditions :=
  {| Stripe.retrieve_works := true; Stripe.pdf_works := true;
     Stripe.sendMail_works := true; Stripe.update_works := true;
     Stripe.now := "2026-01-01T00:00:00.000Z" |}.

Definition update_down : Stripe.Conditions :=
  {| Stripe.retrieve_works := true; Stripe.pdf_works := true;
     Stripe.sendMail_works := true; Stripe.update_works := false;
     Stripe.now := "2026-01-01T00:00:00.000Z" |}.

Definition paid_session (consent : string) : Stripe.Session :=
  {| Stripe.payment_status := "paid";
     Stripe.metadata :=
       Some (<["email" := "pat@example.com"]>
               (<["email_consent" := consent]>
                  (<["country" := "New Zealand"]>
                     (<["seed" := "NZ-publicish-b6cdbe5d"]> ∅))));
     Stripe.payment_intent := Some "pi_1" |}.

Definition shop (consent : string) : Stripe.Store :=
  {| Stripe.sessions := <["cs_test_1" := paid_session consent]> ∅;
     Stripe.intents := <["pi_1" := ∅]> ∅;
     Stripe.outbox := [] |}.

(** What the deliver block writes when it sends. *)
Definition sent_and_marked (penv : Stripe.ProcessEnv) (cond : Stripe.Conditions)
    (st : Stripe.Store) (session : Stripe.Session) (pi to : string)
    (piMeta : gmap string string) : Stripe.Store :=
  let mail := {| Stripe.m_from := "Random Spot Certificate <" ++ Stripe.GMAIL_USER penv ++ ">";
                 Stripe.m_to := to;
                 Stripe.m_subject := "Your Random Spot Certificate (PDF)";
                 Stripe.m_attachment :=
                   Stripe.filename (default ∅ (Stripe.metadata session)) |} in
  let st1 := Stripe.set_outbox (Stripe.outbox st ++ [mail]) st in
  Stripe.set_intents
    (<[pi := <["certificate_email_to" := to]>
               (<["certificate_emailed_at" := Stripe.now cond]>
                  (<["certificate_emailed" := "yes"]> piMeta))]> (Stripe.intents st1))
    st1.

(** Two calls of the deliver action in a row. *)
Definition deliver_twice (penv : Stripe.ProcessEnv) (c1 c2 : Stripe.Conditions)
    (sid : string) (st : Stripe.Store) : Stripe.Store :=
  let st1 := store_after (Stripe.handler penv c1 (deliver_request sid) st) st in
  store_after (Stripe.handler penv c2 (deliver_request sid) st1) st1.

End Props.

(** * Further code

    ** The index pages: what [rollAndCheck] passes on and reports *)

Module Pages.
Import JS Rng Run Geo.
Local Open Scope string_scope.

(** [tileMetersFromUI()] of part_001; [v] is
    [Number(tileEl?.value ?? 1)], [None] when that is [NaN] or infinite. *)
Definition tileMetersFromUI (v : option Q) : Q :=
  match v with
  | None => 1%Q
  | Some v => if Qlt_le_dec 0 v then V1.clamp v (1 # 10) 100 else 1%Q
  end.

Section Index.
Variable env : Env.

(** [rollAndCheck()] of app.js, without the DOM: the spot and the check
    left in [current] and [currentCheck], and the kind of the status
    shown last. [render] reads [spot.lat], which throws when there is no
    spot. *)
Definition rollAndCheck2 (country mode : string)
    : M (Spot * option V2.Check * string) :=
  r <- V2.rollUntilLikelyLand env country mode
         (Some (if String.eqb mode "publicish" then 10 else 3)%Z) ;;
  match r with
  | (None, _) => throw "TypeError"
  | (Some spot, check) =>
      let unsure := match check with
                    | Some c => negb (V2.ok c)
                    | None => false
                    end in
      ret (spot, check,
           if String.eqb mode "publicish" && unsure then "bad" else "good")
  end.

(** [rollAndCheck()] of part_001, without the DOM; [tileValue] is what
    [tileMetersFromUI] reads. *)
Definition rollAndCheck3 (country mode : string) (tileValue : option Q)
    : M (V3.TileSpot * string) :=
  let tileMeters := tileMetersFromUI tileValue in
  r <- V3.rollUntilGood env country mode (Some tileMeters)
         (Some (if String.eqb mode "publicish" then 35 else 5)%Z) ;;
  match r with
  | None => throw "TypeError"
  | Some spot =>
      ret (spot,
           if String.eqb mode "publicish" && negb (V3.ok (V3.check spot))
           then "bad" else "good")
  end.

End Index.

End Pages.

(** ** The index page of part_000 *)

Module Index1.
Import JS Run Geo.
Local Open Scope string_scope.

(** The state of [pageIndex]: the values of the two selects, the
    variables [userSeed], [rerolls] and [current], and what [saveSpot]
    left in the local storage. *)
Record Page := {
  countryEl : string;
  modeEl : string;
  userSeed : string;
  rerolls : Z;
  current : option Spot;
  saved : option Spot
}.

(** What the user does: a click on the reroll button, a change of one of
    the selects to a new value, a click on the lock button. *)
Inductive Event : Type :=
| RerollClick
| CountryChange (value : string)
| ModeChange (value : string)
| LockClick.

Section Page.
Variable env : Env.

(** [roll()], without the DOM *)
Definition roll (p : Page) : M Page :=
  let rerolls := (rerolls p + 1)%Z in
  s <- V1.rollSpot (countryEl p) (modeEl p) (userSeed p) rerolls ;;
  ret {| countryEl := countryEl p; modeEl := modeEl p; userSeed := userSeed p;
         rerolls := rerolls; current := Some s; saved := saved p |}.

(** The four listeners. *)
Definition handle (e : Event) (p : Page) : M Page :=
  match e with
  | RerollClick => roll p
  | CountryChange value =>
      u <- randomUUID env ;;
      roll {| countryEl := value; modeEl := modeEl p; userSeed := u;
              rerolls := 0; current := current p; saved := saved p |}
  | ModeChange value =>
      u <- randomUUID env ;;
      roll {| countryEl := countryEl p; modeEl := value; userSeed := u;
              rerolls := 0; current := current p; saved := saved p |}
  | LockClick =>
      p' <- match current p with
            | None => roll p
            | Some _ => ret p
            end ;;
      ret {| countryEl := countryEl p'; modeEl := modeEl p';
             userSeed := userSeed p'; rerolls := rerolls p';
             current := current p'; saved := current p' |}
  end.

(** [pageIndex()] up to its initial [roll()]; [stored] is what the local
    storage holds. *)
Definition pageIndex (country mode : string) (stored : option Spot) : M Page :=
  u <- randomUUID env ;;
  roll {| countryEl := country; modeEl := mode; userSeed := u; rerolls := 0;
          current := None; saved := stored |}.

(** The page under a sequence of events. *)
Fixpoint events (es : list Event) (p : Page) : M Page :=
  match es with
  | [] => ret p
  | e :: es' => p' <- handle e p ;; events es' p'
  end.

Definition session (country mode : string) (stored : option Spot)
    (es : list Event) : M Page :=
  p <- pageIndex country mode stored ;; events es p.

End Page.

End Index1.

(** ** Vocabulary of the further properties *)

Module Traces.
Import JS Rng Run Geo Derived.
Local Open Scope string_scope.

(** The reverse lookups of [k] attempts of app.js from attempt [i] on,
    in the order made. *)
Fixpoint lookups2 (c m u : string) (i : Z) (k : nat) : list Request :=
  match k with
  | O => []
  | S k' =>
      let s := rolled None c m u i in
      ReqNominatim 10 0 (lat s) (lon s) :: lookups2 c m u (i + 1) k'
  end.

(** The requests of the attempts of part_001 from attempt [i] on, one
    flag per attempt telling whether the road lookup followed the reverse
    lookup. *)
Fixpoint lookups3 (c m u : string) (i : Z) (roads : list bool) : list Request :=
  match roads with
  | [] => []
  | r :: rest =>
      let s := rolled (Some V3.BRAND) c m u i in
      ReqNominatim 18 1 (lat s) (lon s)
      :: (if r : bool then [ReqOverpass 3000 (lat s) (lon s)] else [])
      ++ lookups3 c m u (i + 1) rest
  end.

(** The cells of the generators of [k] attempts from attempt [i] on: each
    was seeded with the hash of its request string and called twice. *)
Fixpoint closures (c m u : string) (i : Z) (k : nat) : list Z :=
  match k with
  | O => []
  | S k' =>
      (hashStrToSeed (Spec.request_string c m u i) + 2 * 1831565813)%Z
      :: closures c m u (i + 1) k'
  end.




(** The world with these cells and requests added. *)
Definition grown (cells : list Z) (reqs : list Request) (w : World) : World :=
  {| heap := heap w ++ cells; uuids := uuids w; requests := requests w ++ reqs |}.

(** [ck] is what [reverseCheck] (app.js) made of a reply of the lookup
    service for the coordinates of [s]. *)
Definition verdict_for (env : Env) (s : Spot) (ck : V2.Check) : Prop :=
  exists (n : nat) (d : NominatimData),
    nominatim env n (ReqNominatim 10 0 (lat s) (lon s)) = Replied d
    /\ ck = V2.judge d.

(** The spot and the check held belong together: the check is the
    verdict for that spot, or the ["Lookup unavailable"] one. *)
Definition matched (env : Env) (spot : option Spot) (check : option V2.Check)
    : Prop :=
  exists s ck, spot = Some s /\ check = Some ck
               /\ (verdict_for env s ck \/ ck = V2.lookup_unavailable).

(** The check of [spot] is the outcome of [strongLandCheck] (with the
    [catch] of [rollUntilGood]) on the coordinates of [spot]. *)
Definition checked_here (env : Env) (m : string) (spot : V3.TileSpot) : Prop :=
  exists w0 : World,
    V3.check spot
    = fst (checked env m (lat (V3.point spot)) (lon (V3.point spot)) w0).

(** What stands behind an accepted check of ["publicish"] mode: a reverse
    lookup for these coordinates that passed, followed by a road lookup
    that found a road (level ["strong"]) or failed (level
    ["fallback"]). *)
Definition backed (env : Env) (lat lon : Q) (ck : V3.Check) : Prop :=
  exists (n : nat) (d : NominatimData),
    nominatim env n (ReqNominatim 18 1 lat lon) = Replied d
    /\ V3.nom ck = Some (V3.judge d)
    /\ V3.place ck = V3.n_place (V3.judge d)
    /\ V3.n_looksWater (V3.judge d) = false
    /\ V3.hasCountry (V3.signals (V3.judge d)) = true
    /\ ((V3.level ck = "strong"
         /\ exists count : Z,
              (0 < count)%Z
              /\ overpass env (S n) (ReqOverpass 3000 lat lon) = Replied (Some count)
              /\ V3.roads ck = Some (V3.RoadsFound true count 3000))
        \/ (V3.level ck = "fallback"
            /\ exists f : Failure,
                 overpass env (S n) (ReqOverpass 3000 lat lon) = Failed f
                 /\ V3.roads ck = Some (V3.RoadsError (thrown f "Overpass failed")))).

End Traces.

(** ** src/netlify/functions/stripe.js: the other actions and the handler
    as a whole *)

Module Endpoint.
Import JS Stripe.
Local Open Scope string_scope.

(** The two variables of [process.env] the [create] action reads; an
    unset variable is the empty string. *)
Record Site := {
  STRIPE_PRICE_ID : string;
  SITE_URL : string
}.

(** The arguments of [stripe.checkout.sessions.create] that vary; the
    payment mode, the quantity 1, the promotion codes and the card
    payment method are constants of the call. [customer_email] is
    [None] when the key is not passed. *)
Record Checkout := {
  price : string;
  success_url : string;
  cancel_url : string;
  customer_email : option string;
  c_metadata : gmap string string
}.

(** The fields [verify] copies from a session besides the metadata;
    [None] is [null]. *)
Record Details := {
  created : Z;
  amount_total : option Z;
  currency : option string
}.

(** The conversions of the language the action relies on: [Number(s)] on
    a string, [None] when the result is [NaN] or infinite, and
    [String(x)] on a finite number. *)
Record Builtins := {
  Number_ : string -> option Q;
  String_ : Q -> string
}.

(** What the collaborators do besides [Conditions]: the URL of the
    session [sessions.create] returns ([None] when the call throws), the
    details of a session, and whether the second [sendMail] of
    [subscribe] succeeds ([sendMail_works] speaks of the first). *)
Record Service := {
  sessions_create : Checkout -> option string;
  details : string -> Details;
  second_send_works : bool
}.

(** What the endpoint acts on: the store of the payment service and of
    the mailer, and the checkout sessions it asked for. *)
Record Backend := {
  store : Store;
  checkouts : list Checkout
}.

Definition set_store (st : Store) (b : Backend) : Backend :=
  {| store := st; checkouts := checkouts b |}.
Definition set_checkouts (l : list Checkout) (b : Backend) : Backend :=
  {| store := store b; checkouts := l |}.

(** The values of the response bodies. *)
Inductive Value : Type :=
| VBool (b : bool)
| VStr (s : string)
| VNum (n : Z)
| VNull
| VMeta (m : gmap string string).

Record Reply := {
  status : Z;
  data : list (string * Value)
}.

Definition reply (statusCode : Z) (data : list (string * Value)) : Reply :=
  {| status := statusCode; data := data |}.

Definition lift (j : Json) : Value :=
  match j with
  | JBool b => VBool b
  | JStr s => VStr s
  end.

Definition lift_response (r : Response) : Reply :=
  {| status := statusCode r;
     data := map (fun kv => (fst kv, lift (snd kv))) (payload r) |}.

(** [x.toFixed(d)] as a string, for [|x| < 10^21]: the sign, the digits
    of the rounded value padded to [d + 1] places, and the point before
    the last [d]. *)
Fixpoint zeros (n : nat) : string :=
  match n with
  | O => EmptyString
  | S n' => String "0" (zeros n')
  end.

Definition Number_toFixed_string (d : nat) (x : Q) : string :=
  let n := Z.abs (toFixed_units d x) in
  let m := Number_toString n in
  let m := if (String.length m <=? d)%nat
           then zeros (d + 1 - String.length m) ++ m else m in
  let k := String.length m in
  (if Qlt_le_dec x 0 then "-" else "")
  ++ (if (d =? 0)%nat then m
      else String.substring 0 (k - d) m ++ "." ++ String.substring (k - d) d m).

(** [a > b] on finite numbers *)
Definition gt (a b : Q) : bool := if Qlt_le_dec b a then true else false.

(** The metadata object of the session [create] asks for. *)
Definition create_metadata (country mode seed lat lon tile_m email
    email_consent : string) : gmap string string :=
  <["country" := country]>
    (<["mode" := mode]>
       (<["seed" := seed]>
          (<["lat" := lat]>
             (<["lon" := lon]>
                (<["tile_m" := tile_m]>
                   (<["email" := email]>
                      (<["email_consent" := email_consent]> ∅))))))).

(** The block [if (action === "create") { ... }]: a response ([inl]) or a
    thrown message ([inr]), and the backend it leaves. *)
Definition create (site : Site) (bi : Builtins) (svc : Service)
    (body : gmap string string) (b : Backend) : (Reply + string) * Backend :=
  if negb (truthy (STRIPE_PRICE_ID site)) || negb (truthy (SITE_URL site)) then
    (inl (reply 500 [("error", VStr "Missing STRIPE_PRICE_ID or SITE_URL")]), b)
  else
  let country := or_else (asStr (field body "country") 80) "NZ" in
  let mode := or_else (asStr (field body "mode") 40) "publicish" in
  let seed := or_else (asStr (field body "seed") 120) "" in
  let lat := or_else (asStr (field body "lat") 40) "" in
  let lon := or_else (asStr (field body "lon") 40) "" in
  let tile_m := or_else (asStr (field body "tile_m") 12) "1" in
  let email := asStr (or_else (field body "email") "") 120 in
  let email_consent :=
    if String.eqb (toLowerCase (asStr (or_else (field body "email_consent") "no") 10))
         "yes"
    then "yes" else "no" in
  match Number_ bi lat, Number_ bi lon with
  | Some latNum, Some lonNum =>
    if gt (Math_abs latNum) 90 || gt (Math_abs lonNum) 180 then
      (inl (reply 400 [("error", VStr "Invalid coordinates")]), b)
    else
    match Number_ bi tile_m with
    | None => (inl (reply 400 [("error", VStr "Invalid tile_m")]), b)
    | Some tileNum =>
      if negb (gt tileNum 0) || gt tileNum 1000 then
        (inl (reply 400 [("error", VStr "Invalid tile_m")]), b)
      else if String.eqb email_consent "yes"
              && (negb (truthy email) || negb (looksLikeEmail email)) then
        (inl (reply 400
                [("error", VStr "Email consent is yes but email is missing/invalid")]),
         b)
      else
        let params :=
          {| price := STRIPE_PRICE_ID site;
             success_url := SITE_URL site
                            ++ "/success.html?session_id={CHECKOUT_SESSION_ID}";
             cancel_url := SITE_URL site ++ "/cancel.html";
             customer_email :=
               if String.eqb email_consent "yes" then Some email else None;
             c_metadata :=
               create_metadata country mode seed
                 (Number_toFixed_string 6 latNum)
                 (Number_toFixed_string 6 lonNum)
                 (String_ bi tileNum)
                 (if String.eqb email_consent "yes" then email else "")
                 email_consent |} in
        let b1 := set_checkouts (checkouts b ++ [params]) b in
        match sessions_create svc params with
        | None => (inr "Stripe create failed", b1)
        | Some url => (inl (reply 200 [("url", VStr url)]), b1)
        end
    end
  | _, _ => (inl (reply 400 [("error", VStr "Invalid coordinates")]), b)
  end.

(** The block [if (action === "verify") { ... }]. *)
Definition verify (cond : Conditions) (svc : Service)
    (q body : gmap string string) (b : Backend) : (Reply + string) * Backend :=
  let session_id := asStr (or_else (field q "session_id") (field body "session_id")) 200 in
  if negb (truthy session_id) || negb (startsWith session_id "cs_") then
    (inl (reply 400 [("error", VStr "Missing/invalid session_id")]), b)
  else if negb (retrieve_works cond) then (inr "Stripe retrieve failed", b)
  else
  match sessions (store b) !! session_id with
  | None => (inr "No such checkout.session", b)
  | Some session =>
    let paid := String.eqb (payment_status session) "paid" in
    if negb paid then
      (inl (reply 200 [("paid", VBool false);
                       ("status", VStr (payment_status session))]), b)
    else
      let d := details svc session_id in
      (inl (reply 200
              [("paid", VBool true);
               ("status", VStr (payment_status session));
               ("created", VNum (created d));
               ("amount_total",
                match amount_total d with Some n => VNum n | None => VNull end);
               ("currency",
                match currency d with Some s => VStr s | None => VNull end);
               ("metadata", VMeta (default ∅ (metadata session)))]), b)
  end.

(** The list [bad] of [subscribe]. *)
Definition bad : list string :=
  ["mailinator"; "tempmail"; "guerrillamail"; "10minutemail"; "yopmail"].

Definition subscribed : Reply :=
  reply 200 [("ok", VBool true);
             ("message", VStr "Subscribed ✅ Check your inbox.")].

(** The block [if (action === "subscribe") { ... }]; the two mails carry
    no attachment, written as the empty file name. *)
Definition subscribe (penv : ProcessEnv) (cond : Conditions) (svc : Service)
    (body : gmap string string) (b : Backend) : (Reply + string) * Backend :=
  let email := asStr (or_else (field body "email") "") 120 in
  if negb (truthy email) || negb (looksLikeEmail email) then
    (inl (reply 400 [("error", VStr "Invalid email")]), b)
  else
  let lower := toLowerCase email in
  if existsb (fun w => includes lower w) bad then (inl subscribed, b)
  else if negb (truthy (GMAIL_USER penv)) then (inr "Missing GMAIL_USER", b)
  else if negb (truthy (GMAIL_APP_PASSWORD penv)) then
    (inr "Missing GMAIL_APP_PASSWORD", b)
  else
  let fromUser := GMAIL_USER penv in
  if negb (sendMail_works cond) then (inr "sendMail failed", b)
  else
  let notice := {| m_from := "Random Spot Certificate <" ++ fromUser ++ ">";
                   m_to := fromUser;
                   m_subject := "New email_of: " ++ email;
                   m_attachment := "" |} in
  let b1 := set_store (set_outbox (outbox (store b) ++ [notice]) (store b)) b in
  if negb (second_send_works svc) then (inr "sendMail failed", b1)
  else
  let confirmation := {| m_from := "Random Spot Certificate <" ++ fromUser ++ ">";
                         m_to := email;
                         m_subject := "You’re subscribed ✅";
                         m_attachment := "" |} in
  (inl subscribed,
   set_store (set_outbox (outbox (store b1) ++ [confirmation]) (store b1)) b1).

(** [exports.handler], all four actions. *)
Definition handler (site : Site) (bi : Builtins) (penv : ProcessEnv)
    (cond : Conditions) (svc : Service) (event : Event) (b : Backend)
    : Reply * Backend :=
  if String.eqb (httpMethod event) "OPTIONS" then
    (reply 200 [("ok", VBool true)], b)
  else if negb (truthy (STRIPE_SECRET_KEY penv)) then
    (reply 500 [("error", VStr "Missing STRIPE_SECRET_KEY")], b)
  else
  match (if String.eqb (httpMethod event) "POST" then body event else Some ∅) with
  | None => (reply 400 [("error", VStr "Invalid JSON body")], b)
  | Some body =>
    let q := queryStringParameters event in
    let action := asStr (or_else (field q "action") (field body "action")) 20 in
    let r :=
      if String.eqb action "create" then create site bi svc body b
      else if String.eqb action "verify" then verify cond svc q body b
      else if String.eqb action "deliver" then
        match deliver penv cond q body (store b) with
        | (inl r, st') => (inl (lift_response r), set_store st' b)
        | (inr e, st') => (inr e, set_store st' b)
        end
      else if String.eqb action "subscribe" then subscribe penv cond svc body b
      else
        (inl (reply 400
                [("error",
                  VStr "Unknown action. Use ?action=create | verify | deliver | subscribe")]),
         b) in
    match r with
    | (inl rep, b') => (rep, b')
    | (inr e, b') =>
        (reply 500 [("error", VStr "Server error"); ("detail", VStr e)], b')
    end
  end.

End Endpoint.

(** ** src/netlify/functions/stripe.js, second copy: the endpoint with
    the actions [create] and [verify] only *)

Module Legacy.
Import JS Stripe Endpoint.
Local Open Scope string_scope.

Definition create_metadata (country mode seed lat lon : string)
    : gmap string string :=
  <["country" := country]>
    (<["mode" := mode]>
       (<["seed" := seed]>
          (<["lat" := lat]>
             (<["lon" := lon]> ∅)))).

Definition create (site : Site) (bi : Builtins) (svc : Service)
    (body : gmap string string) (b : Backend) : (Reply + string) * Backend :=
  if negb (truthy (STRIPE_PRICE_ID site)) || negb (truthy (SITE_URL site)) then
    (inl (reply 500 [("error", VStr "Missing STRIPE_PRICE_ID or SITE_URL")]), b)
  else
  let country := or_else (asStr (field body "country") 80) "NZ" in
  let mode := or_else (asStr (field body "mode") 40) "publicish" in
  let seed := or_else (asStr (field body "seed") 120) "" in
  let lat := or_else (asStr (field body "lat") 40) "" in
  let lon := or_else (asStr (field body "lon") 40) "" in
  match Number_ bi lat, Number_ bi lon with
  | Some latNum, Some lonNum =>
    if gt (Math_abs latNum) 90 || gt (Math_abs lonNum) 180 then
      (inl (reply 400 [("error", VStr "Invalid coordinates")]), b)
    else
      let params :=
        {| price := STRIPE_PRICE_ID site;
           success_url := SITE_URL site
                          ++ "/success.html?session_id={CHECKOUT_SESSION_ID}";
           cancel_url := SITE_URL site ++ "/cancel.html";
           customer_email := None;
           c_metadata :=
             create_metadata country mode seed
               (Number_toFixed_string 6 latNum)
               (Number_toFixed_string 6 lonNum) |} in
      let b1 := set_checkouts (checkouts b ++ [params]) b in
      match sessions_create svc params with
      | None => (inr "Stripe create failed", b1)
      | Some url => (inl (reply 200 [("url", VStr url)]), b1)
      end
  | _, _ => (inl (reply 400 [("error", VStr "Invalid coordinates")]), b)
  end.

(** [exports.handler] of the second copy; its [verify] block is the one
    of the first copy, character for character. *)
Definition handler (site : Site) (bi : Builtins) (penv : ProcessEnv)
    (cond : Conditions) (svc : Service) (event : Event) (b : Backend)
    : Reply * Backend :=
  if String.eqb (httpMethod event) "OPTIONS" then
    (reply 200 [("ok", VBool true)], b)
  else if negb (truthy (STRIPE_SECRET_KEY penv)) then
    (reply 500 [("error", VStr "Missing STRIPE_SECRET_KEY")], b)
  else
  match (if String.eqb (httpMethod event) "POST" then body event else Some ∅) with
  | None => (reply 400 [("error", VStr "Invalid JSON body")], b)
  | Some body =>
    let q := queryStringParameters event in
    let action := asStr (or_else (field q "action") (field body "action")) 20 in
    let r :=
      if String.eqb action "create" then create site bi svc body b
      else if String.eqb action "verify" then verify cond svc q body b
      else
        (inl (reply 400
                [("error", VStr "Unknown action. Use ?action=create or ?action=verify")]),
         b) in
    match r with
    | (inl rep, b') => (rep, b')
    | (inr e, b') =>
        (reply 500 [("error", VStr "Server error"); ("detail", VStr e)], b')
    end
  end.

End Legacy.

(** ** The pages that talk to the endpoint *)

Module Checkout.
Import JS Run Geo Stripe.
Local Open Scope string_scope.



(** The file name of the download button of [pageSuccess]. *)
Definition png_name (meta : gmap string string) : string :=
  "certificate-" ++ underscore (or_else (field meta "country") "XX") false
  ++ "-" ++ slice0 (or_else (field meta "seed") "seed") 10 ++ ".png".

End Checkout.

(** ** Vocabulary of the properties of the endpoint *)

Module Mailing.
Import JS Stripe Endpoint.
Local Open Scope string_scope.

(** No character of [l] is white space. *)
Definition spaceless (l : list ascii) : bool :=
  forallb (fun c => negb (isSpace c)) l.

(** [/^[^\s@]+@[^\s@]+\.[^\s@]+$/] read as a language: three non-empty
    runs of characters that are neither white space nor [@], separated
    by an [@] and a dot. *)
Definition matches_email (s : string) : Prop :=
  exists a b c : list ascii,
    list_ascii_of_string s = (a ++ "@"%char :: b ++ "."%char :: c)%list
    /\ a <> [] /\ b <> [] /\ c <> []
    /\ forallb plain a = true /\ forallb plain b = true
    /\ forallb plain c = true.

(** The certificate mail of [deliver] for the metadata [meta]. *)
Definition certificate_mail (penv : ProcessEnv) (meta : gmap string string)
    : Mail :=
  {| m_from := "Random Spot Certificate <" ++ GMAIL_USER penv ++ ">";
     m_to := asStr (field meta "email") 120;
     m_subject := "Your Random Spot Certificate (PDF)";
     m_attachment := filename meta |}.

(** The payment-intent metadata after the delivery marker is written. *)
Definition with_marker (cond : Conditions) (to : string)
    (piMeta : gmap string string) : gmap string string :=
  <["certificate_email_to" := to]>
    (<["certificate_emailed_at" := now cond]>
       (<["certificate_emailed" := "yes"]> piMeta)).

(** What must hold of the store for [deliver] to send for the session
    [sid]: the session is paid, its metadata opt in with a well-formed
    address, and its payment intent [pi] does not carry the marker. *)
Definition may_send (st : Store) (sid pi : string)
    (meta piMeta : gmap string string) : Prop :=
  truthy sid = true /\ startsWith sid "cs_" = true
  /\ exists session,
       sessions st !! sid = Some session
       /\ meta = default ∅ (metadata session)
       /\ payment_status session = "paid"
       /\ toLowerCase (field meta "email_consent") = "yes"
       /\ looksLikeEmail (asStr (field meta "email") 120) = true
       /\ payment_intent session = Some pi
       /\ intents st !! pi = Some piMeta
       /\ toLowerCase (field piMeta "certificate_emailed") <> "yes".

(** The answers of [deliver] that claim a delivery. *)
Definition delivered_now (to : string) : Response :=
  json 200 [("ok", JBool true); ("delivered", JBool true); ("to", JStr to)].
Definition delivered_before (to : string) : Response :=
  json 200 [("ok", JBool true); ("delivered", JBool true); ("to", JStr to);
            ("message", JStr "Already emailed (idempotent).")].

(** What [create] records about consent: either ["yes"], with a
    well-formed address that is also passed as [customer_email], or
    ["no"], with no address at all. *)
Definition consent_recorded (co : Checkout) : Prop :=
  (field (c_metadata co) "email_consent" = "yes"
   /\ customer_email co = Some (field (c_metadata co) "email")
   /\ looksLikeEmail (field (c_metadata co) "email") = true
   /\ (String.length (field (c_metadata co) "email") <= 120)%nat)
  \/ (field (c_metadata co) "email_consent" = "no"
      /\ customer_email co = None
      /\ field (c_metadata co) "email" = "").

(** What holds of a session [create] asks for. *)
Definition validated (site : Site) (bi : Builtins) (body : gmap string string)
    (co : Checkout) : Prop :=
  exists latNum lonNum tileNum : Q,
    Number_ bi (asStr (field body "lat") 40) = Some latNum
    /\ Number_ bi (asStr (field body "lon") 40) = Some lonNum
    /\ Number_ bi (or_else (asStr (field body "tile_m") 12) "1") = Some tileNum
    /\ (Qabs latNum <= 90)%Q /\ (Qabs lonNum <= 180)%Q
    /\ (0 < tileNum)%Q /\ (tileNum <= 1000)%Q
    /\ price co = STRIPE_PRICE_ID site
    /\ field (c_metadata co) "lat" = Number_toFixed_string 6 latNum
    /\ field (c_metadata co) "lon" = Number_toFixed_string 6 lonNum
    /\ field (c_metadata co) "tile_m" = String_ bi tileNum
    /\ field (c_metadata co) "country" = or_else (asStr (field body "country") 80) "NZ"
    /\ field (c_metadata co) "mode" = or_else (asStr (field body "mode") 40) "publicish"
    /\ field (c_metadata co) "seed" = asStr (field body "seed") 120.

(** The answers of [create] and of the other blocks that refuse. *)
Definition refusal (r : Reply + string) : Prop :=
  exists (code : Z) (msg : string),
    r = inl (reply code [("error", VStr msg)]) /\ (code = 400 \/ code = 500)%Z.

(** The address [create] and [subscribe] read from the body, and whether
    the anti-bot list of [subscribe] catches it. *)
Definition email_of (body : gmap string string) : string :=
  asStr (field body "email") 120.



(** The action an event asks for. *)
Definition action_of (event : Event) : string :=
  asStr (or_else (field (queryStringParameters event) "action")
           (field (default ∅ (if String.eqb (httpMethod event) "POST"
                              then body event else Some ∅)) "action")) 20.

(** Builtins that agree with the language on the two strings an empty
    body leads to. *)
Definition reads_defaults (bi : Builtins) : Prop :=
  Number_ bi "" = Some 0%Q /\ Number_ bi "1" = Some 1%Q.

(** An example of builtins: [Number] knows the empty string and ["1"],
    and [String] prints integers. *)
Definition bi_small : Builtins :=
  {| Number_ := fun s => if String.eqb s "" then Some 0%Q
                         else if String.eqb s "1" then Some 1%Q else None;
     String_ := fun x => Number_toString (Qfloor x) |}.

Definition site_ok : Site :=
  {| STRIPE_PRICE_ID := "price_1"; SITE_URL := "https://example.com" |}.

Definition svc_ok : Service :=
  {| sessions_create := fun _ => Some "https://checkout.stripe.com/c/pay/cs_test_1";
     details := fun _ => {| created := 0; amount_total := None; currency := None |};
     second_send_works := true |}.

Definition no_backend : Backend :=
  {| store := {| sessions := ∅; intents := ∅; outbox := [] |}; checkouts := [] |}.

(** A request that opts in, the session [create] asks for on it, and a
    store in which that session has been paid. *)
Definition consenting_body : gmap string string :=
  <["email" := "pat@example.com"]> (<["email_consent" := "Yes"]> ∅).

Definition consenting_checkout : Checkout :=
  {| price := "price_1";
     success_url := "https://example.com/success.html?session_id={CHECKOUT_SESSION_ID}";
     cancel_url := "https://example.com/cancel.html";
     customer_email := Some "pat@example.com";
     c_metadata :=
       create_metadata "NZ" "publicish" "" "0.000000" "0.000000" "1"
         "pat@example.com" "yes" |}.

Definition consenting_store : Store :=
  {| sessions :=
       <["cs_test_2" := {| payment_status := "paid";
                           metadata := Some (c_metadata consenting_checkout);
                           payment_intent := Some "pi_2" |}]> ∅;
     intents := <["pi_2" := ∅]> ∅;
     outbox := [] |}.

Definition session_query : gmap string string := <["session_id" := "cs_test_2"]> ∅.






(** The session the first copy of [create] asks for carries what the
    session of the second copy carries. *)
Definition extends (co0 co : Checkout) : Prop :=
  price co = price co0 /\ success_url co = success_url co0
  /\ cancel_url co = cancel_url co0
  /\ customer_email co0 = None
  /\ forall k v, c_metadata co0 !! k = Some v -> c_metadata co !! k = Some v.


End Mailing.

(** ** Facts about the 32-bit primitives *)

Module JSFacts.
Import JS.

Lemma ToUint32_range z : 0 <= ToUint32 z < 4294967296.
Proof. unfold ToUint32. apply Z.mod_pos_bound. lia. Qed.

Lemma ToUint32_ToInt32 z : ToUint32 (ToInt32 z) = ToUint32 z.
Proof.
  unfold ToUint32, ToInt32.
  rewrite Zminus_mod, Zmod_mod, <- Zminus_mod.
  f_equal. lia.
Qed.

Lemma ToUint32_small z : 0 <= z < 4294967296 -> ToUint32 z = z.
Proof. intros H. unfold ToUint32. now apply Z.mod_small. Qed.

Lemma lxor_mod_pow2 a b n :
  0 <= n -> Z.lxor a b mod 2 ^ n = Z.lxor (a mod 2 ^ n) (b mod 2 ^ n).
Proof.
  intros Hn. apply Z.bits_inj'. intros m Hm.
  destruct (Z.lt_ge_cases m n) as [Hlt | Hge].
  - rewrite Z.mod_pow2_bits_low by lia.
    rewrite !Z.lxor_spec, !Z.mod_pow2_bits_low by lia. reflexivity.
  - rewrite Z.mod_pow2_bits_high by lia.
    rewrite Z.lxor_spec, !Z.mod_pow2_bits_high by lia. reflexivity.
Qed.

Lemma ToUint32_xor a b : ToUint32 (xor a b) = Z.lxor (ToUint32 a) (ToUint32 b).
Proof.
  unfold xor. rewrite ToUint32_ToInt32.
  unfold ToUint32. change 4294967296 with (2 ^ 32).
  rewrite lxor_mod_pow2 by lia.
  change (2 ^ 32) with 4294967296.
  fold (ToUint32 (ToInt32 a)). fold (ToUint32 (ToInt32 b)).
  now rewrite !ToUint32_ToInt32.
Qed.

Lemma lor_mod_pow2 a b n :
  0 <= n -> Z.lor a b mod 2 ^ n = Z.lor (a mod 2 ^ n) (b mod 2 ^ n).
Proof.
  intros Hn. apply Z.bits_inj'. intros m Hm.
  destruct (Z.lt_ge_cases m n) as [Hlt | Hge].
  - rewrite Z.mod_pow2_bits_low by lia.
    rewrite !Z.lor_spec, !Z.mod_pow2_bits_low by lia. reflexivity.
  - rewrite Z.mod_pow2_bits_high by lia.
    rewrite Z.lor_spec, !Z.mod_pow2_bits_high by lia. reflexivity.
Qed.

Lemma ToUint32_or a b : ToUint32 (or a b) = Z.lor (ToUint32 a) (ToUint32 b).
Proof.
  unfold or. rewrite ToUint32_ToInt32.
  unfold ToUint32. change 4294967296 with (2 ^ 32).
  rewrite lor_mod_pow2 by lia.
  change (2 ^ 32) with 4294967296.
  fold (ToUint32 (ToInt32 a)). fold (ToUint32 (ToInt32 b)).
  now rewrite !ToUint32_ToInt32.
Qed.

Lemma ToUint32_add a b :
  ToUint32 (a + b) = (ToUint32 a + ToUint32 b) mod 4294967296.
Proof. unfold ToUint32. apply Zplus_mod. Qed.

Lemma ToUint32_idem a : ToUint32 (ToUint32 a) = ToUint32 a.
Proof. unfold ToUint32. apply Zmod_mod. Qed.

Lemma ToUint32_lxor_small a b :
  0 <= a < 4294967296 -> 0 <= b < 4294967296 ->
  0 <= Z.lxor a b < 4294967296.
Proof.
  intros Ha Hb.
  rewrite <- (ToUint32_small a Ha), <- (ToUint32_small b Hb).
  unfold ToUint32. change 4294967296 with (2 ^ 32).
  rewrite <- lxor_mod_pow2 by lia. apply Z.mod_pos_bound. lia.
Qed.

Lemma ToUint32_imul a b :
  ToUint32 (imul a b) = (ToUint32 a * ToUint32 b) mod 4294967296.
Proof. unfold imul. now rewrite ToUint32_ToInt32. Qed.

Lemma ushr_0 a : ushr a 0 = ToUint32 a.
Proof. unfold ushr. now rewrite Z.shiftr_0_r. Qed.

Lemma charCode_range c : 0 <= charCode c < 256.
Proof.
  unfold charCode. pose proof (N_ascii_bounded c) as H.
  split; [apply N2Z.is_nonneg | ].
  change 256 with (Z.of_N 256). now apply N2Z.inj_lt.
Qed.

End JSFacts.

(** ** The source's hash is the specification's FNV-1a *)

Module RngFacts.
Import JS Rng JSFacts.

Lemma hash_step_unsigned h c :
  ToUint32 (imul (xor h (charCode c)) 16777619)
  = Spec.fnv1a_step (ToUint32 h) c.
Proof.
  rewrite ToUint32_imul, ToUint32_xor. unfold Spec.fnv1a_step.
  rewrite (ToUint32_small (charCode c)) by (pose proof (charCode_range c); lia).
  rewrite (ToUint32_small 16777619) by lia. reflexivity.
Qed.

Lemma hash_loop_unsigned str : forall h,
  ToUint32 (hash_loop h str)
  = fold_left Spec.fnv1a_step (list_ascii_of_string str) (ToUint32 h).
Proof.
  induction str as [| c rest IH]; intros h; simpl.
  - reflexivity.
  - rewrite IH, hash_step_unsigned. reflexivity.
Qed.

Lemma hashStrToSeed_fnv1a32 str : hashStrToSeed str = Spec.fnv1a32 str.
Proof.
  unfold hashStrToSeed, Spec.fnv1a32.
  rewrite ushr_0, hash_loop_unsigned, ushr_0. reflexivity.
Qed.

Lemma hashStrToSeed_range str : 0 <= hashStrToSeed str < 4294967296.
Proof. unfold hashStrToSeed. rewrite ushr_0. apply ToUint32_range. Qed.

(** Every draw is a numerator in [[0, 2^32)], and the captured [t] moves
    by the constant 0x6D2B79F5. *)
Lemma mulberry32_step_spec t0 :
  fst (mulberry32_step t0) = t0 + 1831565813
  /\ 0 <= snd (mulberry32_step t0) < 4294967296.
Proof.
  unfold mulberry32_step. cbv zeta. simpl fst. simpl snd.
  split; [reflexivity | ]. rewrite ushr_0. apply ToUint32_range.
Qed.

Lemma ushr_unsigned a n : ushr a n = Z.shiftr (ToUint32 a) n.
Proof. reflexivity. Qed.

(** The source's generator is the specification's: the captured [t],
    which the source never wraps, acts through its low 32 bits only. *)
Lemma mulberry32_step_refines t0 :
  ToUint32 (fst (mulberry32_step t0)) = fst (Spec.mulberry32_next (ToUint32 t0))
  /\ snd (mulberry32_step t0) = snd (Spec.mulberry32_next (ToUint32 t0)).
Proof.
  unfold mulberry32_step, Spec.mulberry32_next. cbv zeta. cbn [fst snd].
  change (2 ^ 32) with 4294967296.
  assert (T : ToUint32 (t0 + 1831565813)
              = (ToUint32 t0 + 1831565813) mod 4294967296).
  { rewrite ToUint32_add, (ToUint32_small 1831565813) by lia. reflexivity. }
  split; [exact T | ].
  set (t := t0 + 1831565813) in *.
  set (tu := (ToUint32 t0 + 1831565813) mod 4294967296) in *.
  assert (X : ToUint32 (imul (xor t (ushr t 15)) (or 1 t))
              = (Z.lxor tu (Z.shiftr tu 15) * Z.lor 1 tu) mod 4294967296).
  { rewrite ToUint32_imul, ToUint32_xor, ToUint32_or, ushr_unsigned, T.
    rewrite (ToUint32_small (Z.shiftr tu 15)).
    - rewrite (ToUint32_small 1) by lia. reflexivity.
    - pose proof (Z.mod_pos_bound (ToUint32 t0 + 1831565813) 4294967296 eq_refl) as B.
      fold tu in B. rewrite Z.shiftr_div_pow2 by lia.
      split; [apply Z.div_pos; lia | ].
      apply Z.le_lt_trans with tu; [ | lia].
      apply Z.div_le_upper_bound; [lia | ]. nia. }
  set (x := imul (xor t (ushr t 15)) (or 1 t)) in *.
  set (xu := (Z.lxor tu (Z.shiftr tu 15) * Z.lor 1 tu) mod 4294967296) in *.
  assert (Bx : 0 <= xu < 4294967296) by (subst xu; apply Z.mod_pos_bound; lia).
  assert (Sx : forall n, 0 <= n -> 0 <= Z.shiftr xu n < 4294967296).
  { intros n Hn. rewrite Z.shiftr_div_pow2 by lia.
    assert (0 < 2 ^ n) by (apply Z.pow_pos_nonneg; lia).
    split; [apply Z.div_pos; lia | ].
    apply Z.le_lt_trans with xu; [ | lia].
    apply Z.div_le_upper_bound; [lia | ]. nia. }
  assert (Y : ToUint32 (imul (xor x (ushr x 7)) (or 61 x))
              = (Z.lxor xu (Z.shiftr xu 7) * Z.lor 61 xu) mod 4294967296).
  { rewrite ToUint32_imul, ToUint32_xor, ToUint32_or, ushr_unsigned, X.
    rewrite (ToUint32_small (Z.shiftr xu 7)) by (apply Sx; lia).
    rewrite (ToUint32_small 61) by lia. reflexivity. }
  set (y := imul (xor x (ushr x 7)) (or 61 x)) in *.
  set (yu := (Z.lxor xu (Z.shiftr xu 7) * Z.lor 61 xu) mod 4294967296) in *.
  assert (X2 : ToUint32 (xor x (x + y)) = Z.lxor xu ((xu + yu) mod 4294967296)).
  { rewrite ToUint32_xor, ToUint32_add, X, Y. reflexivity. }
  set (x2 := xor x (x + y)) in *.
  set (x2u := Z.lxor xu ((xu + yu) mod 4294967296)) in *.
  assert (Bx2 : 0 <= x2u < 4294967296).
  { subst x2u. apply ToUint32_lxor_small; [exact Bx | ].
    apply Z.mod_pos_bound. lia. }
  rewrite ushr_0, ToUint32_xor, ushr_unsigned, X2.
  rewrite (ToUint32_small (Z.shiftr x2u 14)); [reflexivity | ].
  rewrite Z.shiftr_div_pow2 by lia.
  split; [apply Z.div_pos; lia | ].
  apply Z.le_lt_trans with x2u; [ | lia].
  apply Z.div_le_upper_bound; [lia | ]. nia.
Qed.

(** The two draws of the source from a seed, and the state of its
    closure afterwards. *)
Lemma two_steps s :
  0 <= s < 4294967296 ->
  snd (mulberry32_step s) = fst (Spec.two_draws s)
  /\ snd (mulberry32_step (fst (mulberry32_step s))) = snd (Spec.two_draws s)
  /\ fst (mulberry32_step (fst (mulberry32_step s))) = s + 2 * 1831565813.
Proof.
  intros Hs.
  destruct (mulberry32_step_refines s) as [F1 S1].
  destruct (mulberry32_step_refines (fst (mulberry32_step s))) as [_ S2].
  destruct (mulberry32_step_spec s) as [E1 _].
  destruct (mulberry32_step_spec (fst (mulberry32_step s))) as [E2 _].
  rewrite (ToUint32_small s Hs) in F1, S1.
  unfold Spec.two_draws.
  rewrite F1 in S2.
  destruct (Spec.mulberry32_next s) as [s1 k1]. cbn [fst snd] in *.
  destruct (Spec.mulberry32_next s1) as [s2 k2]. cbn [fst snd] in *.
  repeat split; try assumption. lia.
Qed.

Lemma two_draws_range s :
  0 <= s < 4294967296 ->
  0 <= fst (Spec.two_draws s) < 4294967296
  /\ 0 <= snd (Spec.two_draws s) < 4294967296.
Proof.
  intros Hs. destruct (two_steps s Hs) as (<- & <- & _).
  split; apply mulberry32_step_spec.
Qed.

End RngFacts.

(** ** Running the point generators *)

Module RollFacts.
Import JS Rng Run Geo Derived JSFacts RngFacts.
Local Open Scope string_scope.

Lemma call_fresh (h : list Z) (t0 : Z) (w : World) :
  call (length h) (set_heap (h ++ [t0]) w)
  = (Ret (snd (mulberry32_step t0) # 4294967296),
     set_heap (h ++ [fst (mulberry32_step t0)]) w).
Proof.
  unfold call. cbn [heap set_heap].
  rewrite list_lookup_middle by reflexivity.
  destruct (mulberry32_step t0) as [t k]. cbn [fst snd].
  rewrite insert_app_r_alt by lia.
  rewrite Nat.sub_diag. reflexivity.
Qed.

Lemma mulberry32_run (s : Z) (w : World) :
  mulberry32 s w = (Ret (length (heap w)), set_heap (heap w ++ [ushr s 0]) w).
Proof. reflexivity. Qed.

Lemma two_calls_run (w : World) (k : Q -> Q -> Spot) s :
  0 <= s < 4294967296 ->
  (rng <- mulberry32 s ;; x <- call rng ;; y <- call rng ;; ret (k x y)) w
  = (Ret (k (fst (Spec.two_draws s) # 4294967296)
            (snd (Spec.two_draws s) # 4294967296)),
     set_heap (heap w ++ [s + 2 * 1831565813]) w).
Proof.
  intros Hs. unfold bind at 1. rewrite mulberry32_run.
  rewrite ushr_0, ToUint32_small by exact Hs.
  unfold bind at 1. rewrite call_fresh.
  unfold bind at 1. rewrite call_fresh.
  destruct (two_steps s Hs) as (-> & -> & ->).
  unfold ret. destruct w; reflexivity.
Qed.

Lemma V2_rollSpot_run c m u a w :
  V2.rollSpot c m u a w = (Ret (rolled None c m u a), after_two_draws c m u a w).
Proof.
  unfold V2.rollSpot. cbv zeta.
  fold (Spec.request_string c m u a).
  set (s := hashStrToSeed (Spec.request_string c m u a)).
  rewrite (two_calls_run w
             (fun x y => {| brand := None; country := name (boundsFor c);
                            countryCode := c; mode := m;
                            lat := Number_toFixed 6
                                     (latMin (boundsFor c) + x * (latMax (boundsFor c) - latMin (boundsFor c)))%Q;
                            lon := Number_toFixed 6
                                     (lonMin (boundsFor c) + y * (lonMax (boundsFor c) - lonMin (boundsFor c)))%Q;
                            seed := c ++ "-" ++ m ++ "-" ++ Number_toString16 s;
                            rerolls := a |}) s (hashStrToSeed_range _)).
  unfold rolled, after_two_draws. fold s.
  destruct (Spec.two_draws s) as [k1 k2]. reflexivity.
Qed.

Lemma V3_rollCenter_run c m u a w :
  V3.rollCenter c m u a w
  = (Ret (rolled (Some V3.BRAND) c m u a), after_two_draws c m u a w).
Proof.
  unfold V3.rollCenter. cbv zeta.
  fold (Spec.request_string c m u a).
  set (s := hashStrToSeed (Spec.request_string c m u a)).
  rewrite (two_calls_run w
             (fun x y => {| brand := Some V3.BRAND; country := name (boundsFor c);
                            countryCode := c; mode := m;
                            lat := Number_toFixed 6
                                     (latMin (boundsFor c) + x * (latMax (boundsFor c) - latMin (boundsFor c)))%Q;
                            lon := Number_toFixed 6
                                     (lonMin (boundsFor c) + y * (lonMax (boundsFor c) - lonMin (boundsFor c)))%Q;
                            seed := c ++ "-" ++ m ++ "-" ++ Number_toString16 s;
                            rerolls := a |}) s (hashStrToSeed_range _)).
  unfold rolled, after_two_draws. fold s.
  destruct (Spec.two_draws s) as [k1 k2]. reflexivity.
Qed.

End RollFacts.

(** ** Rounding to a fixed number of decimals *)

Module RoundFacts.
Import JS.
Local Open Scope Q_scope.

Lemma pow10_pos d : (0 < 10 ^ Z.of_nat d)%Z.
Proof. apply Z.pow_pos_nonneg; lia. Qed.

Lemma scale_pos d : 0 < inject_Z (10 ^ Z.of_nat d).
Proof.
  change 0 with (inject_Z 0). rewrite <- Zlt_Qlt. apply pow10_pos.
Qed.

Lemma Qfloor_half_ge (y : Q) (a : Z) : inject_Z a <= y -> (a <= Qfloor (y + (1 # 2)))%Z.
Proof.
  intros H. rewrite <- (Qfloor_Z a). apply Qfloor_resp_le. lra.
Qed.

Lemma Qfloor_half_le (y : Q) (b : Z) : y <= inject_Z b -> (Qfloor (y + (1 # 2)) <= b)%Z.
Proof.
  intros H.
  assert (Hlt : inject_Z (Qfloor (y + (1 # 2))) < inject_Z (b + 1)).
  { apply Qle_lt_trans with (y + (1 # 2)).
    - apply Qfloor_le.
    - rewrite inject_Z_plus. change (inject_Z 1) with 1. lra. }
  rewrite <- Zlt_Qlt in Hlt. lia.
Qed.

(** Rounding never leaves an interval whose ends are themselves decimals
    of [d] places. *)
Lemma toFixed_units_within d x (a b : Z) :
  inject_Z a <= x * inject_Z (10 ^ Z.of_nat d) <= inject_Z b ->
  (a <= toFixed_units d x <= b)%Z.
Proof.
  intros [Ha Hb]. unfold toFixed_units.
  destruct (Qlt_le_dec x 0) as [Hneg | Hpos].
  - assert (H1 : inject_Z (- b) <= - x * inject_Z (10 ^ Z.of_nat d)).
    { rewrite inject_Z_opp. lra. }
    assert (H2 : - x * inject_Z (10 ^ Z.of_nat d) <= inject_Z (- a)).
    { rewrite inject_Z_opp. lra. }
    apply Qfloor_half_ge in H1. apply Qfloor_half_le in H2. lia.
  - split; [now apply Qfloor_half_ge | now apply Qfloor_half_le].
Qed.

Lemma div_le_mul a p x : 0 < p -> a / p <= x -> a <= x * p.
Proof.
  intros Hp H.
  assert (E : a == (a / p) * p) by (field; lra).
  rewrite E. apply Qmult_le_compat_r; lra.
Qed.

Lemma le_div_mul b p x : 0 < p -> x <= b / p -> x * p <= b.
Proof.
  intros Hp H.
  assert (E : b == (b / p) * p) by (field; lra).
  rewrite E. apply Qmult_le_compat_r; lra.
Qed.

Lemma div_le_div a b p : 0 < p -> a <= b -> a / p <= b / p.
Proof.
  intros Hp H. unfold Qdiv. apply Qmult_le_compat_r; [exact H | ].
  apply Qlt_le_weak, Qinv_lt_0_compat, Hp.
Qed.

Lemma Number_toFixed_within d x (a b : Z) :
  inject_Z a / inject_Z (10 ^ Z.of_nat d) <= x ->
  x <= inject_Z b / inject_Z (10 ^ Z.of_nat d) ->
  inject_Z a / inject_Z (10 ^ Z.of_nat d) <= Number_toFixed d x
  /\ Number_toFixed d x <= inject_Z b / inject_Z (10 ^ Z.of_nat d).
Proof.
  intros Ha Hb. pose proof (scale_pos d) as Hs.
  assert (H : (a <= toFixed_units d x <= b)%Z).
  { apply toFixed_units_within. split.
    - now apply div_le_mul.
    - now apply le_div_mul. }
  unfold Number_toFixed. destruct (Qlt_le_dec _ _); [ | auto].
  destruct H as [H1 H2]. rewrite Zle_Qle in H1, H2.
  split; apply div_le_div; assumption.
Qed.

End RoundFacts.

(** ** The country table *)

Module GeoFacts.
Import JS Geo Invariants RoundFacts.
Local Open Scope Q_scope.

Lemma COUNTRY_BOUNDS_cases (c : string) (b : Bounds) :
  COUNTRY_BOUNDS !! c = Some b ->
  b = NZ \/ b = AU \/ b = US \/ b = GB \/ b = JP.
Proof.
  intros H. apply elem_of_list_to_map_2 in H.
  unfold COUNTRY_BOUNDS_entries in H.
  repeat (apply elem_of_cons in H as [H | H]; [inversion H; subst; tauto | ]).
  inversion H.
Qed.

Ltac six a := exists a; vm_compute; reflexivity.

(** The invariant of the data model: every rectangle is non-empty, lies in
    the valid global ranges, and its sides are decimals. *)
Lemma COUNTRY_BOUNDS_well_formed (c : string) (b : Bounds) :
  COUNTRY_BOUNDS !! c = Some b -> well_formed b.
Proof.
  intros H. apply COUNTRY_BOUNDS_cases in H.
  unfold well_formed.
  destruct H as [-> | [-> | [-> | [-> | ->]]]]; cbn [latMin latMax lonMin lonMax NZ AU US GB JP].
  - repeat split; try lra;
      [six (-47500000)%Z | six (-34000000)%Z | six 166000000%Z | six 179800000%Z].
  - repeat split; try lra;
      [six (-43800000)%Z | six (-10000000)%Z | six 112000000%Z | six 154000000%Z].
  - repeat split; try lra;
      [six 24500000%Z | six 49500000%Z | six (-125000000)%Z | six (-66500000)%Z].
  - repeat split; try lra;
      [six 49800000%Z | six 59000000%Z | six (-8600000)%Z | six 1800000%Z].
  - repeat split; try lra;
      [six 30000000%Z | six 45800000%Z | six 129000000%Z | six 145800000%Z].
Qed.

Lemma boundsFor_known (c : string) (b : Bounds) :
  COUNTRY_BOUNDS !! c = Some b -> boundsFor c = b.
Proof. intros H. unfold boundsFor. now rewrite H. Qed.


Lemma draw_unit (k : Z) :
  (0 <= k < 4294967296)%Z -> 0 <= k # 4294967296 /\ k # 4294967296 < 1.
Proof.
  intros [H0 H1]. unfold Qle, Qlt. cbn [Qnum Qden]. lia.
Qed.

(** A draw mapped into [[lo, hi]] and rounded stays in [[lo, hi]]. *)
Lemma into_range_within (lo hi : Q) (k : Z) :
  six_decimals lo -> six_decimals hi -> lo <= hi ->
  (0 <= k < 4294967296)%Z ->
  lo <= Spec.into_range lo hi k /\ Spec.into_range lo hi k <= hi.
Proof.
  intros [a Ha] [b Hb] Hle Hk.
  destruct (draw_unit k Hk) as [Hu0 Hu1].
  unfold Spec.into_range. set (u := k # 4294967296) in *.
  assert (H0 : 0 <= u * (hi - lo)) by (apply Qmult_le_0_compat; lra).
  assert (H1 : u * (hi - lo) <= 1 * (hi - lo)) by (apply Qmult_le_compat_r; lra).
  destruct (Number_toFixed_within 6 (lo + u * (hi - lo)) a b) as [L H].
  - rewrite <- Ha. lra.
  - rewrite <- Hb. lra.
  - split.
    + apply Qle_trans with (inject_Z a / inject_Z (10 ^ Z.of_nat 6)); [ | exact L].
      rewrite Ha. apply Qle_refl.
    + apply Qle_trans with (inject_Z b / inject_Z (10 ^ Z.of_nat 6)); [exact H | ].
      rewrite Hb. apply Qle_refl.
Qed.

End GeoFacts.

(** ** The point generator: determinism, containment, derivation *)

Module PointFacts.
Import JS Rng Run Geo Derived Invariants Props JSFacts RngFacts RollFacts GeoFacts.
Local Open Scope string_scope.

Lemma rolled_inside br c b m u a :
  COUNTRY_BOUNDS !! c = Some b -> inside b (rolled br c m u a).
Proof.
  intros H. pose proof (COUNTRY_BOUNDS_well_formed c b H) as W.
  destruct W as (S1 & S2 & S3 & S4 & Hlat & Hlon & _).
  unfold inside, rolled. rewrite (boundsFor_known c b H). cbv zeta.
  set (s := hashStrToSeed (Spec.request_string c m u a)).
  pose proof (hashStrToSeed_range (Spec.request_string c m u a)) as Hs. fold s in Hs.
  destruct (two_draws_range s Hs) as [K1 K2].
  destruct (Spec.two_draws s) as [k1 k2]. cbn [fst snd] in K1, K2.
  cbn [lat lon].
  destruct (into_range_within (latMin b) (latMax b) k1 S1 S2) as [A B];
    [apply Qlt_le_weak, Hlat | exact K1 | ].
  destruct (into_range_within (lonMin b) (lonMax b) k2 S3 S4) as [C D];
    [apply Qlt_le_weak, Hlon | exact K2 | ].
  repeat split; assumption.
Qed.

Lemma rolled_follows br c m u a :
  lat (rolled br c m u a) = fst (Spec.derivePoint (boundsFor c) c m u a)
  /\ lon (rolled br c m u a) = snd (Spec.derivePoint (boundsFor c) c m u a)
  /\ seed (rolled br c m u a) = Spec.seedLabel c m u a.
Proof.
  unfold rolled, Spec.derivePoint, Spec.seedLabel. cbv zeta.
  rewrite hashStrToSeed_fnv1a32.
  destruct (Spec.two_draws _) as [k1 k2]. cbn. auto.
Qed.

Lemma V1_rollSpot_run c m u a w :
  String.eqb m "publicish" = false ->
  V1.rollSpot c m u a w = (Ret (rolled None c m u a), after_two_draws c m u a w).
Proof.
  intros Hm. unfold V1.rollSpot. cbv zeta.
  fold (Spec.request_string c m u a).
  set (s := hashStrToSeed (Spec.request_string c m u a)).
  rewrite Hm. cbn [V1.roll_loop]. rewrite Hm. cbn [negb].
  pose proof (hashStrToSeed_range (Spec.request_string c m u a)) as Hs. fold s in Hs.
  unfold bind at 1. rewrite mulberry32_run, ushr_0, ToUint32_small by exact Hs.
  unfold bind at 1. unfold bind at 1. rewrite call_fresh.
  unfold bind at 1. rewrite call_fresh.
  unfold rolled, after_two_draws. fold s.
  destruct (two_steps s Hs) as (-> & -> & ->).
  unfold ret. destruct (Spec.two_draws s) as [k1 k2]. cbn [fst snd].
  destruct w; reflexivity.
Qed.


End PointFacts.

(** ** Seed labels *)

Module LabelFacts.
Import JS.
Local Open Scope string_scope.

Lemma chars_app (s1 s2 : string) :
  list_ascii_of_string (s1 ++ s2)
  = (list_ascii_of_string s1 ++ list_ascii_of_string s2)%list.
Proof.
  induction s1 as [| c r IH]; simpl; [reflexivity | now rewrite IH].
Qed.

Lemma chars_inj (s1 s2 : string) :
  list_ascii_of_string s1 = list_ascii_of_string s2 -> s1 = s2.
Proof.
  intros H. rewrite <- (string_of_list_ascii_of_string s1),
    <- (string_of_list_ascii_of_string s2). now rewrite H.
Qed.

(** Hexadecimal digits are never the separator. *)
Lemma hex_no_dash (d : Hexadecimal.uint) :
  Forall (fun ch => ch <> "-"%char)
    (list_ascii_of_string (HexadecimalString.NilZero.string_of_uint d)).
Proof.
  assert (H : forall d, Forall (fun ch => ch <> "-"%char)
                (list_ascii_of_string (HexadecimalString.NilEmpty.string_of_uint d))).
  { induction d0; simpl; constructor; try discriminate; assumption. }
  destruct d; try apply H.
  simpl. constructor; [discriminate | constructor].
Qed.

Lemma toString16_no_dash (n : Z) :
  Forall (fun ch => ch <> "-"%char) (list_ascii_of_string (Number_toString16 n)).
Proof. apply hex_no_dash. Qed.

(** Two texts cut at their last separator have the same parts. *)
Lemma cut_at_last (d : ascii) (a1 a2 x1 x2 : list ascii) :
  Forall (fun ch => ch <> d) x1 -> Forall (fun ch => ch <> d) x2 ->
  (a1 ++ d :: x1 = a2 ++ d :: x2)%list -> a1 = a2 /\ x1 = x2.
Proof.
  intros H1 H2. revert a2.
  induction a1 as [| y a1 IH]; intros [| z a2] E; simpl in E.
  - inversion E. auto.
  - injection E as Ed Ex. rewrite Ex in H1.
    rewrite Forall_forall in H1. exfalso.
    apply (H1 d); [ | reflexivity].
    apply elem_of_app. right. apply elem_of_cons. now left.
  - injection E as Ed Ex. rewrite <- Ex in H2.
    rewrite Forall_forall in H2. exfalso.
    apply (H2 d); [ | reflexivity].
    apply elem_of_app. right. apply elem_of_cons. now left.
  - inversion E as [[Ey Er]]. destruct (IH a2 Er) as [-> ->]. auto.
Qed.

Lemma label_chars (c m x : string) :
  list_ascii_of_string (c ++ "-" ++ m ++ "-" ++ x)
  = ((list_ascii_of_string c ++ "-"%char :: list_ascii_of_string m)
     ++ "-"%char :: list_ascii_of_string x)%list.
Proof.
  rewrite !chars_app. cbn [list_ascii_of_string].
  rewrite <- !app_assoc. reflexivity.
Qed.


End LabelFacts.

(** ** The first frontend's generator, any mode *)

Module V1Facts.
Import JS Rng Run Geo Derived Invariants Props JSFacts RngFacts RollFacts GeoFacts.
Local Open Scope string_scope.


Lemma drawn_rounded_inside (b : Bounds) (p : Q * Q) :
  well_formed b -> drawn b p ->
  (latMin b <= Number_toFixed 6 (fst p) /\ Number_toFixed 6 (fst p) <= latMax b
   /\ lonMin b <= Number_toFixed 6 (snd p)
   /\ Number_toFixed 6 (snd p) <= lonMax b)%Q.
Proof.
  intros (S1 & S2 & S3 & S4 & Hlat & Hlon & _) (k1 & k2 & K1 & K2 & ->).
  cbn [fst snd].
  destruct (into_range_within (latMin b) (latMax b) k1 S1 S2) as [A B];
    [apply Qlt_le_weak, Hlat | exact K1 | ].
  destruct (into_range_within (lonMin b) (lonMax b) k2 S3 S4) as [C D];
    [apply Qlt_le_weak, Hlon | exact K2 | ].
  unfold Spec.into_range in *. auto.
Qed.


End V1Facts.

(** ** One iteration of the orchestrators *)

Module StepFacts.
Import JS Rng Run Geo Derived Invariants Props JSFacts RngFacts RollFacts.
Local Open Scope string_scope.
Local Open Scope Z_scope.

Lemma fetch_run {A} (svc : nat -> Request -> Outcome A) req msg w :
  fetch svc req msg w
  = match svc (length (requests w)) req with
    | Replied a => (Ret a, sent req w)
    | Failed f => (Throw (thrown f msg), sent req w)
    end.
Proof. reflexivity. Qed.

Lemma after_two_draws_requests c m u i w :
  requests (after_two_draws c m u i w) = requests w.
Proof. reflexivity. Qed.

Lemma V2_reverseCheck_run env lat lon w :
  V2.reverseCheck env lat lon w
  = match nominatim env (length (requests w)) (ReqNominatim 10 0 lat lon) with
    | Replied d => (Ret (V2.judge d), sent (ReqNominatim 10 0 lat lon) w)
    | Failed f =>
        (Throw (thrown f "Reverse lookup failed"), sent (ReqNominatim 10 0 lat lon) w)
    end.
Proof.
  unfold V2.reverseCheck, bind. rewrite fetch_run.
  destruct (nominatim env _ _); reflexivity.
Qed.

(** One iteration of the loop of [rollUntilLikelyLand], by what the
    reverse lookup of that attempt does. *)
Lemma V2_attempts_step env c m u n i spot check w :
  let s := rolled None c m u i in
  let req := ReqNominatim 10 0 (lat s) (lon s) in
  let w' := sent req (after_two_draws c m u i w) in
  V2.attempts env c m u (S n) i spot check w
  = match nominatim env (length (requests w)) req with
    | Replied d =>
        if negb (String.eqb m "publicish") || V2.ok (V2.judge d)
        then (Ret (Some s, Some (V2.judge d)), w')
        else V2.attempts env c m u n (i + 1) (Some s) (Some (V2.judge d)) w'
    | Failed _ =>
        if 3 <=? i
        then (Ret (Some s, Some V2.lookup_unavailable), w')
        else V2.attempts env c m u n (i + 1) (Some s) check w'
    end.
Proof.
  intros s req w'. cbn [V2.attempts].
  unfold bind, try_catch. rewrite V2_rollSpot_run. fold s.
  rewrite V2_reverseCheck_run, after_two_draws_requests.
  fold req. fold w'.
  destruct (nominatim env (length (requests w)) req) as [d | e].
  - destruct (negb (String.eqb m "publicish")); cbn [orb]; [reflexivity | ].
    destruct (V2.ok (V2.judge d)); reflexivity.
  - destruct (3 <=? i); reflexivity.
Qed.

Lemma V3_reverseCheckNominatim_run env lat lon w :
  V3.reverseCheckNominatim env lat lon w
  = match nominatim env (length (requests w)) (ReqNominatim 18 1 lat lon) with
    | Replied d => (Ret (V3.judge d), sent (ReqNominatim 18 1 lat lon) w)
    | Failed f =>
        (Throw (thrown f "Nominatim reverse failed"),
         sent (ReqNominatim 18 1 lat lon) w)
    end.
Proof.
  unfold V3.reverseCheckNominatim, bind. rewrite fetch_run.
  destruct (nominatim env _ _); reflexivity.
Qed.

(** The check of one attempt, by what the two services do. *)
Lemma checked_cases env m lat lon w :
  let rq := ReqNominatim 18 1 lat lon in
  let ro := ReqOverpass 3000 lat lon in
  checked env m lat lon w
  = match nominatim env (length (requests w)) rq with
    | Failed f => (check_error m (thrown f "Nominatim reverse failed"), sent rq w)
    | Replied d =>
        let nom := V3.judge d in
        let mk := fun ok level roads =>
          {| V3.ok := ok; V3.level := level; V3.place := V3.n_place nom;
             V3.nom := Some nom; V3.roads := roads; V3.error := None;
             V3.note := None |} in
        if negb (String.eqb m "publicish") then (mk true "lite" None, sent rq w)
        else if negb (V3.n_ok nom) then (mk false "nominatim" None, sent rq w)
        else
          match overpass env (length (requests (sent rq w))) ro with
          | Replied elements =>
              let roads := V3.RoadsFound (0 <? default 0 elements)
                             (default 0 elements) 3000 in
              if 0 <? default 0 elements
              then (mk true "strong" (Some roads), sent ro (sent rq w))
              else (mk false "overpass" (Some roads), sent ro (sent rq w))
          | Failed f =>
              (mk (V3.n_ok nom) "fallback"
                 (Some (V3.RoadsError (thrown f "Overpass failed"))),
               sent ro (sent rq w))
          end
    end.
Proof.
  intros rq ro. unfold checked, V3.strongLandCheck.
  unfold bind at 1. rewrite V3_reverseCheckNominatim_run. fold rq.
  destruct (nominatim env (length (requests w)) rq) as [d | e]; [ | reflexivity].
  destruct (negb (String.eqb m "publicish")); [reflexivity | ].
  destruct (negb (V3.n_ok (V3.judge d))); [reflexivity | ].
  unfold try_catch, V3.overpassHasHighwayNearby, bind.
  change (default 3000 (Some 3000)) with 3000.
  rewrite fetch_run. fold ro.
  destruct (overpass env (length (requests (sent rq w))) ro) as [els | e];
    [ | reflexivity].
  cbn [V3.roads_ok]. destruct (0 <? default 0 els); reflexivity.
Qed.

(** One iteration of the loop of [rollUntilGood]. *)
Lemma V3_attempts_step env c m t u n i best w :
  let s := rolled (Some V3.BRAND) c m u i in
  let ck := checked env m (lat s) (lon s) (after_two_draws c m u i w) in
  let spot := {| V3.point := s;
                 V3.tile := V3.makeTileFromCenter (Math_cos env) (lat s) (lon s) t;
                 V3.check := fst ck |} in
  V3.attempts env c m t u (S n) i best w
  = if negb (String.eqb m "publicish") || V3.ok (fst ck)
    then (Ret (inl spot), snd ck)
    else V3.attempts env c m t u n (i + 1) (Some spot) (snd ck).
Proof.
  intros s ck spot. cbn [V3.attempts].
  unfold bind at 1. rewrite V3_rollCenter_run. fold s.
  unfold bind at 1. unfold try_catch.
  subst spot ck. unfold checked.
  destruct (V3.strongLandCheck env (lat s) (lon s) m (after_two_draws c m u i w))
    as [[ck | e] w1]; cbn [fst snd].
  - unfold ret at 1.
    destruct (negb (String.eqb m "publicish")); cbn [orb]; [reflexivity | ].
    destruct (V3.ok ck); reflexivity.
  - unfold ret at 1. unfold check_error. cbn [V3.ok].
    destruct (negb (String.eqb m "publicish")); cbn [orb]; reflexivity.
Qed.

End StepFacts.

(** ** The loops as a whole *)

Module LoopFacts.
Import JS Rng Run Geo Derived Invariants Props JSFacts RngFacts RollFacts StepFacts.
Local Open Scope string_scope.
Local Open Scope Z_scope.

Lemma sent_shape req w :
  heap (sent req w) = heap w /\ uuids (sent req w) = uuids w
  /\ length (requests (sent req w)) = S (length (requests w)).
Proof.
  unfold sent. cbn [heap uuids requests set_requests].
  rewrite length_app. cbn [length]. repeat split; lia.
Qed.

Lemma after_two_draws_shape c m u i w :
  length (heap (after_two_draws c m u i w)) = S (length (heap w))
  /\ uuids (after_two_draws c m u i w) = uuids w
  /\ requests (after_two_draws c m u i w) = requests w.
Proof.
  unfold after_two_draws. cbn [heap uuids requests set_heap].
  rewrite length_app. cbn [length]. repeat split; lia.
Qed.

(** [rollUntilLikelyLand]'s loop never throws; it makes [k <= n]
    derivations, one lookup each, and returns the last spot derived. *)
Lemma V2_attempts_run env c m u :
  forall (n : nat) (i : Z) (spot : option Spot) (check : option V2.Check)
         (w : World),
  exists (k : nat) (check' : option V2.Check) (w' : World),
    V2.attempts env c m u n i spot check w
    = (Ret (held None c m u i k spot, check'), w')
    /\ (k <= n)%nat
    /\ length (heap w') = (length (heap w) + k)%nat
    /\ length (requests w') = (length (requests w) + k)%nat
    /\ uuids w' = uuids w.
Proof.
  induction n as [| n IH]; intros i spot check w.
  - exists O, check, w. cbn. repeat split; lia.
  - rewrite V2_attempts_step.
    set (s := rolled None c m u i).
    set (w1 := sent _ (after_two_draws c m u i w)).
    assert (Hw1 : length (heap w1) = S (length (heap w))
                  /\ length (requests w1) = S (length (requests w))
                  /\ uuids w1 = uuids w).
    { subst w1.
      destruct (sent_shape (ReqNominatim 10 0 (lat s) (lon s))
                  (after_two_draws c m u i w)) as (-> & -> & ->).
      destruct (after_two_draws_shape c m u i w) as (-> & -> & ->). auto. }
    destruct Hw1 as (Hh & Hr & Hu).
    assert (Stop : forall ck, exists (k : nat) (check' : option V2.Check) (w' : World),
               (Ret (Some s, ck), w1) = (Ret (held None c m u i k spot, check'), w')
               /\ (k <= S n)%nat
               /\ length (heap w') = (length (heap w) + k)%nat
               /\ length (requests w') = (length (requests w) + k)%nat
               /\ uuids w' = uuids w).
    { intros ck. exists 1%nat, ck, w1. cbn [held].
      replace (i + Z.of_nat 1 - 1) with i by lia.
      repeat split; lia. }
    assert (Go : forall ck, exists (k : nat) (check' : option V2.Check) (w' : World),
               V2.attempts env c m u n (i + 1) (Some s) ck w1
               = (Ret (held None c m u i k spot, check'), w')
               /\ (k <= S n)%nat
               /\ length (heap w') = (length (heap w) + k)%nat
               /\ length (requests w') = (length (requests w) + k)%nat
               /\ uuids w' = uuids w).
    { intros ck. destruct (IH (i + 1) (Some s) ck w1) as (k & ck' & w' & E & Hk & A & B & C).
      exists (S k), ck', w'. rewrite E. split.
      - destruct k as [| k]; cbn [held].
        + subst s. replace (i + Z.of_nat 1 - 1) with i by lia. reflexivity.
        + replace (i + 1 + Z.of_nat (S k) - 1) with (i + Z.of_nat (S (S k)) - 1) by lia.
          reflexivity.
      - repeat split; try lia; congruence. }
    destruct (nominatim env _ _) as [d | e].
    + destruct (negb (String.eqb m "publicish") || V2.ok (V2.judge d)).
      * apply Stop.
      * apply Go.
    + destruct (3 <=? i); [apply Stop | apply Go].
Qed.

Lemma checked_shape env m lat lon w :
  heap (snd (checked env m lat lon w)) = heap w
  /\ uuids (snd (checked env m lat lon w)) = uuids w
  /\ (length (requests w) + 1 <= length (requests (snd (checked env m lat lon w)))
      <= length (requests w) + 2)%nat.
Proof.
  rewrite checked_cases. cbv zeta.
  set (rq := ReqNominatim 18 1 lat lon). set (ro := ReqOverpass 3000 lat lon).
  pose proof (sent_shape rq w) as (A1 & A2 & A3).
  pose proof (sent_shape ro (sent rq w)) as (B1 & B2 & B3).
  destruct (nominatim env _ _) as [d | e]; cbn [snd].
  2: { rewrite A1, A2, A3. repeat split; lia. }
  destruct (negb (String.eqb m "publicish")); cbn [snd].
  { rewrite A1, A2, A3. repeat split; lia. }
  destruct (negb (V3.n_ok (V3.judge d))); cbn [snd].
  { rewrite A1, A2, A3. repeat split; lia. }
  destruct (overpass env _ _) as [els | e]; [destruct (0 <? default 0 els) | ];
    cbn [snd]; rewrite B1, B2, B3, A1, A2, A3; repeat split; lia.
Qed.

(** [rollUntilGood]'s loop never throws; it makes [k <= n] derivations
    and between [k] and [2 k] calls; it returns early only with an
    accepted spot, the one just derived, and otherwise leaves with the
    last spot derived, which was rejected. *)
Lemma V3_attempts_run env c m t u :
  forall (n : nat) (i : Z) (best : option V3.TileSpot) (w : World),
  exists (k : nat) (r : V3.TileSpot + option V3.TileSpot) (w' : World),
    V3.attempts env c m t u n i best w = (Ret r, w')
    /\ (k <= n)%nat
    /\ length (heap w') = (length (heap w) + k)%nat
    /\ uuids w' = uuids w
    /\ (length (requests w) + k <= length (requests w')
        <= length (requests w) + 2 * k)%nat
    /\ match r with
       | inl spot =>
           (1 <= k)%nat
           /\ V3.ok (V3.check spot) = true
           /\ spot = tiled env c m t u (i + Z.of_nat k - 1) (V3.check spot)
       | inr b =>
           k = n
           /\ match n with
              | O => b = best
              | S _ => exists spot,
                  b = Some spot
                  /\ V3.ok (V3.check spot) = false
                  /\ spot = tiled env c m t u (i + Z.of_nat n - 1) (V3.check spot)
              end
       end.
Proof.
  induction n as [| n IH]; intros i best w.
  - exists O, (inr best), w. cbn. repeat split; lia.
  - rewrite V3_attempts_step. cbv zeta.
    set (s := rolled (Some V3.BRAND) c m u i).
    set (w0 := after_two_draws c m u i w).
    destruct (after_two_draws_shape c m u i w) as (H1 & H2 & H3). fold w0 in H1, H2, H3.
    destruct (checked_shape env m (lat s) (lon s) w0) as (C1 & C2 & C3).
    set (ck := checked env m (lat s) (lon s) w0) in *.
    set (spot := {| V3.point := s; V3.tile := _; V3.check := fst ck |}).
    destruct (negb (String.eqb m "publicish") || V3.ok (fst ck)) eqn:Hacc.
    + exists 1%nat, (inl spot), (snd ck).
      split; [reflexivity | ].
      rewrite C1, C2, H1, H2. rewrite H3 in C3.
      repeat split; try lia.
      * subst spot. cbn [V3.check].
        apply orb_true_iff in Hacc as [Hm | Hok]; [ | exact Hok].
        subst ck. rewrite checked_cases. cbv zeta.
        destruct (nominatim env _ _) as [d | e];
          [rewrite Hm; reflexivity | exact Hm].
      * unfold tiled. replace (i + Z.of_nat 1 - 1) with i by lia. reflexivity.
    + apply orb_false_iff in Hacc as [_ Hok].
      destruct (IH (i + 1) (Some spot) (snd ck)) as (k & r & w' & E & Hk & A & B & C & D).
      exists (S k), r, w'. rewrite E. split; [reflexivity | ].
      rewrite C1, H1 in A. rewrite C2, H2 in B. rewrite H3 in C3.
      split; [lia | ]. split; [lia | ]. split; [exact B | ]. split; [lia | ].
      destruct r as [sp | b].
      * destruct D as (D1 & D2 & D3). split; [lia | ]. split; [exact D2 | ].
        rewrite D3 at 1. f_equal. lia.
      * destruct D as (-> & D). split; [reflexivity | ].
        destruct n as [| n].
        -- exists spot. split; [exact D | ]. split; [exact Hok | ].
           unfold tiled. replace (i + Z.of_nat 1 - 1) with i by lia. reflexivity.
        -- destruct D as (sp & -> & D2 & D3). exists sp.
           split; [reflexivity | ]. split; [exact D2 | ].
           rewrite D3 at 1. f_equal. lia.
Qed.

Lemma checked_nonstrict env m lat lon w :
  String.eqb m "publicish" = false ->
  exists ck : V3.Check,
    checked env m lat lon w = (ck, sent (ReqNominatim 18 1 lat lon) w)
    /\ V3.ok ck = true
    /\ (V3.level ck = "lite" \/ V3.level ck = "error").
Proof.
  intros Hm. rewrite checked_cases. cbv zeta. rewrite Hm. cbn [negb].
  destruct (nominatim env _ _) as [d | e]; eexists; (split; [reflexivity | ]).
  - cbn. auto.
  - unfold check_error. rewrite Hm. cbn. auto.
Qed.

Lemma to_nat_succ (ma : Z) : 1 <= ma -> exists n, Z.to_nat ma = S n.
Proof.
  intros H. exists (Z.to_nat (ma - 1)). lia.
Qed.

Lemma V2_roll_unfold env c m ma w :
  V2.rollUntilLikelyLand env c m ma w
  = V2.attempts env c m (crypto_randomUUID env (uuids w))
      (Z.to_nat (default 8 ma)) 1 None None (set_uuids (S (uuids w)) w).
Proof. reflexivity. Qed.

Lemma V3_roll_unfold env c m t ma w :
  V3.rollUntilGood env c m t ma w
  = match V3.attempts env c m t (crypto_randomUUID env (uuids w))
            (Z.to_nat (default 30 ma)) 1 None (set_uuids (S (uuids w)) w) with
    | (Ret (inl spot), w') => (Ret (Some spot), w')
    | (Ret (inr best), w') => (Ret (option_map V3.mark_exhausted best), w')
    | (Throw e, w') => (Throw e, w')
    end.
Proof.
  unfold V3.rollUntilGood, bind, randomUUID.
  destruct (V3.attempts _ _ _ _ _ _ _ _ _) as [[[sp | b] | e] w']; reflexivity.
Qed.

(** [rollUntilLikelyLand] with a budget of at least one attempt. *)
Lemma V2_roll_run env c m ma w :
  1 <= ma ->
  exists (k : Z) (check : option V2.Check) (w' : World),
    V2.rollUntilLikelyLand env c m (Some ma) w
    = (Ret (Some (rolled None c m (crypto_randomUUID env (uuids w)) k), check), w')
    /\ 1 <= k <= ma
    /\ derivations w w' = k
    /\ external_calls w w' = k.
Proof.
  intros Hma. rewrite V2_roll_unfold. cbn [default from_option id].
  destruct (to_nat_succ ma Hma) as [n Hn]. rewrite Hn.
  set (u := crypto_randomUUID env (uuids w)).
  set (wu := set_uuids (S (uuids w)) w).
  assert (First : exists (k : nat) (check : option V2.Check) (w' : World),
            V2.attempts env c m u (S n) 1 None None wu
            = (Ret (held None c m u 1 k None, check), w')
            /\ (1 <= k <= S n)%nat
            /\ length (heap w') = (length (heap wu) + k)%nat
            /\ length (requests w') = (length (requests wu) + k)%nat).
  { rewrite V2_attempts_step. cbv zeta.
    set (s := rolled None c m u 1).
    set (w1 := sent _ (after_two_draws c m u 1 wu)).
    assert (Hw1 : length (heap w1) = S (length (heap wu))
                  /\ length (requests w1) = S (length (requests wu))).
    { subst w1.
      destruct (sent_shape (ReqNominatim 10 0 (lat s) (lon s))
                  (after_two_draws c m u 1 wu)) as (-> & _ & ->).
      destruct (after_two_draws_shape c m u 1 wu) as (-> & _ & ->). auto. }
    destruct Hw1 as (Hh & Hr).
    assert (Stop : forall ck, exists (k : nat) (check : option V2.Check) (w' : World),
              (Ret (Some s, ck), w1) = (Ret (held None c m u 1 k None, check), w')
              /\ (1 <= k <= S n)%nat
              /\ length (heap w') = (length (heap wu) + k)%nat
              /\ length (requests w') = (length (requests wu) + k)%nat).
    { intros ck. exists 1%nat, ck, w1. repeat split; lia. }
    assert (Go : forall ck, exists (k : nat) (check : option V2.Check) (w' : World),
              V2.attempts env c m u n (1 + 1) (Some s) ck w1
              = (Ret (held None c m u 1 k None, check), w')
              /\ (1 <= k <= S n)%nat
              /\ length (heap w') = (length (heap wu) + k)%nat
              /\ length (requests w') = (length (requests wu) + k)%nat).
    { intros ck.
      destruct (V2_attempts_run env c m u n (1 + 1) (Some s) ck w1)
        as (k & ck' & w' & E & Hk & A & B & _).
      exists (S k), ck', w'. rewrite E. split.
      - destruct k as [| k]; cbn [held]; [reflexivity | ].
        replace (1 + 1 + Z.of_nat (S k) - 1) with (1 + Z.of_nat (S (S k)) - 1) by lia.
        reflexivity.
      - repeat split; lia. }
    destruct (nominatim env _ _) as [d | e].
    - destruct (negb (String.eqb m "publicish") || V2.ok (V2.judge d));
        [apply Stop | apply Go].
    - destruct (3 <=? 1); [apply Stop | apply Go]. }
  destruct First as (k & check & w' & E & Hk & A & B).
  exists (Z.of_nat k), check, w'. rewrite E.
  destruct k as [| k]; [lia | ]. cbn [held].
  replace (1 + Z.of_nat (S k) - 1) with (Z.of_nat (S k)) by lia.
  split; [reflexivity | ].
  unfold derivations, external_calls.
  change (heap wu) with (heap w) in A. change (requests wu) with (requests w) in B.
  repeat split; lia.
Qed.

(** [rollUntilGood] with a budget of at least one attempt. *)
Lemma V3_roll_run env c m t ma w :
  1 <= ma ->
  exists (spot : V3.TileSpot) (w' : World),
    V3.rollUntilGood env c m t (Some ma) w = (Ret (Some spot), w')
    /\ 1 <= derivations w w' <= ma
    /\ derivations w w' <= external_calls w w' <= 2 * derivations w w'
    /\ V3.point spot
       = rolled (Some V3.BRAND) c m (crypto_randomUUID env (uuids w))
           (derivations w w')
    /\ V3.tile spot
       = V3.makeTileFromCenter (Math_cos env) (lat (V3.point spot))
           (lon (V3.point spot)) t
    /\ (V3.ok (V3.check spot) = true
        \/ (derivations w w' = ma
            /\ V3.level (V3.check spot) = "exhausted"
            /\ V3.ok (V3.check spot) = false)).
Proof.
  intros Hma. rewrite V3_roll_unfold. cbn [default from_option id].
  destruct (to_nat_succ ma Hma) as [n Hn]. rewrite Hn.
  set (u := crypto_randomUUID env (uuids w)).
  set (wu := set_uuids (S (uuids w)) w).
  destruct (V3_attempts_run env c m t u (S n) 1 None wu)
    as (k & r & w' & E & Hk & A & _ & C & D).
  rewrite E.
  change (heap wu) with (heap w) in A. change (requests wu) with (requests w) in C.
  destruct r as [spot | b].
  - destruct D as (D1 & D2 & D3).
    exists spot, w'. split; [reflexivity | ].
    assert (Hd : derivations w w' = Z.of_nat k) by (unfold derivations; lia).
    rewrite Hd. unfold external_calls.
    split; [lia | ]. split; [lia | ].
    replace (1 + Z.of_nat k - 1) with (Z.of_nat k) in D3 by lia.
    split; [rewrite D3; reflexivity | ].
    split; [rewrite D3; reflexivity | ].
    left. exact D2.
  - destruct D as (-> & spot & -> & D2 & D3).
    exists (V3.mark_exhausted spot), w'. split; [reflexivity | ].
    assert (Hd : derivations w w' = ma) by (unfold derivations; lia).
    rewrite Hd. unfold external_calls.
    split; [lia | ]. split; [lia | ].
    replace (1 + Z.of_nat (S n) - 1) with ma in D3 by lia.
    cbn [V3.mark_exhausted V3.point V3.tile V3.check V3.ok V3.level].
    split; [rewrite D3; reflexivity | ].
    split; [rewrite D3; reflexivity | ].
    right. auto.
Qed.

End LoopFacts.

(** ** Tiles *)

Module TileFacts.
Import JS Run Geo RoundFacts.
Local Open Scope Q_scope.

Lemma Math_max_ge_r a b : b <= Math_max a b.
Proof. unfold Math_max. destruct (Qlt_le_dec a b); lra. Qed.




End TileFacts.

(** ** The place-type checks *)

Module CheckFacts.
Import JS Run.
Local Open Scope string_scope.

Lemma prefix_refl (s : string) : String.prefix s s = true.
Proof.
  induction s as [| c r IH]; simpl; [reflexivity | ].
  destruct (ascii_dec c c) as [_ | N]; [exact IH | contradiction].
Qed.

Lemma includes_self (s : string) : includes s s = true.
Proof.
  destruct s as [| c r]; simpl; [reflexivity | ].
  rewrite prefix_refl.
  destruct (ascii_dec c c) as [_ | N]; [reflexivity | contradiction].
Qed.

Lemma truthy_or_else (a b : string) : truthy (or_else a b) = truthy a || truthy b.
Proof. destruct a; reflexivity. Qed.

Lemma truthy_false (s : string) : truthy s = false <-> s = "".
Proof.
  destruct s; simpl; split; intros H; try reflexivity; discriminate.
Qed.

Lemma eqb_includes (s w : string) : String.eqb s w = true -> includes s w = true.
Proof. intros H. apply String.eqb_eq in H. subst. apply includes_self. Qed.

(** [looksWater] of [reverseCheckNominatim]: a keyword occurs in the type
    or in the category. *)
Lemma V3_looksWater_iff (d : NominatimData) :
  V3.n_looksWater (V3.judge d) = true
  <-> exists w, In w V3.waterWords
                /\ (includes (toLowerCase (d_type d)) w = true
                    \/ includes (toLowerCase (d_category d)) w = true).
Proof.
  unfold V3.judge. cbv zeta. cbn [V3.n_looksWater].
  set (type := toLowerCase (d_type d)). set (category := toLowerCase (d_category d)).
  rewrite !orb_true_iff, !existsb_exists, andb_true_iff, orb_true_iff.
  split.
  - intros [[(w & Hw & H) | (w & Hw & H)] | [_ [H | H]]].
    + exists w. auto.
    + exists w. auto.
    + exists "water". split; [cbn; tauto | left; now apply eqb_includes].
    + exists "coastline". split; [cbn; tauto | left; now apply eqb_includes].
  - intros (w & Hw & [H | H]); left; [left | right]; exists w; auto.
Qed.

Lemma V3_signals (d : NominatimData) :
  let addr := default V3.no_address (d_address d) in
  (V3.hasRoadish (V3.signals (V3.judge d)) = false
   <-> road addr = "" /\ pedestrian addr = "" /\ footway addr = ""
       /\ cycleway addr = "")
  /\ (V3.hasPlaceish (V3.signals (V3.judge d)) = false
      <-> city addr = "" /\ town addr = "" /\ village addr = ""
          /\ hamlet addr = "" /\ suburb addr = "" /\ neighbourhood addr = "")
  /\ (V3.hasCountry (V3.signals (V3.judge d)) = false <-> a_country addr = "").
Proof.
  intros addr. unfold V3.judge. cbv zeta.
  cbn [V3.signals V3.hasRoadish V3.hasPlaceish V3.hasCountry]. fold addr.
  rewrite !truthy_or_else, !orb_false_iff, !truthy_false. tauto.
Qed.

Lemma V3_ok_bool (d : NominatimData) :
  V3.n_ok (V3.judge d)
  = negb (V3.n_looksWater (V3.judge d))
    && V3.hasCountry (V3.signals (V3.judge d))
    && (V3.hasRoadish (V3.signals (V3.judge d))
        || V3.hasPlaceish (V3.signals (V3.judge d))
        || (12 <? str_length (trim (d_display_name d)))%Z).
Proof. reflexivity. Qed.

End CheckFacts.

(** ** The delivery endpoint *)

Module StripeFacts.
Import JS Props.
Local Open Scope string_scope.

Lemma or_else_empty (s : string) : or_else s "" = s.
Proof. destruct s; reflexivity. Qed.

Lemma startsWith_truthy (s p : string) :
  truthy p = true -> startsWith s p = true -> truthy s = true.
Proof. destruct s, p; simpl; intros; congruence. Qed.

Lemma field_action (sid : string) :
  Stripe.field (Stripe.queryStringParameters (deliver_request sid)) "action"
  = "deliver".
Proof.
  unfold Stripe.field, deliver_request. cbn [Stripe.queryStringParameters].
  now rewrite lookup_insert_eq.
Qed.

Lemma field_session_id (sid : string) :
  Stripe.field (Stripe.queryStringParameters (deliver_request sid)) "session_id"
  = sid.
Proof.
  unfold Stripe.field, deliver_request. cbn [Stripe.queryStringParameters].
  rewrite lookup_insert_ne by discriminate.
  now rewrite lookup_insert_eq.
Qed.

Lemma field_empty (k : string) : Stripe.field ∅ k = "".
Proof. unfold Stripe.field. now rewrite lookup_empty. Qed.

(** The handler on a deliver request runs the deliver block and turns a
    thrown error into a 500 response. *)
Lemma handler_deliver penv cond sid st :
  truthy (Stripe.STRIPE_SECRET_KEY penv) = true ->
  Stripe.handler penv cond (deliver_request sid) st
  = Some (match Stripe.deliver penv cond
                  (Stripe.queryStringParameters (deliver_request sid)) ∅ st with
          | (inl r, st') => (r, st')
          | (inr e, st') =>
              (Stripe.json 500 [("error", Stripe.JStr "Server error");
                                ("detail", Stripe.JStr e)], st')
          end).
Proof.
  intros Hkey. unfold Stripe.handler.
  change (Stripe.httpMethod (deliver_request sid)) with "GET".
  change (String.eqb "GET" "OPTIONS") with false.
  change (String.eqb "GET" "POST") with false.
  rewrite Hkey. cbn [negb]. cbv zeta.
  rewrite field_action.
  change (Stripe.asStr (or_else "deliver" (Stripe.field ∅ "action")) 20) with "deliver".
  change (String.eqb "deliver" "create") with false.
  change (String.eqb "deliver" "verify") with false.
  change (String.eqb "deliver" "subscribe") with false.
  change (String.eqb "deliver" "deliver") with true.
  cbn [orb].
  destruct (Stripe.deliver _ _ _ _ _) as [[r | e] st']; reflexivity.
Qed.

Lemma sent_and_marked_marked penv cond st session pi to piMeta :
  marked (sent_and_marked penv cond st session pi to piMeta) pi.
Proof.
  unfold marked, sent_and_marked. cbn [Stripe.intents Stripe.set_intents].
  eexists. split; [apply lookup_insert_eq | ].
  unfold Stripe.field.
  rewrite lookup_insert_ne by discriminate.
  rewrite lookup_insert_ne by discriminate.
  rewrite lookup_insert_eq. reflexivity.
Qed.

Section Deliver.
Variables (penv : Stripe.ProcessEnv) (cond : Stripe.Conditions).
Variables (q body : gmap string string) (st : Stripe.Store).
Variables (sid pi to : string) (session : Stripe.Session).
Hypothesis Hsid :
  Stripe.asStr (or_else (Stripe.field q "session_id") (Stripe.field body "session_id")) 200
  = sid.
Hypothesis Hcs : startsWith sid "cs_" = true.
Hypothesis Hsession : Stripe.sessions st !! sid = Some session.
Hypothesis Hpi : Stripe.payment_intent session = Some pi.

(** With the marker on the payment intent the block writes nothing and
    sends nothing, whatever else holds. *)
Lemma deliver_marked_silent :
  marked st pi -> snd (Stripe.deliver penv cond q body st) = st.
Proof.
  intros (piMeta & Hmeta & Hyes). unfold Stripe.deliver. cbv zeta.
  rewrite Hsid, Hcs, (startsWith_truthy sid "cs_" eq_refl Hcs). cbn [negb orb].
  destruct (negb (Stripe.retrieve_works cond)); [reflexivity | ].
  rewrite Hsession.
  destruct (negb (String.eqb (Stripe.payment_status session) "paid")); [reflexivity | ].
  destruct (negb (String.eqb _ "yes")); [reflexivity | ].
  destruct (negb (truthy _) || negb (Stripe.looksLikeEmail _)); [reflexivity | ].
  rewrite Hpi.
  destruct (truthy pi); [ | reflexivity].
  rewrite Hmeta, Hyes. reflexivity.
Qed.

Hypothesis Hpaid : Stripe.payment_status session = "paid".
Hypothesis Hconsent :
  toLowerCase (Stripe.field (default ∅ (Stripe.metadata session)) "email_consent")
  = "yes".
Hypothesis Hto :
  Stripe.asStr (Stripe.field (default ∅ (Stripe.metadata session)) "email") 120 = to.
Hypothesis Hto1 : truthy to = true.
Hypothesis Hto2 : Stripe.looksLikeEmail to = true.
Hypothesis Hpi1 : truthy pi = true.
Hypothesis Hretrieve : Stripe.retrieve_works cond = true.

(** The opted-in session with the marker: "Already emailed". *)
Lemma deliver_marked :
  marked st pi ->
  Stripe.deliver penv cond q body st
  = (inl (Stripe.json 200 [("ok", Stripe.JBool true); ("delivered", Stripe.JBool true);
                           ("to", Stripe.JStr to);
                           ("message", Stripe.JStr "Already emailed (idempotent).")]),
     st).
Proof.
  intros (piMeta & Hmeta & Hyes). unfold Stripe.deliver. cbv zeta.
  rewrite Hsid, Hcs, (startsWith_truthy sid "cs_" eq_refl Hcs). cbn [negb orb].
  rewrite Hretrieve. cbn [negb]. rewrite Hsession, Hpaid.
  change (String.eqb "paid" "paid") with true. cbn [negb].
  rewrite Hconsent. change (String.eqb "yes" "yes") with true. cbn [negb].
  rewrite Hto, Hto1, Hto2. cbn [negb orb].
  rewrite Hpi, Hpi1, Hmeta, Hyes. reflexivity.
Qed.

(** The opted-in session without the marker, every collaborator
    answering: one mail, then the marker. *)
Lemma deliver_fresh (piMeta : gmap string string) :
  Stripe.intents st !! pi = Some piMeta ->
  toLowerCase (Stripe.field piMeta "certificate_emailed") <> "yes" ->
  configured penv -> all_work cond ->
  Stripe.deliver penv cond q body st
  = (inl (Stripe.json 200 [("ok", Stripe.JBool true); ("delivered", Stripe.JBool true);
                           ("to", Stripe.JStr to)]),
     sent_and_marked penv cond st session pi to piMeta).
Proof.
  intros Hmeta Hno (_ & Hu & Hp) (_ & Hpdf & Hsend & Hupd).
  apply String.eqb_neq in Hno.
  unfold Stripe.deliver. cbv zeta.
  rewrite Hsid, Hcs, (startsWith_truthy sid "cs_" eq_refl Hcs). cbn [negb orb].
  rewrite Hretrieve. cbn [negb]. rewrite Hsession, Hpaid.
  change (String.eqb "paid" "paid") with true. cbn [negb].
  rewrite Hconsent. change (String.eqb "yes" "yes") with true. cbn [negb].
  rewrite Hto, Hto1, Hto2. cbn [negb orb].
  rewrite Hpi, Hpi1, Hmeta, Hno, Hpdf, Hu, Hp, Hsend, Hupd. cbn [negb].
  reflexivity.
Qed.

End Deliver.

Lemma store_after_handler penv cond sid st :
  truthy (Stripe.STRIPE_SECRET_KEY penv) = true ->
  store_after (Stripe.handler penv cond (deliver_request sid) st) st
  = snd (Stripe.deliver penv cond
           (Stripe.queryStringParameters (deliver_request sid)) ∅ st).
Proof.
  intros Hkey. rewrite handler_deliver by exact Hkey.
  destruct (Stripe.deliver _ _ _ _ _) as [[r | e] st']; reflexivity.
Qed.

Lemma request_session_id sid :
  Stripe.asStr sid 200 = sid ->
  Stripe.asStr
    (or_else (Stripe.field (Stripe.queryStringParameters (deliver_request sid)) "session_id")
       (Stripe.field ∅ "session_id")) 200
  = sid.
Proof.
  intros H. now rewrite field_session_id, field_empty, or_else_empty.
Qed.

End StripeFacts.

(** ** Collisions of the hash *)

Module HashFacts.
Import JS Rng JSFacts RngFacts.
Local Open Scope string_scope.
Local Open Scope Z_scope.

Lemma fnv1a_step_range h c : 0 <= Spec.fnv1a_step h c < 4294967296.
Proof. unfold Spec.fnv1a_step. apply Z.mod_pos_bound. lia. Qed.

(** Multiplying by the FNV prime is undone, on 32 bits, by multiplying
    by 899433627. *)
Lemma prime_inverse x :
  0 <= x < 4294967296 ->
  ((x * 16777619) mod 2 ^ 32 * 899433627) mod 2 ^ 32 = x.
Proof.
  intros Hx. rewrite Z.mul_mod_idemp_l by lia.
  rewrite <- Z.mul_assoc.
  change (16777619 * 899433627) with (1 + 3513497 * 2 ^ 32).
  rewrite Z.mul_add_distr_l, Z.mul_1_r, Z.mul_assoc, Z.mod_add by lia.
  apply Z.mod_small. exact Hx.
Qed.

Lemma lxor_cancel_l h a b : Z.lxor h a = Z.lxor h b -> a = b.
Proof.
  intros E. apply (f_equal (Z.lxor h)) in E.
  now rewrite <- !Z.lxor_assoc, Z.lxor_nilpotent, !Z.lxor_0_l in E.
Qed.

Lemma lxor_cancel_r a b c : Z.lxor a c = Z.lxor b c -> a = b.
Proof. rewrite !(Z.lxor_comm _ c). apply lxor_cancel_l. Qed.

Lemma charCode_small c : 0 <= charCode c < 4294967296.
Proof. pose proof (charCode_range c). lia. Qed.

Lemma charCode_inj c1 c2 : charCode c1 = charCode c2 -> c1 = c2.
Proof.
  unfold charCode. intros E. apply N2Z.inj in E.
  rewrite <- (ascii_N_embedding c1), <- (ascii_N_embedding c2). now rewrite E.
Qed.

Lemma fnv1a_step_unmix h c :
  0 <= h < 4294967296 ->
  (Spec.fnv1a_step h c * 899433627) mod 2 ^ 32 = Z.lxor h (charCode c).
Proof.
  intros Hh. unfold Spec.fnv1a_step. apply prime_inverse.
  apply ToUint32_lxor_small; [exact Hh | apply charCode_small].
Qed.

(** One step of the hash is injective in the state and in the character. *)
Lemma fnv1a_step_inj_state h1 h2 c :
  0 <= h1 < 4294967296 -> 0 <= h2 < 4294967296 ->
  Spec.fnv1a_step h1 c = Spec.fnv1a_step h2 c -> h1 = h2.
Proof.
  intros H1 H2 E.
  apply (f_equal (fun x => (x * 899433627) mod 2 ^ 32)) in E.
  rewrite !fnv1a_step_unmix in E by assumption.
  now apply lxor_cancel_r in E.
Qed.

Lemma fnv1a_step_inj_char h c1 c2 :
  0 <= h < 4294967296 ->
  Spec.fnv1a_step h c1 = Spec.fnv1a_step h c2 -> c1 = c2.
Proof.
  intros Hh E.
  apply (f_equal (fun x => (x * 899433627) mod 2 ^ 32)) in E.
  rewrite !fnv1a_step_unmix in E by assumption.
  apply lxor_cancel_l in E. now apply charCode_inj.
Qed.

Lemma fold_range l : forall h,
  0 <= h < 4294967296 -> 0 <= fold_left Spec.fnv1a_step l h < 4294967296.
Proof.
  induction l as [| c l IH]; intros h Hh; cbn [fold_left]; [exact Hh | ].
  apply IH, fnv1a_step_range.
Qed.

Lemma fold_inj l : forall h1 h2,
  0 <= h1 < 4294967296 -> 0 <= h2 < 4294967296 ->
  fold_left Spec.fnv1a_step l h1 = fold_left Spec.fnv1a_step l h2 -> h1 = h2.
Proof.
  induction l as [| c l IH]; intros h1 h2 H1 H2 E; cbn [fold_left] in E; [exact E | ].
  apply IH in E; try apply fnv1a_step_range.
  now apply fnv1a_step_inj_state in E.
Qed.

(** Two strings that differ in exactly one character never collide. *)
Lemma one_character_apart (pre suf : string) (c1 c2 : ascii) :
  c1 <> c2 ->
  hashStrToSeed (pre ++ String c1 suf) <> hashStrToSeed (pre ++ String c2 suf).
Proof.
  intros Hc E. rewrite !hashStrToSeed_fnv1a32 in E. unfold Spec.fnv1a32 in E.
  rewrite !LabelFacts.chars_app in E. cbn [list_ascii_of_string] in E.
  rewrite !fold_left_app in E. cbn [fold_left] in E.
  assert (R : 0 <= fold_left Spec.fnv1a_step (list_ascii_of_string pre) 2166136261
              < 4294967296) by (apply fold_range; lia).
  apply fold_inj in E; try apply fnv1a_step_range.
  apply fnv1a_step_inj_char in E; [contradiction | exact R].
Qed.

(** The hexadecimal form of a seed determines it. *)
Lemma toString16_inj (a b : Z) :
  0 <= a -> 0 <= b -> Number_toString16 a = Number_toString16 b -> a = b.
Proof.
  intros Ha Hb E. unfold Number_toString16 in E.
  assert (U : N.to_hex_uint (Z.to_N a) = N.to_hex_uint (Z.to_N b)).
  { assert (N1 : forall n, N.to_hex_uint n <> Hexadecimal.Nil).
    { intros n Hn.
      assert (Z0 : n = 0%N)
        by (rewrite <- (HexadecimalN.Unsigned.of_to n), Hn; reflexivity).
      subst n. vm_compute in Hn. discriminate Hn. }
    pose proof (HexadecimalString.NilZero.usu _ (N1 (Z.to_N a))) as Ua.
    pose proof (HexadecimalString.NilZero.usu _ (N1 (Z.to_N b))) as Ub.
    rewrite E in Ua. rewrite Ua in Ub. now injection Ub. }
  apply (f_equal N.of_hex_uint) in U.
  rewrite !HexadecimalN.Unsigned.of_to in U. lia.
Qed.

(** The decimal form of a one-digit attempt number is its digit. *)
Lemma digit_string (i : Z) :
  0 <= i <= 9 ->
  exists d : ascii, Number_toString i = String d "" /\ charCode d = 48 + i.
Proof.
  intros Hi.
  assert (C : i = 0 \/ i = 1 \/ i = 2 \/ i = 3 \/ i = 4 \/ i = 5 \/ i = 6
              \/ i = 7 \/ i = 8 \/ i = 9) by lia.
  repeat (destruct C as [-> | C]; [eexists; split; reflexivity | ]).
  subst. eexists; split; reflexivity.
Qed.

Lemma request_string_split c m u i d :
  Number_toString i = String d "" ->
  Spec.request_string c m u i = (c ++ "|" ++ m ++ "|" ++ u ++ "|") ++ String d "".
Proof.
  intros E. unfold Spec.request_string. rewrite E.
  apply LabelFacts.chars_inj. rewrite !LabelFacts.chars_app.
  cbn [list_ascii_of_string]. rewrite <- !app_assoc. reflexivity.
Qed.

End HashFacts.

(** ** The land bias of the first frontend *)

Module BiasFacts.
Import JS Rng Run Geo Derived Invariants Props JSFacts RngFacts RollFacts.
Local Open Scope string_scope.
Local Open Scope Q_scope.

Lemma clamp_within (n a b : Q) :
  a <= b -> a <= V1.clamp n a b /\ V1.clamp n a b <= b.
Proof.
  intros H. unfold V1.clamp, Math_max, Math_min.
  destruct (Qlt_le_dec n b); destruct (Qlt_le_dec a _); split; lra.
Qed.

Lemma clamp_inside (n a b : Q) :
  a <= n -> n <= b -> V1.clamp n a b == n.
Proof.
  intros H1 H2. unfold V1.clamp, Math_max, Math_min.
  destruct (Qlt_le_dec n b); destruct (Qlt_le_dec a _); lra.
Qed.

Lemma oceanishHeuristic_unit (lat lon : Q) :
  0 <= V1.oceanishHeuristic lat lon /\ V1.oceanishHeuristic lat lon <= 1.
Proof. unfold V1.oceanishHeuristic. cbv zeta. apply clamp_within. lra. Qed.

(** One call of [landBiasAccept]: one draw, compared with a threshold
    between 0.05 and 0.95. *)
Lemma landBiasAccept_run (lat lon : Q) (h : list Z) (t : Z) (w : World) :
  exists thr : Q,
    (5 # 100 <= thr /\ thr <= 95 # 100)
    /\ V1.landBiasAccept lat lon (length h) (set_heap (h ++ [t]) w)
       = (Ret (if Qlt_le_dec (snd (mulberry32_step t) # 4294967296) thr
               then true else false),
          set_heap (h ++ [(t + 1831565813)%Z]) w).
Proof.
  eexists. split; [ | ].
  2: { unfold V1.landBiasAccept. cbv zeta. unfold bind. rewrite call_fresh.
       destruct (mulberry32_step_spec t) as [-> _]. reflexivity. }
  apply clamp_within. lra.
Qed.

Lemma roll_loop_S n b m rng lat0 lon0 :
  V1.roll_loop (S n) b m rng lat0 lon0
  = (u <- call rng ;;
     let lat := (latMin b + u * (latMax b - latMin b))%Q in
     v <- call rng ;;
     let lon := (lonMin b + v * (lonMax b - lonMin b))%Q in
     if negb (String.eqb m "publicish") then ret (lat, lon)
     else
       accepted <- V1.landBiasAccept lat lon rng ;;
       if accepted : bool then ret (lat, lon)
       else V1.roll_loop n b m rng lat lon).
Proof. reflexivity. Qed.

(** The loop in ["publicish"] mode: [k] iterations, three draws each. *)
Lemma roll_loop_publicish (b : Bounds) (h : list Z) (w : World) :
  forall (n : nat) (t : Z) (lat0 lon0 : Q),
  exists (p : Q * Q) (k : nat),
    V1.roll_loop (S n) b "publicish" (length h) lat0 lon0 (set_heap (h ++ [t]) w)
    = (Ret p, set_heap (h ++ [(t + 3 * Z.of_nat k * 1831565813)%Z]) w)
    /\ (1 <= k <= S n)%nat
    /\ drawn b p.
Proof.
  induction n as [| n IH]; intros t lat0 lon0.
  all: rewrite roll_loop_S;
    unfold bind at 1; rewrite call_fresh;
    pose proof (mulberry32_step_spec t) as [E1 K1];
    destruct (mulberry32_step t) as [t1 k1]; cbn [fst snd] in *;
    unfold bind at 1; rewrite call_fresh;
    pose proof (mulberry32_step_spec t1) as [E2 K2];
    destruct (mulberry32_step t1) as [t2 k2]; cbn [fst snd] in *;
    set (la := (latMin b + (k1 # 4294967296) * (latMax b - latMin b))%Q);
    set (lo := (lonMin b + (k2 # 4294967296) * (lonMax b - lonMin b))%Q);
    assert (Hin : drawn b (la, lo)) by (exists k1, k2; auto);
    change (negb (String.eqb "publicish" "publicish")) with false; cbv iota;
    destruct (landBiasAccept_run la lo h t2 w) as (thr & _ & Hacc);
    unfold bind at 1; rewrite Hacc;
    destruct (Qlt_le_dec _ thr).
  - exists (la, lo), 1%nat. split; [ | split; [lia | exact Hin]].
    replace (t + 3 * Z.of_nat 1 * 1831565813)%Z with (t2 + 1831565813)%Z by lia.
    reflexivity.
  - exists (la, lo), 1%nat. split; [ | split; [lia | exact Hin]].
    replace (t + 3 * Z.of_nat 1 * 1831565813)%Z with (t2 + 1831565813)%Z by lia.
    reflexivity.
  - exists (la, lo), 1%nat. split; [ | split; [lia | exact Hin]].
    replace (t + 3 * Z.of_nat 1 * 1831565813)%Z with (t2 + 1831565813)%Z by lia.
    reflexivity.
  - destruct (IH (t2 + 1831565813)%Z la lo) as (p & k & Hrun & Hk & Hp).
    exists p, (S k). rewrite Hrun. split; [ | split; [lia | exact Hp]].
    replace (t + 3 * Z.of_nat (S k) * 1831565813)%Z
      with (t2 + 1831565813 + 3 * Z.of_nat k * 1831565813)%Z by lia.
    reflexivity.
Qed.

End BiasFacts.

(** ** The orchestrators: what is sent, and what stands behind a check *)

Module TraceFacts.
Import JS Rng Run Geo Derived Invariants Props Traces.
Import JSFacts RngFacts RollFacts StepFacts LoopFacts.
Local Open Scope string_scope.
Local Open Scope Z_scope.

Lemma grown_nil w : grown [] [] w = w.
Proof.
  destruct w as [h u r]. unfold grown. cbn [heap uuids requests].
  now rewrite !app_nil_r.
Qed.

Lemma grown_step2 c m u i k w :
  let s := rolled None c m u i in
  grown (closures c m u (i + 1) k) (lookups2 c m u (i + 1) k)
    (sent (ReqNominatim 10 0 (lat s) (lon s)) (after_two_draws c m u i w))
  = grown (closures c m u i (S k)) (lookups2 c m u i (S k)) w.
Proof.
  intros s. unfold grown, sent, after_two_draws.
  cbn [heap uuids requests set_heap set_requests closures lookups2].
  fold s. now rewrite <- !app_assoc.
Qed.

Lemma held_next br c m u i k (sp : option Spot) :
  held br c m u (i + 1) k (Some (rolled br c m u i)) = held br c m u i (S k) sp.
Proof.
  destruct k as [| k]; cbn [held].
  - now replace (i + Z.of_nat 1 - 1) with i by lia.
  - now replace (i + 1 + Z.of_nat (S k) - 1) with (i + Z.of_nat (S (S k)) - 1) by lia.
Qed.

(** The loop of [rollUntilLikelyLand]: its requests are the lookups of
    the attempts made, in order; and once the loop is bound to reach
    attempt 3, the check it returns belongs to the spot it returns. *)
Lemma V2_attempts_full env c m u :
  forall (n : nat) (i : Z) (spot : option Spot) (check : option V2.Check)
         (w : World),
  exists (k : nat) (check' : option V2.Check),
    V2.attempts env c m u n i spot check w
    = (Ret (held None c m u i k spot, check'),
       grown (closures c m u i k) (lookups2 c m u i k) w)
    /\ (k <= n)%nat
    /\ (3 <= i + Z.of_nat n - 1 -> (n = O -> matched env spot check) ->
        matched env (held None c m u i k spot) check').
Proof.
  induction n as [| n IH]; intros i spot check w.
  - exists O, check. cbn [V2.attempts held closures lookups2].
    rewrite grown_nil. split; [reflexivity | ]. split; [lia | ]. auto.
  - rewrite V2_attempts_step. cbv zeta.
    set (s := rolled None c m u i).
    set (req := ReqNominatim 10 0 (lat s) (lon s)).
    set (w1 := sent req (after_two_draws c m u i w)).
    assert (Stop : forall ck,
               (ck = Some V2.lookup_unavailable
                \/ exists d, nominatim env (length (requests w)) req = Replied d
                             /\ ck = Some (V2.judge d)) ->
               exists (k : nat) (check' : option V2.Check),
                 (Ret (Some s, ck), w1)
                 = (Ret (held None c m u i k spot, check'),
                    grown (closures c m u i k) (lookups2 c m u i k) w)
                 /\ (k <= S n)%nat
                 /\ (3 <= i + Z.of_nat (S n) - 1 -> (S n = O -> matched env spot check) ->
                     matched env (held None c m u i k spot) check')).
    { intros ck Hck. exists 1%nat, ck.
      rewrite <- (grown_step2 c m u i 0 w). cbn [closures lookups2].
      rewrite grown_nil. fold s req w1.
      cbn [held]. replace (i + Z.of_nat 1 - 1) with i by lia. fold s.
      split; [reflexivity | ]. split; [lia | ].
      intros _ _. destruct Hck as [-> | (d & Hd & ->)].
      - exists s, V2.lookup_unavailable. auto.
      - exists s, (V2.judge d). split; [reflexivity | ]. split; [reflexivity | ].
        left. exists (length (requests w)), d. auto. }
    assert (Go : forall ck,
               (3 <= i + Z.of_nat (S n) - 1 -> n = O -> matched env (Some s) ck) ->
               exists (k : nat) (check' : option V2.Check),
                 V2.attempts env c m u n (i + 1) (Some s) ck w1
                 = (Ret (held None c m u i k spot, check'),
                    grown (closures c m u i k) (lookups2 c m u i k) w)
                 /\ (k <= S n)%nat
                 /\ (3 <= i + Z.of_nat (S n) - 1 -> (S n = O -> matched env spot check) ->
                     matched env (held None c m u i k spot) check')).
    { intros ck Hck.
      destruct (IH (i + 1) (Some s) ck w1) as (k & ck' & E & Hk & Hm).
      exists (S k), ck'. rewrite E. subst w1 req s.
      rewrite grown_step2, (held_next None c m u i k spot).
      split; [reflexivity | ]. split; [lia | ].
      intros H3 _. rewrite <- (held_next None c m u i k spot).
      apply Hm; [lia | ]. intros Hn. now apply Hck. }
    destruct (nominatim env (length (requests w)) req) as [d | e] eqn:Hreq.
    + destruct (negb (String.eqb m "publicish") || V2.ok (V2.judge d)).
      * apply Stop. right. exists d. auto.
      * apply Go. intros _ _. exists s, (V2.judge d).
        split; [reflexivity | ]. split; [reflexivity | ].
        left. exists (length (requests w)), d. auto.
    + destruct (3 <=? i) eqn:H3.
      * apply Stop. now left.
      * apply Go. intros Hreach ->. apply Z.leb_gt in H3. cbn in Hreach. lia.
Qed.

(** Where the second request of a check goes, and when it is made. *)
Lemma checked_world env m lat lon w :
  let rq := ReqNominatim 18 1 lat lon in
  let ro := ReqOverpass 3000 lat lon in
  exists b : bool,
    snd (checked env m lat lon w) = grown [] (rq :: (if b then [ro] else [])) w
    /\ (b = true ->
        m = "publicish"
        /\ exists d, nominatim env (length (requests w)) rq = Replied d
                     /\ V3.n_ok (V3.judge d) = true).
Proof.
  intros rq ro. rewrite checked_cases. cbv zeta. fold rq ro.
  assert (S1 : sent rq w = grown [] [rq] w).
  { unfold sent, grown, set_requests. now rewrite app_nil_r. }
  assert (S2 : sent ro (sent rq w) = grown [] [rq; ro] w).
  { unfold sent, grown, set_requests. cbn [heap uuids requests].
    now rewrite app_nil_r, <- app_assoc. }
  destruct (nominatim env (length (requests w)) rq) as [d | e] eqn:Hn.
  2: { exists false. split; [exact S1 | discriminate]. }
  destruct (String.eqb m "publicish") eqn:Hm; cbn [negb].
  2: { exists false. split; [exact S1 | discriminate]. }
  apply String.eqb_eq in Hm.
  destruct (V3.n_ok (V3.judge d)) eqn:Hok; cbn [negb].
  2: { exists false. split; [exact S1 | discriminate]. }
  exists true. split.
  - destruct (overpass env _ ro) as [els | e]; [destruct (0 <? default 0 els) | ];
      exact S2.
  - intros _. split; [exact Hm | ]. exists d. auto.
Qed.

(** An accepted check of ["publicish"] mode is backed by the services. *)
Lemma checked_backed env lat lon w :
  V3.ok (fst (checked env "publicish" lat lon w)) = true ->
  backed env lat lon (fst (checked env "publicish" lat lon w)).
Proof.
  rewrite checked_cases. cbv zeta.
  set (rq := ReqNominatim 18 1 lat lon). set (ro := ReqOverpass 3000 lat lon).
  change (String.eqb "publicish" "publicish") with true. cbn [negb].
  destruct (nominatim env (length (requests w)) rq) as [d | e] eqn:Hn.
  2: { cbn. discriminate. }
  destruct (V3.n_ok (V3.judge d)) eqn:Hok; cbn [negb].
  2: { cbn. discriminate. }
  assert (Hsig : V3.n_looksWater (V3.judge d) = false
                 /\ V3.hasCountry (V3.signals (V3.judge d)) = true).
  { revert Hok. unfold V3.judge. cbv zeta. cbn [V3.n_ok V3.n_looksWater V3.signals V3.hasCountry].
    intros Hok. apply andb_true_iff in Hok as [Hok _].
    apply andb_true_iff in Hok as [Hw Hc].
    apply negb_true_iff in Hw. auto. }
  destruct Hsig as [Hw Hc].
  assert (Hlen : length (requests (sent rq w)) = S (length (requests w))).
  { apply (sent_shape rq w). }
  rewrite Hlen.
  destruct (overpass env (S (length (requests w))) ro) as [els | f] eqn:Ho.
  - destruct (0 <? default 0 els) eqn:Hc0; cbn [fst V3.ok]; [ | discriminate].
    intros _. exists (length (requests w)), d.
    cbn [V3.nom V3.place V3.level V3.roads].
    split; [exact Hn | ]. split; [reflexivity | ]. split; [reflexivity | ].
    split; [exact Hw | ]. split; [exact Hc | ].
    left. split; [reflexivity | ].
    destruct els as [count | ]; cbn [default from_option id] in *; [ | discriminate].
    exists count. apply Z.ltb_lt in Hc0.
    split; [exact Hc0 | ]. split; [exact Ho | reflexivity].
  - cbn [fst V3.ok]. intros _. exists (length (requests w)), d.
    cbn [V3.nom V3.place V3.level V3.roads].
    split; [exact Hn | ]. split; [reflexivity | ]. split; [reflexivity | ].
    split; [exact Hw | ]. split; [exact Hc | ].
    right. split; [reflexivity | ]. exists f. split; [exact Ho | reflexivity].
Qed.

Lemma grown_step3 c m u i (b : bool) roads w :
  let s := rolled (Some V3.BRAND) c m u i in
  grown (closures c m u (i + 1) (length roads)) (lookups3 c m u (i + 1) roads)
    (grown [] (ReqNominatim 18 1 (lat s) (lon s)
               :: (if b then [ReqOverpass 3000 (lat s) (lon s)] else []))
       (after_two_draws c m u i w))
  = grown (closures c m u i (length (b :: roads))) (lookups3 c m u i (b :: roads)) w.
Proof.
  intros s. unfold grown, after_two_draws.
  cbn [heap uuids requests set_heap closures lookups3 length].
  fold s. rewrite app_nil_r. rewrite <- !app_assoc. reflexivity.
Qed.

(** The loop of [rollUntilGood]: its requests are, attempt by attempt, the
    reverse lookup of the point derived and, only after a passing reverse
    lookup in ["publicish"] mode, the road lookup of the same point; and
    the check of the spot it hands back was made for that spot. *)
Lemma V3_attempts_full env c m t u :
  forall (n : nat) (i : Z) (best : option V3.TileSpot) (w : World),
  exists (roads : list bool) (r : V3.TileSpot + option V3.TileSpot),
    V3.attempts env c m t u n i best w
    = (Ret r, grown (closures c m u i (length roads)) (lookups3 c m u i roads) w)
    /\ (length roads <= n)%nat
    /\ (m <> "publicish" -> Forall (fun b => b = false) roads)
    /\ match r with
       | inl spot =>
           (1 <= length roads)%nat
           /\ V3.ok (V3.check spot) = true
           /\ spot = tiled env c m t u (i + Z.of_nat (length roads) - 1) (V3.check spot)
           /\ checked_here env m spot
       | inr b =>
           length roads = n
           /\ match n with
              | O => b = best
              | S _ => exists spot,
                  b = Some spot
                  /\ V3.ok (V3.check spot) = false
                  /\ spot = tiled env c m t u (i + Z.of_nat n - 1) (V3.check spot)
                  /\ checked_here env m spot
              end
       end.
Proof.
  induction n as [| n IH]; intros i best w.
  - exists [], (inr best). cbn [V3.attempts length closures lookups3].
    rewrite grown_nil. split; [reflexivity | ]. split; [lia | ].
    split; [intros _; constructor | ]. split; reflexivity.
  - rewrite V3_attempts_step. cbv zeta.
    set (s := rolled (Some V3.BRAND) c m u i).
    set (w0 := after_two_draws c m u i w).
    destruct (checked_world env m (lat s) (lon s) w0) as (b & Hw & Hb).
    set (ck := checked env m (lat s) (lon s) w0) in *.
    set (spot := {| V3.point := s; V3.tile := _; V3.check := fst ck |}).
    assert (Hhere : checked_here env m spot).
    { exists w0. reflexivity. }
    assert (Hb' : m <> "publicish" -> b = false).
    { intros Hm. destruct b; [ | reflexivity]. destruct (Hb eq_refl) as [E _].
      contradiction. }
    destruct (negb (String.eqb m "publicish") || V3.ok (fst ck)) eqn:Hacc.
    + exists [b], (inl spot). rewrite Hw. subst w0 s.
      rewrite <- (grown_step3 c m u i b [] w). cbn [length closures lookups3].
      rewrite grown_nil.
      split; [reflexivity | ]. split; [cbn [length]; lia | ].
      split; [intros Hm; constructor; [now apply Hb' | constructor] | ].
      split; [cbn [length]; lia | ].
      split.
      * subst spot. cbn [V3.check].
        apply orb_true_iff in Hacc as [Hm | Hok]; [ | exact Hok].
        subst ck. rewrite checked_cases. cbv zeta.
        destruct (nominatim env _ _) as [d | e];
          [rewrite Hm; reflexivity | exact Hm].
      * split; [ | exact Hhere].
        unfold tiled. cbn [length]. replace (i + Z.of_nat 1 - 1) with i by lia.
        reflexivity.
    + apply orb_false_iff in Hacc as [_ Hok].
      destruct (IH (i + 1) (Some spot) (snd ck)) as (roads & r & E & Hk & Hf & D).
      exists (b :: roads), r. rewrite E, Hw. subst w0 s.
      rewrite grown_step3.
      split; [reflexivity | ]. split; [cbn [length]; lia | ].
      split; [intros Hm; constructor; [now apply Hb' | now apply Hf] | ].
      destruct r as [sp | bb].
      * destruct D as (D1 & D2 & D3 & D4). split; [cbn [length]; lia | ].
        split; [exact D2 | ]. split; [ | exact D4].
        rewrite D3 at 1. f_equal. cbn [length]. lia.
      * destruct D as (Dn & D). split; [cbn [length]; lia | ].
        destruct n as [| n].
        -- exists spot. split; [exact D | ]. split; [exact Hok | ].
           split; [ | exact Hhere].
           unfold tiled. replace (i + Z.of_nat 1 - 1) with i by lia. reflexivity.
        -- destruct D as (sp & -> & D2 & D3 & D4). exists sp.
           split; [reflexivity | ]. split; [exact D2 | ]. split; [ | exact D4].
           rewrite D3 at 1. f_equal. lia.
Qed.

Lemma grown_lengths cells reqs w :
  derivations w (grown cells reqs w) = Z.of_nat (length cells)
  /\ external_calls w (grown cells reqs w) = Z.of_nat (length reqs)
  /\ uuids (grown cells reqs w) = uuids w.
Proof.
  unfold derivations, external_calls, grown. cbn [heap requests uuids].
  rewrite !length_app. repeat split; lia.
Qed.

Lemma closures_length c m u i k : length (closures c m u i k) = k.
Proof.
  revert i. induction k as [| k IH]; intros i; cbn [closures length]; [ | rewrite IH];
    reflexivity.
Qed.

Lemma lookups2_length c m u i k : length (lookups2 c m u i k) = k.
Proof.
  revert i. induction k as [| k IH]; intros i; cbn [lookups2 length]; [ | rewrite IH];
    reflexivity.
Qed.

Lemma lookups3_length c m u i roads :
  (length roads <= length (lookups3 c m u i roads) <= 2 * length roads)%nat.
Proof.
  revert i. induction roads as [| b roads IH]; intros i; cbn [lookups3 length]; [lia | ].
  rewrite length_app. specialize (IH (i + 1)). destruct b; cbn [length]; lia.
Qed.

End TraceFacts.

(** ** The orchestrators as the pages call them *)

Module PageFacts.
Import JS Rng Run Geo Derived Invariants Props Traces.
Import JSFacts RngFacts RollFacts StepFacts LoopFacts TraceFacts.
Local Open Scope string_scope.
Local Open Scope Z_scope.

Lemma grown_counts cells reqs w w0 :
  heap w0 = heap w -> requests w0 = requests w ->
  derivations w (grown cells reqs w0) = Z.of_nat (length cells)
  /\ external_calls w (grown cells reqs w0) = Z.of_nat (length reqs).
Proof.
  intros Hh Hr. unfold derivations, external_calls, grown. cbn [heap requests].
  rewrite Hh, Hr, !length_app. split; lia.
Qed.

(** A check of app.js that passed is a verdict, and what it says. *)
Lemma V2_passed env s ck :
  verdict_for env s ck \/ ck = V2.lookup_unavailable ->
  V2.ok ck = true ->
  verdict_for env s ck /\ V2.looksWater ck = false
  /\ 6 <= str_length (V2.place ck).
Proof.
  intros [Hv | ->] Hok; [ | discriminate Hok].
  split; [exact Hv | ]. destruct Hv as (n & d & _ & ->).
  revert Hok. unfold V2.judge. cbv zeta. cbn [V2.ok V2.looksWater V2.place].
  intros Hok. apply andb_true_iff in Hok as [Hw Hlen].
  apply negb_true_iff in Hw. apply Z.leb_le in Hlen.
  split; [exact Hw | ].
  destruct (trim (d_display_name d)) as [| a r] eqn:E;
    [change (str_length "") with 0 in Hlen; lia | ].
  exact Hlen.
Qed.

(** [rollUntilLikelyLand] in full. *)
Lemma V2_roll_full env c m ma w :
  let u := crypto_randomUUID env (uuids w) in
  exists (k : nat) (spot : option Spot) (check : option V2.Check),
    V2.rollUntilLikelyLand env c m ma w
    = (Ret (spot, check),
       grown (closures c m u 1 k) (lookups2 c m u 1 k) (set_uuids (S (uuids w)) w))
    /\ spot = held None c m u 1 k None
    /\ Z.of_nat k <= Z.max 0 (default 8 ma)
    /\ (3 <= default 8 ma -> matched env spot check).
Proof.
  intros u. rewrite V2_roll_unfold. fold u.
  destruct (V2_attempts_full env c m u (Z.to_nat (default 8 ma)) 1 None None
              (set_uuids (S (uuids w)) w)) as (k & ck & E & Hk & Hm).
  exists k, (held None c m u 1 k None), ck. rewrite E.
  split; [reflexivity | ]. split; [reflexivity | ]. split; [lia | ].
  intros H3. apply Hm; lia.
Qed.

(** [rollUntilGood] in full. *)
Lemma V3_roll_full env c m t ma w :
  let u := crypto_randomUUID env (uuids w) in
  exists (roads : list bool) (r : option V3.TileSpot),
    V3.rollUntilGood env c m t ma w
    = (Ret r,
       grown (closures c m u 1 (length roads)) (lookups3 c m u 1 roads)
         (set_uuids (S (uuids w)) w))
    /\ Z.of_nat (length roads) <= Z.max 0 (default 30 ma)
    /\ (m <> "publicish" -> Forall (fun b => b = false) roads)
    /\ (1 <= default 30 ma ->
        exists spot,
          r = Some spot
          /\ (1 <= length roads)%nat
          /\ V3.point spot = rolled (Some V3.BRAND) c m u (Z.of_nat (length roads))
          /\ V3.tile spot
             = V3.makeTileFromCenter (Math_cos env) (lat (V3.point spot))
                 (lon (V3.point spot)) t
          /\ ((V3.ok (V3.check spot) = true /\ checked_here env m spot)
              \/ (V3.ok (V3.check spot) = false
                  /\ V3.level (V3.check spot) = "exhausted"
                  /\ Z.of_nat (length roads) = default 30 ma))).
Proof.
  intros u. rewrite V3_roll_unfold. fold u.
  destruct (V3_attempts_full env c m t u (Z.to_nat (default 30 ma)) 1 None
              (set_uuids (S (uuids w)) w)) as (roads & r & E & Hk & Hf & D).
  rewrite E. destruct r as [spot | b].
  - exists roads, (Some spot). split; [reflexivity | ]. split; [lia | ].
    split; [exact Hf | ]. intros _. exists spot.
    destruct D as (D1 & D2 & D3 & D4).
    replace (1 + Z.of_nat (length roads) - 1) with (Z.of_nat (length roads)) in D3 by lia.
    split; [reflexivity | ]. split; [exact D1 | ].
    split; [rewrite D3; reflexivity | ]. split; [rewrite D3; reflexivity | ].
    left. auto.
  - exists roads, (option_map V3.mark_exhausted b). split; [reflexivity | ].
    split; [lia | ]. split; [exact Hf | ]. intros Hma.
    destruct D as (Dn & D).
    destruct (Z.to_nat (default 30 ma)) as [| n] eqn:Hn; [lia | ].
    destruct D as (spot & -> & D2 & D3 & D4).
    exists (V3.mark_exhausted spot). cbn [option_map].
    replace (1 + Z.of_nat (S n) - 1) with (Z.of_nat (length roads)) in D3 by lia.
    split; [reflexivity | ]. split; [lia | ].
    cbn [V3.mark_exhausted V3.point V3.tile V3.check V3.ok V3.level].
    split; [rewrite D3; reflexivity | ]. split; [rewrite D3; reflexivity | ].
    right. split; [reflexivity | ]. split; [reflexivity | ]. lia.
Qed.

Lemma checked_here_backed env spot :
  checked_here env "publicish" spot ->
  V3.ok (V3.check spot) = true ->
  backed env (lat (V3.point spot)) (lon (V3.point spot)) (V3.check spot).
Proof.
  intros [w0 E] Hok. rewrite E in *. now apply checked_backed.
Qed.

End PageFacts.

(** ** The tile of the index page *)

Module SizeFacts.
Import JS Run Geo RoundFacts TileFacts BiasFacts.
Local Open Scope Q_scope.

Lemma tileMetersFromUI_range (tv : option Q) :
  1 # 10 <= Pages.tileMetersFromUI tv /\ Pages.tileMetersFromUI tv <= 100.
Proof.
  unfold Pages.tileMetersFromUI. destruct tv as [v | ]; [ | split; lra].
  destruct (Qlt_le_dec 0 v); [ | split; lra].
  apply clamp_within. lra.
Qed.

Lemma tileMetersFromUI_keeps (v : Q) :
  1 # 10 <= v -> v <= 100 -> Pages.tileMetersFromUI (Some v) == v.
Proof.
  intros H1 H2. unfold Pages.tileMetersFromUI.
  destruct (Qlt_le_dec 0 v); [ | lra]. now apply clamp_inside.
Qed.

Lemma tileMetersFromUI_default (tv : option Q) :
  match tv with None => True | Some v => v <= 0 end ->
  Pages.tileMetersFromUI tv = 1.
Proof.
  unfold Pages.tileMetersFromUI. destruct tv as [v | ]; [ | reflexivity].
  intros H. destruct (Qlt_le_dec 0 v); [lra | reflexivity].
Qed.

Lemma metersToLatDeg_eq (m : Q) : V3.metersToLatDeg m * 111320 == m.
Proof. unfold V3.metersToLatDeg. field. Qed.

(** The half-width of a tile in degrees of longitude, for any cosine. *)
Lemma metersToLonDeg_range (cosine : Q -> Q) (m lat : Q) :
  0 < m ->
  0 < V3.metersToLonDeg cosine m lat
  /\ V3.metersToLonDeg cosine m lat <= m / (111320 * (12 # 100)).
Proof.
  intros Hm. unfold V3.metersToLonDeg. cbv zeta.
  set (k := Math_max (cosine (lat * V3.Math_PI / 180)) (12 # 100)).
  assert (Hk : 12 # 100 <= k) by apply Math_max_ge_r.
  assert (HD : 0 < 111320 * k) by lra.
  split.
  - apply Qlt_shift_div_l; lra.
  - apply Qle_shift_div_r; [exact HD | ].
    assert (E : m / (111320 * (12 # 100)) * (111320 * k)
                == m * (k / (12 # 100))) by (field; lra).
    rewrite E.
    assert (H1 : 1 <= k / (12 # 100)) by (apply Qle_shift_div_l; lra).
    assert (E1 : m == m * 1) by ring.
    rewrite E1 at 1. apply Qmult_le_l; assumption.
Qed.

(** Where the cosine is at most 1, a tile is at least as wide in degrees
    as it is high. *)
Lemma metersToLonDeg_ge (cosine : Q -> Q) (m lat : Q) :
  0 < m -> cosine (lat * V3.Math_PI / 180) <= 1 ->
  V3.metersToLatDeg m <= V3.metersToLonDeg cosine m lat.
Proof.
  intros Hm Hc. unfold V3.metersToLonDeg, V3.metersToLatDeg. cbv zeta.
  set (k := Math_max (cosine (lat * V3.Math_PI / 180)) (12 # 100)).
  assert (Hk : 12 # 100 <= k) by apply Math_max_ge_r.
  assert (Hk1 : k <= 1).
  { subst k. unfold Math_max. destruct (Qlt_le_dec _ _); lra. }
  apply Qle_shift_div_l; [lra | ].
  assert (E : m / 111320 * (111320 * k) == m * k) by field.
  rewrite E.
  assert (E1 : m == m * 1) by ring.
  rewrite E1 at 2. apply Qmult_le_l; assumption.
Qed.

(** The area of a tile whose side is between 0.1 and 100 metres. *)
Lemma areaM2_range (cosine : Q -> Q) (lat lon s : Q) :
  1 # 10 <= s -> s <= 100 ->
  1 # 100 <= V3.areaM2 (V3.makeTileFromCenter cosine lat lon (Some s))
  /\ V3.areaM2 (V3.makeTileFromCenter cosine lat lon (Some s)) <= 10000.
Proof.
  intros H1 H2. unfold V3.makeTileFromCenter. cbv zeta.
  cbn [V3.areaM2 default from_option id].
  assert (L : (1 # 10) * (1 # 10) <= s * s).
  { apply Qle_trans with ((1 # 10) * s).
    - apply Qmult_le_l; lra.
    - apply Qmult_le_compat_r; lra. }
  assert (U : s * s <= 100 * 100).
  { apply Qle_trans with (100 * s).
    - apply Qmult_le_compat_r; lra.
    - apply Qmult_le_l; lra. }
  destruct (Number_toFixed_within 2 (s * s) 1 1000000) as [A B].
  - change (inject_Z 1 / inject_Z (10 ^ Z.of_nat 2)) with (1 # 100). lra.
  - change (inject_Z 1000000 / inject_Z (10 ^ Z.of_nat 2)) with (1000000 # 100). lra.
  - change (inject_Z 1 / inject_Z (10 ^ Z.of_nat 2)) with (1 # 100) in A.
    change (inject_Z 1000000 / inject_Z (10 ^ Z.of_nat 2)) with (1000000 # 100) in B.
    split; lra.
Qed.

End SizeFacts.

(** ** Strings of the endpoint *)

Module StringFacts.
Import JS Stripe Mailing.
Local Open Scope string_scope.

Lemma slice0_length (s : string) (n : nat) :
  String.length (slice0 s n) = Nat.min n (String.length s).
Proof.
  unfold slice0. revert n. induction s as [| c s IH]; intros [| n]; cbn; try reflexivity.
  now rewrite IH.
Qed.

Lemma slice0_prefix (s : string) (n : nat) : String.prefix (slice0 s n) s = true.
Proof.
  unfold slice0. revert n. induction s as [| c s IH]; intros [| n]; cbn; try reflexivity.
  destruct (ascii_dec c c) as [_ | N]; [apply IH | contradiction].
Qed.

Lemma prefix_same (s : string) : String.prefix s s = true.
Proof.
  induction s as [| c s IH]; cbn; [reflexivity | ].
  destruct (ascii_dec c c) as [_ | N]; [exact IH | contradiction].
Qed.

Lemma asStr_length (v : string) (max : nat) :
  (String.length (asStr v max) <= max)%nat.
Proof.
  unfold asStr. cbv zeta. destruct (max <? String.length (trim v))%nat eqn:H.
  - rewrite slice0_length. lia.
  - apply Nat.ltb_ge in H. exact H.
Qed.

Lemma asStr_prefix (v : string) (max : nat) :
  String.prefix (asStr v max) (trim v) = true.
Proof.
  unfold asStr. cbv zeta. destruct (max <? String.length (trim v))%nat.
  - apply slice0_prefix.
  - apply prefix_same.
Qed.

Lemma asStr_short (v : string) (max : nat) :
  (String.length (trim v) <= max)%nat -> asStr v max = trim v.
Proof.
  intros H. unfold asStr. cbv zeta.
  destruct (max <? String.length (trim v))%nat eqn:E; [ | reflexivity].
  apply Nat.ltb_lt in E. lia.
Qed.

Lemma trimStart_spaceless (s : string) :
  spaceless (list_ascii_of_string s) = true -> trimStart s = s.
Proof.
  destruct s as [| c s]; cbn; [reflexivity | ].
  intros H. apply andb_true_iff in H as [H _]. apply negb_true_iff in H.
  now rewrite H.
Qed.

Lemma trimEnd_spaceless (s : string) :
  spaceless (list_ascii_of_string s) = true -> trimEnd s = s.
Proof.
  induction s as [| c s IH]; cbn; [reflexivity | ].
  intros H. apply andb_true_iff in H as [Hc Hs]. apply negb_true_iff in Hc.
  rewrite (IH Hs). rewrite Hc. destruct s; reflexivity.
Qed.

Lemma trim_spaceless (s : string) :
  spaceless (list_ascii_of_string s) = true -> trim s = s.
Proof.
  intros H. unfold trim. rewrite (trimStart_spaceless s H).
  now apply trimEnd_spaceless.
Qed.

Lemma asStr_fix (s : string) (max : nat) :
  spaceless (list_ascii_of_string s) = true ->
  (String.length s <= max)%nat -> asStr s max = s.
Proof.
  intros H L. rewrite asStr_short; rewrite (trim_spaceless s H); [reflexivity | exact L].
Qed.

Lemma length_chars (s : string) :
  length (list_ascii_of_string s) = String.length s.
Proof. induction s as [| c s IH]; cbn; [reflexivity | now rewrite IH]. Qed.

End StringFacts.

(** ** The address check *)

Module EmailFacts.
Import JS Stripe Mailing StringFacts.
Local Open Scope string_scope.

Lemma plain_not_at (c : ascii) : plain c = true -> Ascii.eqb c "@" = false.
Proof.
  unfold plain. intros H. apply andb_true_iff in H as [_ H].
  now apply negb_true_iff in H.
Qed.

Lemma plain_not_space (c : ascii) : plain c = true -> isSpace c = false.
Proof.
  unfold plain. intros H. apply andb_true_iff in H as [H _].
  now apply negb_true_iff in H.
Qed.

Lemma split_at_app (a r : list ascii) :
  forallb plain a = true -> split_at (a ++ "@"%char :: r) = Some (a, r).
Proof.
  induction a as [| c a IH]; cbn [app split_at forallb]; intros H.
  - reflexivity.
  - apply andb_true_iff in H as [Hc Ha].
    rewrite (plain_not_at c Hc), (IH Ha). reflexivity.
Qed.

Lemma split_at_sound (l a r : list ascii) :
  split_at l = Some (a, r) -> l = (a ++ "@"%char :: r)%list.
Proof.
  revert a r. induction l as [| c l IH]; cbn [split_at]; intros a r H; [discriminate | ].
  destruct (Ascii.eqb c "@") eqn:E.
  - injection H as <- <-. apply Ascii.eqb_eq in E. subst c. reflexivity.
  - destruct (split_at l) as [[a' r'] | ]; [ | discriminate].
    injection H as <- <-. cbn [app]. f_equal. now apply IH.
Qed.

Lemma inner_dot_later (l : list ascii) :
  inner_dot false l = true <->
  exists b c, l = (b ++ "."%char :: c)%list /\ c <> [].
Proof.
  induction l as [| x l IH]; cbn [inner_dot].
  - split; [discriminate | ]. intros (b & c & E & _). destruct b; discriminate.
  - cbn [negb andb]. split.
    + intros H. apply orb_true_iff in H as [H | H].
      * apply andb_true_iff in H as [Hx Hl]. apply Ascii.eqb_eq in Hx. subst x.
        exists [], l. split; [reflexivity | ]. destruct l; [discriminate | discriminate].
      * apply IH in H as (b & c & -> & Hc). exists (x :: b), c. auto.
    + intros (b & c & E & Hc). destruct b as [| y b]; cbn [app] in E.
      * injection E as -> ->. rewrite Ascii.eqb_refl.
        destruct c; [contradiction | reflexivity].
      * injection E as -> ->. apply orb_true_iff. right. apply IH.
        exists b, c. auto.
Qed.

Lemma inner_dot_first (l : list ascii) :
  inner_dot true l = true <->
  exists b c, l = (b ++ "."%char :: c)%list /\ b <> [] /\ c <> [].
Proof.
  destruct l as [| x l]; cbn [inner_dot].
  - split; [discriminate | ]. intros (b & c & E & _). destruct b; discriminate.
  - cbn [negb andb orb]. rewrite inner_dot_later. split.
    + intros (b & c & -> & Hc). exists (x :: b), c. split; [reflexivity | ].
      split; [discriminate | exact Hc].
    + intros (b & c & E & Hb & Hc). destruct b as [| y b]; [contradiction | ].
      cbn [app] in E. injection E as -> ->. exists b, c. auto.
Qed.

(** [looksLikeEmail] decides the language of the regular expression. *)
Lemma looksLikeEmail_iff (s : string) :
  looksLikeEmail s = true <-> matches_email s.
Proof.
  unfold looksLikeEmail, matches_email. split.
  - destruct (split_at (list_ascii_of_string s)) as [[loc dom] | ] eqn:E;
      [ | discriminate].
    intros H. apply andb_true_iff in H as [H Hdot].
    apply andb_true_iff in H as [H Hdom]. apply andb_true_iff in H as [Hne Hloc].
    apply inner_dot_first in Hdot as (b & c & -> & Hb & Hc).
    rewrite forallb_app in Hdom. apply andb_true_iff in Hdom as [Hpb Hpc].
    cbn [forallb] in Hpc. apply andb_true_iff in Hpc as [_ Hpc].
    exists loc, b, c. split; [now apply split_at_sound | ].
    split; [destruct loc; [discriminate | discriminate] | ]. auto.
  - intros (a & b & c & E & Ha & Hb & Hc & Pa & Pb & Pc).
    rewrite E, (split_at_app a _ Pa).
    apply andb_true_iff. split; [ | apply inner_dot_first; exists b, c; auto].
    apply andb_true_iff. split.
    + apply andb_true_iff. split; [destruct a; [contradiction | reflexivity] | exact Pa].
    + rewrite forallb_app, Pb. cbn [forallb andb]. rewrite Pc.
      reflexivity.
Qed.

Lemma plain_spaceless (l : list ascii) :
  forallb plain l = true -> spaceless l = true.
Proof.
  unfold spaceless. induction l as [| c l IH]; cbn [forallb]; [reflexivity | ].
  intros H. apply andb_true_iff in H as [Hc Hl].
  rewrite (plain_not_space c Hc), (IH Hl). reflexivity.
Qed.

Lemma spaceless_app (a b : list ascii) :
  spaceless (a ++ b) = spaceless a && spaceless b.
Proof. unfold spaceless. apply forallb_app. Qed.

(** An accepted address has no white space. *)
Lemma looksLikeEmail_spaceless (s : string) :
  looksLikeEmail s = true -> spaceless (list_ascii_of_string s) = true.
Proof.
  intros H. apply looksLikeEmail_iff in H
    as (a & b & c & E & _ & _ & _ & Pa & Pb & Pc).
  rewrite E, spaceless_app. cbn [spaceless forallb].
  fold (spaceless (b ++ "."%char :: c)). rewrite spaceless_app.
  cbn [spaceless forallb]. fold (spaceless c).
  rewrite (plain_spaceless a Pa), (plain_spaceless b Pb), (plain_spaceless c Pc).
  reflexivity.
Qed.

Lemma count_plain (l : list ascii) :
  forallb plain l = true -> count_occ ascii_dec l "@"%char = 0%nat.
Proof.
  induction l as [| c l IH]; cbn [forallb count_occ]; [reflexivity | ].
  intros H. apply andb_true_iff in H as [Hc Hl].
  destruct (ascii_dec c "@") as [-> | _]; [discriminate Hc | now apply IH].
Qed.

(** An accepted address has exactly one [@] and at least 5 characters. *)
Lemma looksLikeEmail_shape (s : string) :
  looksLikeEmail s = true ->
  count_occ ascii_dec (list_ascii_of_string s) "@"%char = 1%nat
  /\ (5 <= String.length s)%nat.
Proof.
  intros H. apply looksLikeEmail_iff in H
    as (a & b & c & E & Ha & Hb & Hc & Pa & Pb & Pc).
  rewrite <- length_chars, E. split.
  - rewrite count_occ_app. cbn [count_occ].
    destruct (ascii_dec "@" "@") as [_ | N]; [ | contradiction].
    rewrite count_occ_app. cbn [count_occ].
    destruct (ascii_dec "." "@") as [N | _]; [discriminate | ].
    rewrite (count_plain a Pa), (count_plain b Pb), (count_plain c Pc). reflexivity.
  - rewrite length_app. cbn [length]. rewrite length_app. cbn [length].
    destruct a; [contradiction | ]. destruct b; [contradiction | ].
    destruct c; [contradiction | ]. cbn [length]. lia.
Qed.

End EmailFacts.

(** ** The actions of the endpoint *)

Module EndpointFacts.
Import JS Stripe Endpoint Mailing Props StringFacts EmailFacts StripeFacts.
Local Open Scope string_scope.

Lemma looksLikeEmail_truthy (s : string) : looksLikeEmail s = true -> truthy s = true.
Proof. destruct s; [discriminate | reflexivity]. Qed.

(** The deliver block, case by case: it leaves the store as it is, or it
    sends the certificate mail of a session that qualifies and then
    either fails to write the marker or writes it and answers
    "delivered". *)
Lemma deliver_cases penv cond q body st :
  let sid := asStr (or_else (field q "session_id") (field body "session_id")) 200 in
  let r := deliver penv cond q body st in
  (snd r = st
   /\ forall to, fst r <> inl (delivered_now to))
  \/ exists pi meta piMeta,
       may_send st sid pi meta piMeta
       /\ truthy (GMAIL_USER penv) = true
       /\ truthy (GMAIL_APP_PASSWORD penv) = true
       /\ ((r = (inr "Stripe update failed",
                 set_outbox (outbox st ++ [certificate_mail penv meta]) st)
            /\ update_works cond = false)
           \/ (r = (inl (delivered_now (asStr (field meta "email") 120)),
                    set_intents
                      (<[pi := with_marker cond (asStr (field meta "email") 120) piMeta]>
                         (intents st))
                      (set_outbox (outbox st ++ [certificate_mail penv meta]) st))
               /\ update_works cond = true)).
Proof.
  intros sid r. subst r. unfold deliver. cbv zeta. fold sid.
  assert (Quiet : forall (x : Response + string),
             (forall to, x <> inl (delivered_now to)) ->
             (snd (x, st) = st /\ forall to, fst (x, st) <> inl (delivered_now to))
             \/ exists pi meta piMeta,
                  may_send st sid pi meta piMeta
                  /\ truthy (GMAIL_USER penv) = true
                  /\ truthy (GMAIL_APP_PASSWORD penv) = true
                  /\ (((x, st) = (inr "Stripe update failed",
                            set_outbox (outbox st ++ [certificate_mail penv meta]) st)
                       /\ update_works cond = false)
                      \/ ((x, st) = (inl (delivered_now (asStr (field meta "email") 120)),
                               set_intents
                                 (<[pi := with_marker cond (asStr (field meta "email") 120)
                                            piMeta]> (intents st))
                                 (set_outbox (outbox st ++ [certificate_mail penv meta]) st))
                          /\ update_works cond = true))).
  { intros x Hx. left. split; [reflexivity | exact Hx]. }
  destruct (truthy sid) eqn:Hsid; cbn [negb orb];
    [ | apply Quiet; intros to; discriminate].
  destruct (startsWith sid "cs_") eqn:Hcs; cbn [negb];
    [ | apply Quiet; intros to; discriminate].
  destruct (retrieve_works cond); cbn [negb];
    [ | apply Quiet; intros to; discriminate].
  destruct (sessions st !! sid) as [session | ] eqn:Hsess;
    [ | apply Quiet; intros to; discriminate].
  destruct (String.eqb (payment_status session) "paid") eqn:Hpaid; cbn [negb];
    [ | apply Quiet; intros to; discriminate].
  set (meta := default ∅ (metadata session)).
  destruct (String.eqb (toLowerCase (field meta "email_consent")) "yes") eqn:Hyes;
    cbn [negb]; [ | apply Quiet; intros to; discriminate].
  destruct (truthy (asStr (field meta "email") 120)) eqn:Hto; cbn [negb orb];
    [ | apply Quiet; intros to; discriminate].
  destruct (looksLikeEmail (asStr (field meta "email") 120)) eqn:Hmail; cbn [negb];
    [ | apply Quiet; intros to; discriminate].
  destruct (payment_intent session) as [pi | ] eqn:Hpi;
    [ | apply Quiet; intros to; discriminate].
  destruct (truthy pi) eqn:Hpi1; [ | apply Quiet; intros to; discriminate].
  destruct (intents st !! pi) as [piMeta | ] eqn:Hmeta;
    [ | apply Quiet; intros to; discriminate].
  destruct (String.eqb (toLowerCase (field piMeta "certificate_emailed")) "yes") eqn:Hmark;
    [apply Quiet; intros to; discriminate | ].
  destruct (pdf_works cond); cbn [negb]; [ | apply Quiet; intros to; discriminate].
  destruct (truthy (GMAIL_USER penv)) eqn:Hu; cbn [negb];
    [ | apply Quiet; intros to; discriminate].
  destruct (truthy (GMAIL_APP_PASSWORD penv)) eqn:Hp; cbn [negb];
    [ | apply Quiet; intros to; discriminate].
  destruct (sendMail_works cond); cbn [negb];
    [ | apply Quiet; intros to; discriminate].
  right. exists pi, meta, piMeta.
  split.
  { split; [exact Hsid | ]. split; [exact Hcs | ].
    exists session. apply String.eqb_eq in Hpaid, Hyes. apply String.eqb_neq in Hmark.
    repeat (split; [first [reflexivity | assumption] | ]). exact Hmark. }
  split; [reflexivity | ]. split; [reflexivity | ].
  destruct (update_works cond); cbn [negb].
  - right. split; reflexivity.
  - left. split; reflexivity.
Qed.

Lemma field_insert_eq (m : gmap string string) (k v : string) :
  field (<[k := v]> m) k = v.
Proof. unfold field. now rewrite lookup_insert_eq. Qed.

Lemma field_insert_ne (m : gmap string string) (k k' v : string) :
  k <> k' -> field (<[k := v]> m) k' = field m k'.
Proof. intros H. unfold field. now rewrite lookup_insert_ne. Qed.

Lemma create_metadata_fields country mode seed lat lon tile_m email consent :
  let m := create_metadata country mode seed lat lon tile_m email consent in
  field m "country" = country /\ field m "mode" = mode /\ field m "seed" = seed
  /\ field m "lat" = lat /\ field m "lon" = lon /\ field m "tile_m" = tile_m
  /\ field m "email" = email /\ field m "email_consent" = consent.
Proof.
  cbv zeta. unfold create_metadata.
  repeat split;
    repeat first [ apply field_insert_eq
                 | rewrite field_insert_ne by discriminate ].
Qed.

Lemma gt_false (a b : Q) : gt a b = false -> (a <= b)%Q.
Proof. unfold gt. destruct (Qlt_le_dec b a); [discriminate | auto]. Qed.

Lemma gt_true (a b : Q) : gt a b = true -> (b < a)%Q.
Proof. unfold gt. destruct (Qlt_le_dec b a); [auto | discriminate]. Qed.

(** The consent [create] computes. *)
Lemma consent_cases (body : gmap string string) :
  let consent :=
    if String.eqb (toLowerCase (asStr (or_else (field body "email_consent") "no") 10))
         "yes"
    then "yes" else "no" in
  (consent = "yes" /\ String.eqb consent "yes" = true)
  \/ (consent = "no" /\ String.eqb consent "yes" = false).
Proof.
  cbv zeta. destruct (String.eqb _ "yes"); [left | right]; split; reflexivity.
Qed.

(** The create block, case by case: it refuses and leaves the backend as
    it is, or it asks for exactly one session, which is validated and
    records the consent. *)
Lemma create_cases site bi svc body b :
  let r := create site bi svc body b in
  (refusal (fst r) /\ snd r = b)
  \/ exists co,
       snd r = set_checkouts (checkouts b ++ [co]) b
       /\ validated site bi body co
       /\ consent_recorded co
       /\ (field (c_metadata co) "email_consent" = "yes" ->
           field (c_metadata co) "email" = email_of body)
       /\ truthy (STRIPE_PRICE_ID site) = true /\ truthy (SITE_URL site) = true
       /\ fst r = match sessions_create svc co with
                  | Some url => inl (reply 200 [("url", VStr url)])
                  | None => inr "Stripe create failed"
                  end.
Proof.
  cbv zeta. unfold create.
  assert (Refuse : forall code msg, (code = 400 \/ code = 500)%Z ->
            refusal (fst (inl (reply code [("error", VStr msg)]) : Reply + string, b))
            /\ snd (inl (reply code [("error", VStr msg)]) : Reply + string, b) = b).
  { intros code msg H. split; [ | reflexivity]. exists code, msg. auto. }
  destruct (truthy (STRIPE_PRICE_ID site)) eqn:Hp; cbn [negb orb];
    [ | left; apply Refuse; auto].
  destruct (truthy (SITE_URL site)) eqn:Hs; cbn [negb];
    [ | left; apply Refuse; auto].
  cbv zeta. rewrite !or_else_empty.
  destruct (Number_ bi (asStr (field body "lat") 40)) as [latNum | ] eqn:Hlat;
    [ | left; apply Refuse; auto].
  destruct (Number_ bi (asStr (field body "lon") 40)) as [lonNum | ] eqn:Hlon;
    [ | left; apply Refuse; auto].
  destruct (gt (Math_abs latNum) 90) eqn:Glat; cbn [orb];
    [left; apply Refuse; auto | ].
  destruct (gt (Math_abs lonNum) 180) eqn:Glon;
    [left; apply Refuse; auto | ].
  destruct (Number_ bi (or_else (asStr (field body "tile_m") 12) "1"))
    as [tileNum | ] eqn:Htile; [ | left; apply Refuse; auto].
  destruct (gt tileNum 0) eqn:G0; cbn [negb orb]; [ | left; apply Refuse; auto].
  destruct (gt tileNum 1000) eqn:G1; [left; apply Refuse; auto | ].
  set (email := asStr (field body "email") 120).
  destruct (consent_cases body) as [[Hc Hc'] | [Hc Hc']]; cbv zeta in Hc, Hc';
    rewrite Hc; clear Hc.
  - change (String.eqb "yes" "yes") with true. cbn [andb].
    destruct (truthy email) eqn:Ht; cbn [negb orb]; [ | left; apply Refuse; auto].
    destruct (looksLikeEmail email) eqn:Hm; cbn [negb]; [ | left; apply Refuse; auto].
    right. eexists. split.
    { destruct (sessions_create svc _); reflexivity. }
    split.
    { exists latNum, lonNum, tileNum.
      cbn [price c_metadata].
      destruct (create_metadata_fields
                  (or_else (asStr (field body "country") 80) "NZ")
                  (or_else (asStr (field body "mode") 40) "publicish")
                  (asStr (field body "seed") 120)
                  (Number_toFixed_string 6 latNum) (Number_toFixed_string 6 lonNum)
                  (String_ bi tileNum) email "yes")
        as (F1 & F2 & F3 & F4 & F5 & F6 & F7 & F8).
      apply gt_false in Glat, Glon, G1. apply gt_true in G0.
      repeat (split; [first [reflexivity | assumption] | ]). assumption. }
    split.
    { left. cbn [c_metadata customer_email].
      destruct (create_metadata_fields
                  (or_else (asStr (field body "country") 80) "NZ")
                  (or_else (asStr (field body "mode") 40) "publicish")
                  (asStr (field body "seed") 120)
                  (Number_toFixed_string 6 latNum) (Number_toFixed_string 6 lonNum)
                  (String_ bi tileNum) email "yes")
        as (_ & _ & _ & _ & _ & _ & F7 & F8).
      rewrite F7, F8. split; [reflexivity | ]. split; [reflexivity | ].
      split; [exact Hm | apply asStr_length]. }
    split.
    { intros _. cbn [c_metadata]. unfold create_metadata.
      repeat rewrite field_insert_ne by discriminate.
      now rewrite field_insert_eq. }
    split; [reflexivity | ]. split; [reflexivity | ].
    destruct (sessions_create svc _); reflexivity.
  - change (String.eqb "no" "yes") with false. cbn [andb].
    right. eexists. split.
    { destruct (sessions_create svc _); reflexivity. }
    split.
    { exists latNum, lonNum, tileNum.
      cbn [price c_metadata].
      destruct (create_metadata_fields
                  (or_else (asStr (field body "country") 80) "NZ")
                  (or_else (asStr (field body "mode") 40) "publicish")
                  (asStr (field body "seed") 120)
                  (Number_toFixed_string 6 latNum) (Number_toFixed_string 6 lonNum)
                  (String_ bi tileNum) "" "no")
        as (F1 & F2 & F3 & F4 & F5 & F6 & F7 & F8).
      apply gt_false in Glat, Glon, G1. apply gt_true in G0.
      repeat (split; [first [reflexivity | assumption] | ]). assumption. }
    split.
    { right. cbn [c_metadata customer_email].
      destruct (create_metadata_fields
                  (or_else (asStr (field body "country") 80) "NZ")
                  (or_else (asStr (field body "mode") 40) "publicish")
                  (asStr (field body "seed") 120)
                  (Number_toFixed_string 6 latNum) (Number_toFixed_string 6 lonNum)
                  (String_ bi tileNum) "" "no")
        as (_ & _ & _ & _ & _ & _ & F7 & F8).
      rewrite F7, F8. auto. }
    split.
    { cbn [c_metadata]. unfold create_metadata.
      repeat rewrite field_insert_ne by discriminate.
      rewrite field_insert_eq. discriminate. }
    split; [reflexivity | ]. split; [reflexivity | ].
    destruct (sessions_create svc _); reflexivity.
Qed.


(** The verify block writes nothing, and shows the metadata of paid
    sessions only. *)
Lemma verify_cases cond svc q body b :
  let sid := asStr (or_else (field q "session_id") (field body "session_id")) 200 in
  let r := verify cond svc q body b in
  snd r = b
  /\ (forall rep m, fst r = inl rep -> In ("metadata", VMeta m) (data rep) ->
       exists session,
         sessions (store b) !! sid = Some session
         /\ payment_status session = "paid"
         /\ m = default ∅ (metadata session)
         /\ startsWith sid "cs_" = true
         /\ In ("paid", VBool true) (data rep))
  /\ (forall session,
        truthy sid = true -> startsWith sid "cs_" = true ->
        retrieve_works cond = true ->
        sessions (store b) !! sid = Some session ->
        payment_status session <> "paid" ->
        fst r = inl (reply 200 [("paid", VBool false);
                                ("status", VStr (payment_status session))])).
Proof.
  intros sid r. subst r. unfold verify. cbv zeta. fold sid.
  split; [ | split].
  - destruct (negb (truthy sid) || negb (startsWith sid "cs_")); [reflexivity | ].
    destruct (negb (retrieve_works cond)); [reflexivity | ].
    destruct (sessions (store b) !! sid) as [session | ]; [ | reflexivity].
    destruct (negb (String.eqb (payment_status session) "paid")); reflexivity.
  - intros rep m.
    destruct (truthy sid); cbn [negb orb].
    2: { cbn [fst]. intros [= <-] [H | []]. discriminate H. }
    destruct (startsWith sid "cs_") eqn:Hcs; cbn [negb].
    2: { cbn [fst]. intros [= <-] [H | []]. discriminate H. }
    destruct (negb (retrieve_works cond)); [discriminate | ].
    destruct (sessions (store b) !! sid) as [session | ]; [ | discriminate].
    destruct (String.eqb (payment_status session) "paid") eqn:Hpaid; cbn [negb fst].
    + intros [= <-] H. cbn [data reply] in H.
      apply String.eqb_eq in Hpaid.
      destruct H as [H | [H | [H | [H | [H | [H | []]]]]]]; try discriminate H.
      injection H as <-. exists session.
      repeat (split; [first [reflexivity | assumption] | ]).
      cbn [data reply]. left. reflexivity.
    + intros [= <-] H. cbn [data reply] in H.
      destruct H as [H | [H | []]]; discriminate H.
  - intros session Hsid Hcs Hr Hs Hp.
    rewrite Hsid, Hcs, Hr, Hs. cbn [negb orb].
    apply String.eqb_neq in Hp. rewrite Hp. reflexivity.
Qed.






(** A session [create] has asked for. *)
Lemma created_checkout site bi svc body b co :
  checkouts (snd (create site bi svc body b)) = (checkouts b ++ [co])%list ->
  validated site bi body co /\ consent_recorded co
  /\ (field (c_metadata co) "email_consent" = "yes" ->
      field (c_metadata co) "email" = email_of body).
Proof.
  intros H. destruct (create_cases site bi svc body b) as [[_ E] | (co' & E & V & C & M & _)];
    cbv zeta in E; rewrite E in H.
  - apply (f_equal (@length _)) in H. rewrite length_app in H. cbn [length] in H. lia.
  - cbn [set_checkouts checkouts] in H. apply app_inj_tail in H as [_ <-]. auto.
Qed.

(** The address of a consenting session of [create] passes the check of
    [deliver] unchanged. *)
Lemma consent_address co :
  consent_recorded co ->
  field (c_metadata co) "email_consent" = "yes" ->
  asStr (field (c_metadata co) "email") 120 = field (c_metadata co) "email"
  /\ looksLikeEmail (field (c_metadata co) "email") = true.
Proof.
  intros [(_ & _ & Hm & Hl) | (Hno & _)] Hyes; [ | congruence].
  split; [ | exact Hm].
  apply asStr_fix; [now apply looksLikeEmail_spaceless | exact Hl].
Qed.





End EndpointFacts.

(** ** The cycle of the generator *)

Module CycleFacts.
Import JS Rng Run Traces JSFacts RngFacts.
Local Open Scope Z_scope.








End CycleFacts.

(** ** The two water checks compared *)

Module WaterFacts.
Import JS Run CheckFacts.
Local Open Scope string_scope.

Lemma waterTypes_in_words (w : string) : In w V2.waterTypes -> In w V3.waterWords.
Proof.
  unfold V2.waterTypes, V3.waterWords. cbn [In].
  intros H. repeat (destruct H as [<- | H]; [tauto | ]). contradiction.
Qed.

Lemma V2_water_V3 (d : NominatimData) :
  V2.looksWater (V2.judge d) = true -> V3.n_looksWater (V3.judge d) = true.
Proof.
  intros H. apply V3_looksWater_iff.
  revert H. unfold V2.judge. cbv zeta. cbn [V2.looksWater].
  set (type := toLowerCase (d_type d)). set (category := toLowerCase (d_category d)).
  rewrite !orb_true_iff. unfold V2.waterTypes_has. rewrite existsb_exists.
  intros [[[[(w & Hw & E) | H] | H] | H] | H].
  - exists w. split; [now apply waterTypes_in_words | ].
    left. now apply eqb_includes.
  - exists "water". split; [cbn; tauto | auto].
  - exists "sea". split; [cbn; tauto | auto].
  - exists "ocean". split; [cbn; tauto | auto].
  - exists "sea". split; [cbn; tauto | auto].
Qed.

End WaterFacts.

(** ** The two copies of the endpoint *)

Module LegacyFacts.
Import JS Stripe Endpoint Mailing StripeFacts EndpointFacts.
Local Open Scope string_scope.

Lemma metadata_included country mode seed lat lon tile_m email consent k v :
  Legacy.create_metadata country mode seed lat lon !! k = Some v ->
  create_metadata country mode seed lat lon tile_m email consent !! k = Some v.
Proof.
  unfold Legacy.create_metadata, create_metadata.
  destruct (decide (k = "country")) as [-> | N1];
    [rewrite !lookup_insert_eq; auto | ].
  rewrite (lookup_insert_ne _ "country" k) by congruence.
  rewrite (lookup_insert_ne _ "country" k) by congruence.
  destruct (decide (k = "mode")) as [-> | N2];
    [rewrite !lookup_insert_eq; auto | ].
  rewrite (lookup_insert_ne _ "mode" k) by congruence.
  rewrite (lookup_insert_ne _ "mode" k) by congruence.
  destruct (decide (k = "seed")) as [-> | N3];
    [rewrite !lookup_insert_eq; auto | ].
  rewrite (lookup_insert_ne _ "seed" k) by congruence.
  rewrite (lookup_insert_ne _ "seed" k) by congruence.
  destruct (decide (k = "lat")) as [-> | N4];
    [rewrite !lookup_insert_eq; auto | ].
  rewrite (lookup_insert_ne _ "lat" k) by congruence.
  rewrite (lookup_insert_ne _ "lat" k) by congruence.
  destruct (decide (k = "lon")) as [-> | N5];
    [rewrite !lookup_insert_eq; auto | ].
  rewrite (lookup_insert_ne _ "lon" k) by congruence.
  rewrite (lookup_insert_ne _ "lon" k) by congruence.
  rewrite lookup_empty. discriminate.
Qed.

(** The [create] blocks of the two copies, side by side. *)
Lemma create_copies site bi svc body b :
  let rn := create site bi svc body b in
  let rl := Legacy.create site bi svc body b in
  (refusal (fst rl) -> rn = rl)
  /\ ((refusal (fst rn) /\ snd rn = b)
      \/ exists co co0,
           snd rn = set_checkouts (checkouts b ++ [co]) b
           /\ snd rl = set_checkouts (checkouts b ++ [co0]) b
           /\ extends co0 co).
Proof.
  cbv zeta. unfold create, Legacy.create.
  assert (Refuse : forall code msg, (code = 400 \/ code = 500)%Z ->
            refusal (fst (inl (reply code [("error", VStr msg)]) : Reply + string, b))
            /\ snd (inl (reply code [("error", VStr msg)]) : Reply + string, b) = b).
  { intros code msg H. split; [ | reflexivity]. exists code, msg. auto. }
  destruct (negb (truthy (STRIPE_PRICE_ID site)) || negb (truthy (SITE_URL site)));
    [split; [reflexivity | left; apply Refuse; auto] | ].
  cbv zeta. rewrite !or_else_empty.
  destruct (Number_ bi (asStr (field body "lat") 40)) as [latNum | ];
    [ | split; [reflexivity | left; apply Refuse; auto]].
  destruct (Number_ bi (asStr (field body "lon") 40)) as [lonNum | ];
    [ | split; [reflexivity | left; apply Refuse; auto]].
  destruct (gt (Math_abs latNum) 90 || gt (Math_abs lonNum) 180);
    [split; [reflexivity | left; apply Refuse; auto] | ].
  split.
  { intros (code & msg & E & _). destruct (sessions_create svc _); discriminate E. }
  destruct (Number_ bi (or_else (asStr (field body "tile_m") 12) "1"))
    as [tileNum | ]; [ | left; apply Refuse; auto].
  destruct (negb (gt tileNum 0) || gt tileNum 1000); [left; apply Refuse; auto | ].
  match goal with
  | |- context [if ?c then (inl (reply 400 _), b) else _] =>
      destruct c; [left; apply Refuse; auto | ]
  end.
  right.
  match goal with
  | |- context [sessions_create svc ?p] =>
      match goal with
      | |- context [match sessions_create svc ?p0 with
                    | Some _ => _ | None => _ end] =>
          tryif constr_eq p p0 then fail else (exists p, p0)
      end
  end.
  split; [destruct (sessions_create svc _); reflexivity | ].
  split; [destruct (sessions_create svc _); reflexivity | ].
  unfold extends. cbn [price success_url cancel_url customer_email c_metadata].
  repeat (split; [reflexivity | ]).
  intros k v. apply metadata_included.
Qed.

Lemma handlers_verify site bi penv cond svc event b :
  action_of event = "verify" ->
  Legacy.handler site bi penv cond svc event b
  = handler site bi penv cond svc event b.
Proof.
  unfold action_of, Legacy.handler, handler. intros Ha.
  destruct (String.eqb (httpMethod event) "OPTIONS"); [reflexivity | ].
  destruct (negb (truthy (STRIPE_SECRET_KEY penv))); [reflexivity | ].
  destruct (if String.eqb (httpMethod event) "POST" then body event else Some ∅)
    as [body' | ]; [ | reflexivity].
  cbn [default from_option id] in Ha. cbv zeta. rewrite Ha. reflexivity.
Qed.

Lemma legacy_other_actions site bi penv cond svc event b :
  action_of event <> "create" ->
  snd (Legacy.handler site bi penv cond svc event b) = b.
Proof.
  unfold action_of, Legacy.handler. intros Ha.
  destruct (String.eqb (httpMethod event) "OPTIONS"); [reflexivity | ].
  destruct (negb (truthy (STRIPE_SECRET_KEY penv))); [reflexivity | ].
  destruct (if String.eqb (httpMethod event) "POST" then body event else Some ∅)
    as [body' | ]; [ | reflexivity].
  cbn [default from_option id] in Ha. cbv zeta.
  apply String.eqb_neq in Ha. rewrite Ha.
  destruct (String.eqb _ "verify"); [ | reflexivity].
  destruct (verify_cases cond svc (queryStringParameters event) body' b) as [E _].
  cbv zeta in E.
  destruct (verify cond svc (queryStringParameters event) body' b) as [[rep | e] b'];
    exact E.
Qed.

End LegacyFacts.

(** ** From the checkout page to the endpoint *)

Module CheckoutFacts.
Import JS Rng Run Geo Derived Invariants Props Stripe Endpoint Mailing.
Import JSFacts RngFacts GeoFacts PointFacts RoundFacts TileFacts StripeFacts.
Import StringFacts EndpointFacts.
Local Open Scope string_scope.









(** The parts of the file names. *)
Lemma underscore_spaceless (s : string) (b : bool) :
  spaceless (list_ascii_of_string (underscore s b)) = true.
Proof.
  revert b. induction s as [| c s IH]; intros b; cbn [underscore]; [reflexivity | ].
  destruct (isSpace c) eqn:Hc.
  - destruct b; [apply IH | ]. cbn. apply IH.
  - cbn. rewrite Hc. cbn. apply IH.
Qed.

Lemma underscore_nonempty (s : string) :
  s <> "" -> underscore s false <> "".
Proof.
  destruct s as [| c s]; [contradiction | ]. intros _. cbn [underscore].
  destruct (isSpace c); discriminate.
Qed.

Lemma or_else_nonempty (s d : string) : d <> "" -> or_else s d <> "".
Proof. destruct s; [auto | discriminate]. Qed.

End CheckoutFacts.

(** ** The index page of part_000 *)

Module Index1Facts.
Import JS Rng Run Geo Derived Invariants Props Traces.
Import JSFacts RngFacts RollFacts GeoFacts V1Facts CheckoutFacts.
Local Open Scope string_scope.
Local Open Scope Z_scope.









End Index1Facts.

(** * The properties of the specification *)

Import JS Rng Run Geo Derived Invariants Props.
Local Open Scope string_scope.

(** C1. The point generator is deterministic: [rollSpot] (app.js) and
    [rollCenter] (part_001), called with the same country code, mode,
    user seed and attempt number in any two worlds, return the same
    object, hence the same latitude, longitude and seed label; they never
    throw, and they touch no state that existed before the call (the one
    closure they create is new). *)
Theorem C1_point_generator_deterministic (c m u : string) (a : Z) (w1 w2 : World) :
  (exists s, fst (V2.rollSpot c m u a w1) = Ret s
             /\ fst (V2.rollSpot c m u a w2) = Ret s)
  /\ (exists s, fst (V3.rollCenter c m u a w1) = Ret s
                /\ fst (V3.rollCenter c m u a w2) = Ret s)
  /\ only_allocates w1 (snd (V2.rollSpot c m u a w1))
  /\ only_allocates w1 (snd (V3.rollCenter c m u a w1)).
Proof.
  rewrite !RollFacts.V2_rollSpot_run, !RollFacts.V3_rollCenter_run. cbn [fst snd].
  repeat split.
  - now exists (rolled None c m u a).
  - now exists (rolled (Some V3.BRAND) c m u a).
  - now eexists.
  - now eexists.
Qed.

(** C2. Bounds containment: every value the generator returns lies in
    [[0, 1)], and for a country code of the bounds table, any mode, user
    seed and attempt number, the point [rollSpot] (app.js) and
    [rollCenter] (part_001) return, after rounding to 6 decimals, has its
    latitude in [[latMin, latMax]] and its longitude in
    [[lonMin, lonMax]] of that country. *)
Theorem C2_bounds_containment (c : string) (b : Bounds) (m u : string) (a : Z)
    (w : World) :
  COUNTRY_BOUNDS !! c = Some b ->
  (forall t : Z, (0 <= snd (mulberry32_step t) # 4294967296)%Q
                 /\ (snd (mulberry32_step t) # 4294967296 < 1)%Q)
  /\ (exists s, fst (V2.rollSpot c m u a w) = Ret s /\ inside b s)
  /\ (exists s, fst (V3.rollCenter c m u a w) = Ret s /\ inside b s).
Proof.
  intros H. split.
  - intros t. apply GeoFacts.draw_unit. apply RngFacts.mulberry32_step_spec.
  - rewrite RollFacts.V2_rollSpot_run, RollFacts.V3_rollCenter_run. cbn [fst].
    split; eexists; (split; [reflexivity | now apply PointFacts.rolled_inside]).
Qed.

Lemma C2_bounds_containment_witness :
  COUNTRY_BOUNDS !! "NZ" = Some NZ
  /\ exists s, fst (V2.rollSpot "NZ" "publicish" "abc" 1 fresh_world) = Ret s
               /\ inside NZ s.
Proof.
  assert (H : COUNTRY_BOUNDS !! "NZ" = Some NZ) by (vm_compute; reflexivity).
  split; [exact H | ].
  apply (C2_bounds_containment "NZ" NZ "publicish" "abc" 1 fresh_world H).
Defined.






(** C4, as amended. Non-strict shortcut, for a mode other than
    ["publicish"] and [maxAttempts >= 1]. [rollUntilGood] performs exactly
    one point derivation, with attempt number 1, and its result is marked
    accepted ([check.ok = true], level ["lite"] or ["error"]) whatever the
    lookup answers and also when it fails; it does make one external
    call, the reverse-geocoding lookup, and no road-proximity call.
    [rollUntilLikelyLand], when its first lookup returns, performs exactly
    one derivation (attempt 1) and one lookup, and reports the verdict of
    that lookup as it is. *)
Theorem C4_non_strict_shortcut (env : Env) (c m : string) (t : option Q)
    (ma : Z) (w : World) :
  m <> "publicish" -> (1 <= ma)%Z ->
  let u := crypto_randomUUID env (uuids w) in
  let s3 := rolled (Some V3.BRAND) c m u 1 in
  let s2 := rolled None c m u 1 in
  (exists (ck : V3.Check) (w' : World),
      V3.rollUntilGood env c m t (Some ma) w
      = (Ret (Some (tiled env c m t u 1 ck)), w')
      /\ V3.ok ck = true
      /\ (V3.level ck = "lite" \/ V3.level ck = "error")
      /\ derivations w w' = 1%Z
      /\ requests w' = (requests w ++ [ReqNominatim 18 1 (lat s3) (lon s3)])%list)
  /\ (forall d : NominatimData,
        nominatim env (length (requests w)) (ReqNominatim 10 0 (lat s2) (lon s2))
        = Replied d ->
        exists w' : World,
          V2.rollUntilLikelyLand env c m (Some ma) w
          = (Ret (Some s2, Some (V2.judge d)), w')
          /\ derivations w w' = 1%Z
          /\ requests w' = (requests w ++ [ReqNominatim 10 0 (lat s2) (lon s2)])%list).
Proof.
  intros Hm Hma u s3 s2. apply String.eqb_neq in Hm.
  destruct (LoopFacts.to_nat_succ ma Hma) as [n Hn].
  split.
  - rewrite LoopFacts.V3_roll_unfold. cbn [default from_option id]. rewrite Hn.
    rewrite StepFacts.V3_attempts_step. cbv zeta. rewrite Hm. cbn [negb orb].
    fold u. fold s3.
    destruct (LoopFacts.checked_nonstrict env m (lat s3) (lon s3)
                (after_two_draws c m u 1 (set_uuids (S (uuids w)) w)) Hm)
      as (ck & E & Hok & Hlevel).
    rewrite E. cbn [fst snd].
    exists ck. eexists. split; [reflexivity | ].
    split; [exact Hok | ]. split; [exact Hlevel | ].
    split; [ | reflexivity].
    unfold derivations. cbn [heap sent set_requests after_two_draws set_heap set_uuids].
    rewrite length_app. cbn [length]. lia.
  - intros d Hd. rewrite LoopFacts.V2_roll_unfold. cbn [default from_option id].
    rewrite Hn. rewrite StepFacts.V2_attempts_step. cbv zeta.
    fold u. fold s2. change (requests (set_uuids (S (uuids w)) w)) with (requests w).
    rewrite Hd, Hm. cbn [negb orb].
    eexists. split; [reflexivity | ].
    split; [ | reflexivity].
    unfold derivations. cbn [heap sent set_requests after_two_draws set_heap set_uuids].
    rewrite length_app. cbn [length]. lia.
Qed.

Lemma C4_non_strict_shortcut_witness :
  let u := crypto_randomUUID env_ocean 0 in
  let s2 := rolled None "NZ" "anywhere" u 1 in
  "anywhere" <> "publicish" /\ (1 <= 5)%Z
  /\ accepted3 (V3.rollUntilGood env_ocean "NZ" "anywhere" None (Some 5%Z) fresh_world)
     = Some true
  /\ nominatim env_ocean 0 (ReqNominatim 10 0 (lat s2) (lon s2)) = Replied ocean
  /\ fst (V2.rollUntilLikelyLand env_ocean "NZ" "anywhere" (Some 5%Z) fresh_world)
     = Ret (Some s2, Some (V2.judge ocean)).
Proof.
  intros u s2.
  assert (Hm : "anywhere" <> "publicish") by discriminate.
  assert (Hma : (1 <= 5)%Z) by lia.
  split; [exact Hm | ]. split; [exact Hma | ].
  destruct (C4_non_strict_shortcut env_ocean "NZ" "anywhere" None 5 fresh_world Hm Hma)
    as [(ck & w' & E & Hok & _) H2].
  split; [unfold accepted3; rewrite E; cbn [fst tiled V3.check]; now rewrite Hok | ].
  split; [reflexivity | ].
  destruct (H2 ocean eq_refl) as (w2 & E2 & _).
  rewrite E2. reflexivity.
Defined.

(** C4, as stated, fails. In ["anywhere"] mode with every lookup answering
    "ocean", [rollUntilGood] makes one external call (acceptance checking
    is not skipped), and [rollUntilLikelyLand] returns a check that is
    not accepted ([ok = false]); with every lookup failing,
    [rollUntilLikelyLand] performs three derivations and returns the
    third; and with [maxAttempts = 0] [rollUntilGood] derives nothing and
    returns [null]. *)
Lemma C4_counterexample :
  external_calls fresh_world
    (snd (V3.rollUntilGood env_ocean "NZ" "anywhere" None (Some 5%Z) fresh_world))
  = 1%Z
  /\ accepted2 (V2.rollUntilLikelyLand env_ocean "NZ" "anywhere" (Some 3%Z) fresh_world)
     = Some false
  /\ derivations fresh_world
       (snd (V2.rollUntilLikelyLand env_down "NZ" "anywhere" (Some 3%Z) fresh_world))
     = 3%Z
  /\ attempt2 (V2.rollUntilLikelyLand env_down "NZ" "anywhere" (Some 3%Z) fresh_world)
     = Some 3%Z
  /\ fst (V3.rollUntilGood env_ocean "NZ" "anywhere" None (Some 0%Z) fresh_world)
     = Ret None
  /\ derivations fresh_world
       (snd (V3.rollUntilGood env_ocean "NZ" "anywhere" None (Some 0%Z) fresh_world))
     = 0%Z.
Proof. repeat split; vm_compute; reflexivity. Qed.

(** C5, as amended. Retry bound and exhaustion, for [maxAttempts >= 1].
    Both orchestrators return a result (they never throw), perform at
    least one and at most [maxAttempts] point derivations, and return the
    candidate derived last. [rollUntilGood] returns either an accepted
    candidate or, when no attempt was accepted, the candidate of attempt
    [maxAttempts] with [check.level = "exhausted"] and [check.ok = false].
    [rollUntilLikelyLand] returns the last spot with the check object it
    holds at that point (possibly none). *)
Theorem C5_retry_bound (env : Env) (c m : string) (t : option Q) (ma : Z)
    (w : World) :
  (1 <= ma)%Z ->
  let u := crypto_randomUUID env (uuids w) in
  (exists (spot : V3.TileSpot) (w' : World),
      V3.rollUntilGood env c m t (Some ma) w = (Ret (Some spot), w')
      /\ (1 <= derivations w w' <= ma)%Z
      /\ V3.point spot = rolled (Some V3.BRAND) c m u (derivations w w')
      /\ (V3.ok (V3.check spot) = true
          \/ (derivations w w' = ma
              /\ V3.level (V3.check spot) = "exhausted"
              /\ V3.ok (V3.check spot) = false)))
  /\ (exists (spot : Spot) (check : option V2.Check) (w' : World),
        V2.rollUntilLikelyLand env c m (Some ma) w = (Ret (Some spot, check), w')
        /\ (1 <= derivations w w' <= ma)%Z
        /\ spot = rolled None c m u (derivations w w')).
Proof.
  intros Hma u. split.
  - destruct (LoopFacts.V3_roll_run env c m t ma w Hma)
      as (spot & w' & E & Hd & _ & Hp & _ & Hx).
    exists spot, w'. auto.
  - destruct (LoopFacts.V2_roll_run env c m ma w Hma)
      as (k & check & w' & E & Hk & Hd & _).
    eexists. exists check, w'. split; [exact E | ].
    rewrite Hd. auto.
Qed.

Lemma C5_retry_bound_witness :
  (1 <= 5)%Z
  /\ exists (spot : V3.TileSpot) (w' : World),
       V3.rollUntilGood env_ocean "NZ" "publicish" None (Some 5%Z) fresh_world
       = (Ret (Some spot), w')
       /\ (1 <= derivations fresh_world w' <= 5)%Z.
Proof.
  assert (Hma : (1 <= 5)%Z) by lia.
  split; [exact Hma | ].
  destruct (C5_retry_bound env_ocean "NZ" "publicish" None 5 fresh_world Hma)
    as [(spot & w' & E & Hd & _) _].
  exists spot, w'. auto.
Defined.

(** C5, as stated, fails on [rollUntilLikelyLand]: its result has no
    confidence level. In ["publicish"] mode with [maxAttempts = 2], when
    both lookups answer "ocean" the check returned is the plain verdict
    of the second lookup, and when both lookups fail no check object is
    returned at all, so neither [exhausted] nor [accepted = false] is
    reported. *)
Lemma C5_counterexample :
  fst (V2.rollUntilLikelyLand env_ocean "NZ" "publicish" (Some 2%Z) fresh_world)
  = Ret (Some (rolled None "NZ" "publicish" "3b241101-e2bb-4255-8caf-4136c566a962" 2),
         Some {| V2.ok := false; V2.looksWater := true;
                 V2.place := "South Pacific Ocean"; V2.rawType := "ocean";
                 V2.rawCategory := "natural" |})
  /\ fst (V2.rollUntilLikelyLand env_down "NZ" "publicish" (Some 2%Z) fresh_world)
     = Ret (Some (rolled None "NZ" "publicish" "3b241101-e2bb-4255-8caf-4136c566a962" 2),
            None).
Proof. split; vm_compute; reflexivity. Qed.

(** C6, as amended. Check-call failure in ["publicish"] mode. Neither
    orchestrator ever throws, and an attempt whose lookup failed is spent
    like any other. [rollUntilLikelyLand]: after a failed lookup at
    attempt 1 or 2 the loop goes on with the next attempt; after a failed
    lookup at any attempt from 3 on it stops and returns the current
    candidate with the ["Lookup unavailable"] check, whose [ok] is false,
    whatever the earlier lookups answered. [rollUntilGood]: after a failed
    reverse lookup the candidate is rejected with level ["error"] and the
    loop goes on; after a failed road lookup that follows a passing
    reverse lookup the candidate is accepted at once with level
    ["fallback"]. *)
Theorem C6_check_call_failure (env : Env) (c : string) (t : option Q)
    (u : string) (n : nat) (i : Z) (w : World) :
  let s2 := rolled None c "publicish" u i in
  let s3 := rolled (Some V3.BRAND) c "publicish" u i in
  let w2 := sent (ReqNominatim 10 0 (lat s2) (lon s2))
              (after_two_draws c "publicish" u i w) in
  let w3 := sent (ReqNominatim 18 1 (lat s3) (lon s3))
              (after_two_draws c "publicish" u i w) in
  (forall ma, exists r w', V2.rollUntilLikelyLand env c "publicish" ma w = (Ret r, w'))
  /\ (forall ma, exists r w', V3.rollUntilGood env c "publicish" t ma w = (Ret r, w'))
  /\ (forall e spot check,
        nominatim env (length (requests w)) (ReqNominatim 10 0 (lat s2) (lon s2))
        = Failed e ->
        V2.attempts env c "publicish" u (S n) i spot check w
        = if (3 <=? i)%Z
          then (Ret (Some s2, Some V2.lookup_unavailable), w2)
          else V2.attempts env c "publicish" u n (i + 1) (Some s2) check w2)
  /\ (forall e best,
        nominatim env (length (requests w)) (ReqNominatim 18 1 (lat s3) (lon s3))
        = Failed e ->
        V3.attempts env c "publicish" t u (S n) i best w
        = V3.attempts env c "publicish" t u n (i + 1)
            (Some (tiled env c "publicish" t u i
                     (check_error "publicish" (thrown e "Nominatim reverse failed"))))
            w3)
  /\ (forall d e best,
        nominatim env (length (requests w)) (ReqNominatim 18 1 (lat s3) (lon s3))
        = Replied d ->
        V3.n_ok (V3.judge d) = true ->
        overpass env (length (requests w3)) (ReqOverpass 3000 (lat s3) (lon s3))
        = Failed e ->
        exists ck,
          V3.attempts env c "publicish" t u (S n) i best w
          = (Ret (inl (tiled env c "publicish" t u i ck)),
             sent (ReqOverpass 3000 (lat s3) (lon s3)) w3)
          /\ V3.ok ck = true /\ V3.level ck = "fallback").
Proof.
  intros s2 s3 w2 w3.
  split; [ | split; [ | split; [ | split]]].
  - intros ma. rewrite LoopFacts.V2_roll_unfold.
    destruct (LoopFacts.V2_attempts_run env c "publicish"
                (crypto_randomUUID env (uuids w)) (Z.to_nat (default 8%Z ma)) 1 None None
                (set_uuids (S (uuids w)) w)) as (k & ck & w' & E & _).
    rewrite E. eauto.
  - intros ma. rewrite LoopFacts.V3_roll_unfold.
    destruct (LoopFacts.V3_attempts_run env c "publicish" t
                (crypto_randomUUID env (uuids w)) (Z.to_nat (default 30%Z ma)) 1 None
                (set_uuids (S (uuids w)) w)) as (k & r & w' & E & _).
    rewrite E. destruct r; eauto.
  - intros e spot check H. rewrite StepFacts.V2_attempts_step. cbv zeta.
    fold s2. rewrite H. reflexivity.
  - intros e best H. rewrite StepFacts.V3_attempts_step. cbv zeta. fold s3.
    rewrite StepFacts.checked_cases. cbv zeta.
    rewrite StepFacts.after_two_draws_requests, H. reflexivity.
  - intros d e best H Hok Ho. rewrite StepFacts.V3_attempts_step. cbv zeta. fold s3.
    rewrite StepFacts.checked_cases. cbv zeta.
    rewrite StepFacts.after_two_draws_requests, H. cbn [String.eqb Ascii.eqb Bool.eqb negb].
    rewrite Hok. cbn [negb]. fold w3. rewrite Ho. cbn [fst snd V3.ok orb].
    eexists. split; [reflexivity | ]. split; reflexivity.
Qed.

Lemma C6_check_call_failure_witness :
  let s2 := rolled None "NZ" "publicish" "abc" 1 in
  let s3 := rolled (Some V3.BRAND) "NZ" "publicish" "abc" 1 in
  let w0 := after_two_draws "NZ" "publicish" "abc" 1 fresh_world in
  let w3 := sent (ReqNominatim 18 1 (lat s3) (lon s3)) w0 in
  (nominatim env_down 0 (ReqNominatim 10 0 (lat s2) (lon s2)) = Failed BadStatus
   /\ V2.attempts env_down "NZ" "publicish" "abc" 3 1 None None fresh_world
      = V2.attempts env_down "NZ" "publicish" "abc" 2 2 (Some s2) None
          (sent (ReqNominatim 10 0 (lat s2) (lon s2)) w0))
  /\ (nominatim env_down 0 (ReqNominatim 18 1 (lat s3) (lon s3)) = Failed BadStatus
      /\ V3.attempts env_down "NZ" "publicish" None "abc" 3 1 None fresh_world
         = V3.attempts env_down "NZ" "publicish" None "abc" 2 2
             (Some (tiled env_down "NZ" "publicish" None "abc" 1
                      (check_error "publicish" "Nominatim reverse failed")))
             w3)
  /\ (nominatim env_roads_down 0 (ReqNominatim 18 1 (lat s3) (lon s3)) = Replied town
      /\ V3.n_ok (V3.judge town) = true
      /\ overpass env_roads_down 1 (ReqOverpass 3000 (lat s3) (lon s3))
         = Failed BadStatus
      /\ exists ck,
           V3.attempts env_roads_down "NZ" "publicish" None "abc" 3 1 None fresh_world
           = (Ret (inl (tiled env_roads_down "NZ" "publicish" None "abc" 1 ck)),
              sent (ReqOverpass 3000 (lat s3) (lon s3)) w3)
           /\ V3.ok ck = true /\ V3.level ck = "fallback").
Proof.
  intros s2 s3 w0 w3.
  destruct (C6_check_call_failure env_down "NZ" None "abc" 2 1 fresh_world)
    as (_ & _ & H2 & H3 & _).
  destruct (C6_check_call_failure env_roads_down "NZ" None "abc" 2 1 fresh_world)
    as (_ & _ & _ & _ & H4).
  split; [ | split].
  - split; [reflexivity | ].
    apply (H2 BadStatus None None). reflexivity.
  - split; [reflexivity | ].
    apply (H3 BadStatus None). reflexivity.
  - split; [reflexivity | ]. split; [reflexivity | ]. split; [reflexivity | ].
    apply (H4 town BadStatus None); reflexivity.
Defined.

(** C6, as stated, fails on the fall-back rule. In ["publicish"] mode:
    (1) with the first two lookups answering "ocean" and the third
    failing, [rollUntilLikelyLand] with a budget of 10 stops at attempt 3
    on that single failure, although checks had succeeded before, and the
    candidate it returns is not marked accepted; (2) with reverse
    lookups passing and the road service failing, [rollUntilGood] accepts
    the first candidate after one failed call, in an attempt whose
    reverse check succeeded; (3) with every lookup failing,
    [rollUntilGood] with a budget of 5 never falls back to accepting: it
    ends exhausted after 5 consecutive failures. *)
Lemma C6_counterexample :
  (attempt2 (V2.rollUntilLikelyLand env_third_fails "NZ" "publicish" (Some 10%Z) fresh_world)
   = Some 3%Z
   /\ accepted2 (V2.rollUntilLikelyLand env_third_fails "NZ" "publicish" (Some 10%Z)
                   fresh_world)
      = Some false
   /\ derivations fresh_world
        (snd (V2.rollUntilLikelyLand env_third_fails "NZ" "publicish" (Some 10%Z)
                fresh_world))
      = 3%Z)
  /\ (attempt3 (V3.rollUntilGood env_roads_down "NZ" "publicish" None (Some 35%Z)
                  fresh_world)
      = Some 1%Z
      /\ accepted3 (V3.rollUntilGood env_roads_down "NZ" "publicish" None (Some 35%Z)
                      fresh_world)
         = Some true
      /\ level3 (V3.rollUntilGood env_roads_down "NZ" "publicish" None (Some 35%Z)
                   fresh_world)
         = Some "fallback")
  /\ (attempt3 (V3.rollUntilGood env_down "NZ" "publicish" None (Some 5%Z) fresh_world)
      = Some 5%Z
      /\ accepted3 (V3.rollUntilGood env_down "NZ" "publicish" None (Some 5%Z)
                      fresh_world)
         = Some false
      /\ level3 (V3.rollUntilGood env_down "NZ" "publicish" None (Some 5%Z) fresh_world)
         = Some "exhausted").
Proof. repeat split; vm_compute; reflexivity. Qed.




(** C8, as amended. The place-type check of part_001
    ([reverseCheckNominatim]) rejects a reply exactly when the lower-cased
    type or category contains one of the twelve water keywords, or the
    address has no country, or there is neither a road-like nor a
    place-like address field and the trimmed display name has at most 12
    characters; otherwise it passes; either way it returns the place
    label (the display name, or "Unknown") with the type, the category
    and the three signals. The check of app.js ([reverseCheck]) rejects
    exactly when the type is one of its ten keywords, or the category
    contains "water" or "sea", or the type contains "ocean" or "sea", or
    the trimmed display name has fewer than 6 characters; it looks at
    neither "coastline" and "beach" nor the country nor the locality. *)
Theorem C8_place_type_check (d : NominatimData) :
  (V3.n_ok (V3.judge d) = false <-> rejects_nominatim d)
  /\ (V3.n_ok (V3.judge d) = true <-> ~ rejects_nominatim d)
  /\ V3.n_place (V3.judge d) = or_else (trim (d_display_name d)) "Unknown"
  /\ V3.n_type (V3.judge d) = toLowerCase (d_type d)
  /\ V3.n_category (V3.judge d) = toLowerCase (d_category d)
  /\ (V2.ok (V2.judge d) = false <-> rejects_reverse d)
  /\ V2.place (V2.judge d) = or_else (trim (d_display_name d)) "Unknown"
  /\ V2.rawType (V2.judge d) = or_else (toLowerCase (d_type d)) "unknown"
  /\ V2.rawCategory (V2.judge d) = or_else (toLowerCase (d_category d)) "unknown".
Proof.
  assert (H3 : V3.n_ok (V3.judge d) = false <-> rejects_nominatim d).
  { rewrite CheckFacts.V3_ok_bool. unfold rejects_nominatim. cbv zeta.
    pose proof (CheckFacts.V3_looksWater_iff d) as HW.
    destruct (CheckFacts.V3_signals d) as (HR & HP & HC). cbv zeta in HR, HP, HC.
    rewrite <- HW, <- HC.
    destruct (V3.n_looksWater (V3.judge d)),
             (V3.hasCountry (V3.signals (V3.judge d))),
             (V3.hasRoadish (V3.signals (V3.judge d))),
             (V3.hasPlaceish (V3.signals (V3.judge d)));
      cbn [negb andb orb];
      destruct (Z.ltb_spec 12 (str_length (trim (d_display_name d))));
      intuition (try discriminate; try lia). }
  split; [exact H3 | ].
  split.
  { rewrite <- H3. destruct (V3.n_ok (V3.judge d)); split; intros; congruence. }
  split; [reflexivity | ]. split; [reflexivity | ]. split; [reflexivity | ].
  split; [ | repeat split].
  unfold V2.judge, rejects_reverse. cbv zeta. cbn [V2.ok].
  set (type := toLowerCase (d_type d)). set (category := toLowerCase (d_category d)).
  set (display := trim (d_display_name d)).
  assert (HT : V2.waterTypes_has type = true <-> In type V2.waterTypes).
  { unfold V2.waterTypes_has. rewrite existsb_exists. split.
    - intros (w & Hw & E). apply String.eqb_eq in E. now subst.
    - intros Hin. exists type. split; [exact Hin | apply String.eqb_refl]. }
  rewrite <- HT.
  destruct (V2.waterTypes_has type), (includes category "water"),
           (includes category "sea"), (includes type "ocean"), (includes type "sea");
    cbn [negb andb orb];
    destruct (Z.leb_spec 6 (str_length display));
    intuition (try discriminate; try lia).
Qed.

(** C8, as stated, fails on [reverseCheck] of app.js: a reply of type
    "beach" without any address details, hence without country
    attribution, passes that check; [reverseCheckNominatim] rejects it. *)
Lemma C8_counterexample :
  V2.ok (V2.judge beach) = true
  /\ includes (toLowerCase (d_type beach)) "beach" = true
  /\ In "beach" V3.waterWords
  /\ d_address beach = None
  /\ V3.n_ok (V3.judge beach) = false.
Proof. repeat split; vm_compute; auto 15. Qed.

(** C9, as amended. Idempotent e-mail delivery, with the endpoint
    configured. (1) For a session whose payment intent carries the
    delivery marker, a deliver call sends no e-mail and writes nothing,
    whatever the collaborators do. (2) For a paid session that opted in
    with a well-formed address: with the marker, the call answers
    200 "Already emailed" and leaves the store as it is; without the
    marker and with every collaborator answering, the call answers
    200 delivered, has sent exactly one e-mail to that address and has
    written the marker, and a second call, whatever the collaborators do
    then, sends nothing more: the two calls send exactly one e-mail. *)
Theorem C9_idempotent_delivery (penv : Stripe.ProcessEnv)
    (c1 c2 : Stripe.Conditions) (sid pi to : string) (st : Stripe.Store) :
  configured penv -> deliverable st sid pi to ->
  (forall cond sid0 st0 session0 pi0,
      Stripe.asStr sid0 200 = sid0 -> startsWith sid0 "cs_" = true ->
      Stripe.sessions st0 !! sid0 = Some session0 ->
      Stripe.payment_intent session0 = Some pi0 ->
      marked st0 pi0 ->
      store_after (Stripe.handler penv cond (deliver_request sid0) st0) st0 = st0)
  /\ (marked st pi -> Stripe.retrieve_works c1 = true ->
      Stripe.handler penv c1 (deliver_request sid) st
      = Some (Stripe.json 200
                [("ok", Stripe.JBool true); ("delivered", Stripe.JBool true);
                 ("to", Stripe.JStr to);
                 ("message", Stripe.JStr "Already emailed (idempotent).")],
              st))
  /\ (~ marked st pi -> all_work c1 ->
      exists (mail : Stripe.Mail) (st1 : Stripe.Store),
        Stripe.handler penv c1 (deliver_request sid) st
        = Some (Stripe.json 200
                  [("ok", Stripe.JBool true); ("delivered", Stripe.JBool true);
                   ("to", Stripe.JStr to)],
                st1)
        /\ Stripe.outbox st1 = (Stripe.outbox st ++ [mail])%list
        /\ Stripe.m_to mail = to
        /\ marked st1 pi
        /\ Stripe.outbox (deliver_twice penv c1 c2 sid st)
           = (Stripe.outbox st ++ [mail])%list).
Proof.
  intros Hconf Hdel.
  pose proof Hconf as (Hkey & _).
  destruct Hdel as (Hsid & Hcs & session & Hsess & Hpaid & Hcons & Hto & Hto1 & Hto2
                    & Hpi & Hpi1 & piMeta & Hmeta).
  split; [ | split].
  - intros cond sid0 st0 session0 pi0 H1 H2 H3 H4 H5.
    rewrite StripeFacts.store_after_handler by exact Hkey.
    apply (StripeFacts.deliver_marked_silent penv cond _ _ st0 sid0 pi0 session0);
      auto using StripeFacts.request_session_id.
  - intros Hm Hr. rewrite StripeFacts.handler_deliver by exact Hkey.
    rewrite (StripeFacts.deliver_marked penv c1 _ _ st sid pi to session);
      auto using StripeFacts.request_session_id.
  - intros Hno Hall.
    assert (Hne : toLowerCase (Stripe.field piMeta "certificate_emailed") <> "yes").
    { intros E. apply Hno. exists piMeta. auto. }
    pose proof Hall as (Hr & _).
    pose proof (StripeFacts.deliver_fresh penv c1 _ ∅ st sid pi to session
                  (StripeFacts.request_session_id sid Hsid) Hcs Hsess Hpi Hpaid Hcons
                  Hto Hto1 Hto2 Hpi1 Hr piMeta Hmeta Hne Hconf Hall) as E.
    set (st1 := sent_and_marked penv c1 st session pi to piMeta) in *.
    assert (Hm1 : marked st1 pi) by apply StripeFacts.sent_and_marked_marked.
    eexists. exists st1.
    split; [rewrite StripeFacts.handler_deliver by exact Hkey; rewrite E; reflexivity | ].
    split; [reflexivity | ]. split; [reflexivity | ]. split; [exact Hm1 | ].
    unfold deliver_twice.
    rewrite (StripeFacts.store_after_handler penv c1 sid st Hkey), E. cbn [snd].
    rewrite (StripeFacts.store_after_handler penv c2 sid st1 Hkey).
    rewrite (StripeFacts.deliver_marked_silent penv c2 _ _ st1 sid pi session);
      auto using StripeFacts.request_session_id.
Qed.

Lemma C9_idempotent_delivery_witness :
  configured penv_ok
  /\ deliverable (shop "yes") "cs_test_1" "pi_1" "pat@example.com"
  /\ length (Stripe.outbox (deliver_twice penv_ok fair update_down "cs_test_1"
                              (shop "yes"))) = 1%nat.
Proof.
  assert (Hc : configured penv_ok) by (repeat split).
  assert (Hd : deliverable (shop "yes") "cs_test_1" "pi_1" "pat@example.com").
  { split; [reflexivity | ]. split; [reflexivity | ].
    exists (paid_session "yes"). repeat split. now exists ∅. }
  assert (Hn : ~ marked (shop "yes") "pi_1").
  { intros (piMeta & H1 & H2). vm_compute in H1. injection H1 as <-.
    vm_compute in H2. discriminate H2. }
  assert (Ha : all_work fair) by (repeat split).
  split; [exact Hc | ]. split; [exact Hd | ].
  destruct (C9_idempotent_delivery penv_ok fair update_down "cs_test_1" "pi_1"
              "pat@example.com" (shop "yes") Hc Hd)
    as (_ & _ & H).
  destruct (H Hn Ha) as (mail & st1 & _ & _ & _ & _ & E).
  rewrite E. reflexivity.
Defined.

(** C9, as stated, fails in two ways. A paid session that did not opt in
    gets no e-mail, however often the delivery path is called: not
    exactly one. And a send that succeeds is not always followed by the
    marker: when the update of the payment intent fails after the send,
    the call answers 500, the marker is missing, and the next call sends
    the e-mail again, two in all. *)
Lemma C9_counterexample :
  length (Stripe.outbox (deliver_twice penv_ok fair fair "cs_test_1" (shop "no")))
  = 0%nat
  /\ response_of (Stripe.handler penv_ok update_down (deliver_request "cs_test_1")
                    (shop "yes"))
     = Some (Stripe.json 500 [("error", Stripe.JStr "Server error");
                              ("detail", Stripe.JStr "Stripe update failed")])
  /\ length (Stripe.outbox
               (store_after (Stripe.handler penv_ok update_down
                               (deliver_request "cs_test_1") (shop "yes"))
                  (shop "yes")))
     = 1%nat
  /\ Stripe.intents
       (store_after (Stripe.handler penv_ok update_down
                       (deliver_request "cs_test_1") (shop "yes"))
          (shop "yes"))
     = Stripe.intents (shop "yes")
  /\ length (Stripe.outbox
               (deliver_twice penv_ok update_down fair "cs_test_1" (shop "yes")))
     = 2%nat.
Proof. repeat split; vm_compute; reflexivity. Qed.

(** * Further properties of the code *)

Import Traces Mailing.

(** X1. Rerolls change the seed: the hash never maps two strings that
    differ in exactly one character to the same seed, so two different
    attempt numbers between 0 and 9, for the same country code, mode and
    user seed, give different 32-bit seeds and different seed labels in
    [rollSpot] and [rollCenter]. *)
Theorem X1_reroll_changes_seed (c m u : string) (i j : Z) (w : World)
    (pre suf : string) (c1 c2 : ascii) :
  (0 <= i <= 9)%Z -> (0 <= j <= 9)%Z -> i <> j ->
  (c1 <> c2 ->
   hashStrToSeed (pre ++ String c1 suf) <> hashStrToSeed (pre ++ String c2 suf))
  /\ hashStrToSeed (Spec.request_string c m u i)
     <> hashStrToSeed (Spec.request_string c m u j)
  /\ (forall si sj,
        fst (V2.rollSpot c m u i w) = Ret si ->
        fst (V2.rollSpot c m u j w) = Ret sj -> seed si <> seed sj)
  /\ (forall si sj,
        fst (V3.rollCenter c m u i w) = Ret si ->
        fst (V3.rollCenter c m u j w) = Ret sj -> seed si <> seed sj).
Proof.
  intros Hi Hj Hne.
  assert (Hseed : hashStrToSeed (Spec.request_string c m u i)
                  <> hashStrToSeed (Spec.request_string c m u j)).
  { destruct (HashFacts.digit_string i Hi) as (di & Ei & Ci).
    destruct (HashFacts.digit_string j Hj) as (dj & Ej & Cj).
    rewrite (HashFacts.request_string_split c m u i di Ei),
            (HashFacts.request_string_split c m u j dj Ej).
    apply HashFacts.one_character_apart. intros ->. lia. }
  assert (Hlabel : forall br br', seed (rolled br c m u i) <> seed (rolled br' c m u j)).
  { intros br br' E. apply Hseed. unfold rolled in E. cbv zeta in E.
    destruct (Spec.two_draws _) as [k1 k2]. destruct (Spec.two_draws _) as [k3 k4].
    cbn [seed] in E.
    apply (f_equal list_ascii_of_string) in E. rewrite !LabelFacts.label_chars in E.
    apply LabelFacts.cut_at_last in E; try apply LabelFacts.toString16_no_dash.
    destruct E as [_ E]. apply LabelFacts.chars_inj in E.
    apply HashFacts.toString16_inj in E; [exact E | | ];
      apply RngFacts.hashStrToSeed_range. }
  split; [apply HashFacts.one_character_apart | ].
  split; [exact Hseed | ].
  split; intros si sj.
  - rewrite !RollFacts.V2_rollSpot_run. cbn [fst].
    intros [= <-] [= <-]. apply Hlabel.
  - rewrite !RollFacts.V3_rollCenter_run. cbn [fst].
    intros [= <-] [= <-]. apply Hlabel.
Qed.

Lemma X1_reroll_changes_seed_witness :
  (0 <= 1 <= 9)%Z /\ (0 <= 2 <= 9)%Z /\ 1%Z <> 2%Z
  /\ hashStrToSeed (Spec.request_string "NZ" "publicish" "abc" 1)
     <> hashStrToSeed (Spec.request_string "NZ" "publicish" "abc" 2).
Proof.
  assert (H1 : (0 <= 1 <= 9)%Z) by lia.
  assert (H2 : (0 <= 2 <= 9)%Z) by lia.
  assert (H3 : 1%Z <> 2%Z) by lia.
  repeat (split; [assumption | ]).
  apply (X1_reroll_changes_seed "NZ" "publicish" "abc" 1 2 fresh_world
           "" "" "a"%char "b"%char H1 H2 H3).
Defined.

(** X2. [rollSpot] of part_000 in any mode, for a country code of the
    table: it returns a point of that country's rectangle (after
    rounding), labelled with the code, the mode and the seed in
    hexadecimal, and it stops: outside ["publicish"] mode it calls the
    generator exactly twice, in ["publicish"] mode three times per
    candidate for at least one and at most 120 candidates. *)
Theorem X2_part000_rollSpot (c : string) (b : Bounds) (m u : string) (a : Z)
    (w : World) :
  COUNTRY_BOUNDS !! c = Some b ->
  exists (s : Spot) (draws : Z),
    V1.rollSpot c m u a w
    = (Ret s,
       set_heap (heap w ++ [(hashStrToSeed (Spec.request_string c m u a)
                             + draws * 1831565813)%Z]) w)
    /\ inside b s
    /\ country s = name b /\ countryCode s = c /\ mode s = m /\ rerolls s = a
    /\ seed s = Spec.seedLabel c m u a
    /\ (m <> "publicish" -> draws = 2%Z)
    /\ (m = "publicish" -> exists k : Z, (1 <= k <= 120)%Z /\ draws = (3 * k)%Z).
Proof.
  intros H.
  pose proof (GeoFacts.COUNTRY_BOUNDS_well_formed c b H) as W.
  pose proof (GeoFacts.boundsFor_known c b H) as HB.
  destruct (String.eqb m "publicish") eqn:Hm.
  - apply String.eqb_eq in Hm. subst m.
    unfold V1.rollSpot. cbv zeta. rewrite HB.
    fold (Spec.request_string c "publicish" u a).
    set (s := hashStrToSeed (Spec.request_string c "publicish" u a)).
    pose proof (RngFacts.hashStrToSeed_range (Spec.request_string c "publicish" u a)) as Hs.
    fold s in Hs.
    change (String.eqb "publicish" "publicish") with true. cbv iota.
    unfold bind at 1. rewrite RollFacts.mulberry32_run.
    rewrite JSFacts.ushr_0, JSFacts.ToUint32_small by exact Hs.
    destruct (BiasFacts.roll_loop_publicish b (heap w) w 119 s 0%Q 0%Q)
      as (p & k & Hrun & Hk & Hp).
    unfold bind at 1. rewrite Hrun. unfold ret.
    eexists. exists (3 * Z.of_nat k)%Z. split; [reflexivity | ].
    cbn [country countryCode mode rerolls seed lat lon].
    split; [unfold inside; cbn [lat lon]; now apply V1Facts.drawn_rounded_inside | ].
    repeat (split; [reflexivity | ]).
    split; [unfold Spec.seedLabel; subst s; now rewrite RngFacts.hashStrToSeed_fnv1a32 | ].
    split; [intros N; now contradiction N | ].
    intros _. exists (Z.of_nat k). split; [lia | reflexivity].
  - rewrite (PointFacts.V1_rollSpot_run c m u a w Hm).
    exists (rolled None c m u a), 2%Z. split; [reflexivity | ].
    split; [now apply PointFacts.rolled_inside | ].
    destruct (PointFacts.rolled_follows None c m u a) as (_ & _ & E3).
    unfold rolled in *. cbv zeta in *. rewrite HB.
    destruct (Spec.two_draws _) as [k1 k2].
    cbn [country countryCode mode rerolls seed] in *.
    repeat (split; [reflexivity | ]).
    split; [exact E3 | ].
    split; [reflexivity | ].
    intros ->. discriminate Hm.
Qed.

Lemma X2_part000_rollSpot_witness :
  COUNTRY_BOUNDS !! "NZ" = Some NZ
  /\ exists (s : Spot) (draws : Z),
       V1.rollSpot "NZ" "publicish" "abc" 1 fresh_world
       = (Ret s,
          set_heap (heap fresh_world
                    ++ [(hashStrToSeed (Spec.request_string "NZ" "publicish" "abc" 1)
                         + draws * 1831565813)%Z]) fresh_world)
       /\ inside NZ s.
Proof.
  assert (H : COUNTRY_BOUNDS !! "NZ" = Some NZ) by (vm_compute; reflexivity).
  split; [exact H | ].
  destruct (X2_part000_rollSpot "NZ" NZ "publicish" "abc" 1 fresh_world H)
    as (s & draws & E & Hin & _).
  exists s, draws. auto.
Defined.

(** X3. The land bias of part_000 never makes a candidate certain to
    pass or certain to fail: [oceanishHeuristic] is a score between 0 and
    1, and [landBiasAccept] takes exactly one value from the generator
    and compares it with a threshold between 0.05 and 0.95, so that a
    value below 0.05 always accepts and a value from 0.95 on always
    rejects, wherever the candidate lies. *)
Theorem X3_land_bias_bounded (lat lon : Q) (h : list Z) (t : Z) (w : World) :
  let u := (snd (mulberry32_step t) # 4294967296)%Q in
  (0 <= V1.oceanishHeuristic lat lon /\ V1.oceanishHeuristic lat lon <= 1)%Q
  /\ exists accepted : bool,
       V1.landBiasAccept lat lon (length h) (set_heap (h ++ [t]) w)
       = (Ret accepted, set_heap (h ++ [(t + 1831565813)%Z]) w)
       /\ ((u < 5 # 100)%Q -> accepted = true)
       /\ ((95 # 100 <= u)%Q -> accepted = false).
Proof.
  intros u. split; [apply BiasFacts.oceanishHeuristic_unit | ].
  destruct (BiasFacts.landBiasAccept_run lat lon h t w) as (thr & [T1 T2] & E).
  eexists. split; [exact E | ]. fold u.
  destruct (Qlt_le_dec u thr); split; intros Hu; try reflexivity; lra.
Qed.

(** X4. What stands behind an accepted tile in ["publicish"] mode:
    [rollUntilGood] with a budget of at least one attempt hands back a
    spot, and when that spot is marked accepted, the reverse lookup of
    its own coordinates was answered, did not look like water and named
    a country, and the road lookup of the same coordinates either found
    at least one road within 3000 m (level ["strong"]) or failed (level
    ["fallback"]); a spot that is not accepted is the exhausted one. *)
Theorem X4_strict_acceptance_backed (env : Env) (c : string) (t : option Q)
    (ma : Z) (w : World) :
  (1 <= ma)%Z ->
  exists (spot : V3.TileSpot) (w' : World),
    V3.rollUntilGood env c "publicish" t (Some ma) w = (Ret (Some spot), w')
    /\ (V3.ok (V3.check spot) = true ->
        backed env (lat (V3.point spot)) (lon (V3.point spot)) (V3.check spot))
    /\ (V3.ok (V3.check spot) = false ->
        V3.level (V3.check spot) = "exhausted" /\ derivations w w' = ma).
Proof.
  intros Hma.
  destruct (PageFacts.V3_roll_full env c "publicish" t (Some ma) w)
    as (roads & r & E & Hk & _ & D).
  destruct (D Hma) as (spot & -> & H1 & _ & _ & Hc).
  exists spot. eexists. split; [exact E | ].
  destruct Hc as [[Hok Hh] | (Hok & Hl & Hn)].
  - split; [intros _; now apply PageFacts.checked_here_backed | ].
    rewrite Hok. discriminate.
  - split; [rewrite Hok; discriminate | ].
    intros _. split; [exact Hl | ].
    destruct (PageFacts.grown_counts
                (closures c "publicish" (crypto_randomUUID env (uuids w)) 1 (length roads))
                (lookups3 c "publicish" (crypto_randomUUID env (uuids w)) 1 roads)
                w (set_uuids (S (uuids w)) w) eq_refl eq_refl) as [Hd _].
    rewrite Hd, TraceFacts.closures_length. exact Hn.
Qed.

Lemma X4_strict_acceptance_backed_witness :
  exists (spot : V3.TileSpot) (w' : World),
    V3.rollUntilGood env_roads_down "NZ" "publicish" None (Some 35%Z) fresh_world
    = (Ret (Some spot), w')
    /\ (V3.ok (V3.check spot) = true ->
        backed env_roads_down (lat (V3.point spot)) (lon (V3.point spot))
          (V3.check spot)).
Proof.
  destruct (X4_strict_acceptance_backed env_roads_down "NZ" None 35 fresh_world)
    as (spot & w' & E & Hb & _); [lia | ].
  exists spot, w'. auto.
Defined.

(** X5. What [rollUntilGood] sends, in any mode and for any budget: it
    never throws; it draws one UUID; every generator it creates is seeded
    with the hash of [countryCode|mode|uuid|attempt] for the attempts 1,
    2, ... in turn and called exactly twice; and its requests are,
    attempt by attempt, the reverse lookup (zoom 18, with address
    details) of the point of that attempt, followed or not by the road
    lookup (radius 3000) of the same point. Nothing else is sent, and
    outside ["publicish"] mode no road lookup is. *)
Theorem X5_rollUntilGood_requests (env : Env) (c m : string) (t : option Q)
    (ma : option Z) (w : World) :
  let u := crypto_randomUUID env (uuids w) in
  exists (roads : list bool) (r : option V3.TileSpot) (w' : World),
    V3.rollUntilGood env c m t ma w = (Ret r, w')
    /\ heap w' = (heap w ++ closures c m u 1 (length roads))%list
    /\ requests w' = (requests w ++ lookups3 c m u 1 roads)%list
    /\ uuids w' = S (uuids w)
    /\ (Z.of_nat (length roads) <= Z.max 0 (default 30 ma))%Z
    /\ (derivations w w' <= external_calls w w' <= 2 * derivations w w')%Z
    /\ (m <> "publicish" -> Forall (fun b => b = false) roads).
Proof.
  intros u.
  destruct (PageFacts.V3_roll_full env c m t ma w) as (roads & r & E & Hk & Hf & _).
  fold u in E. exists roads, r. eexists. split; [exact E | ].
  cbn [grown heap requests uuids set_uuids].
  split; [reflexivity | ]. split; [reflexivity | ]. split; [reflexivity | ].
  split; [exact Hk | ]. split; [ | exact Hf].
  unfold derivations, external_calls. cbn [grown heap requests set_uuids].
  rewrite !length_app, TraceFacts.closures_length.
  pose proof (TraceFacts.lookups3_length c m u 1 roads). lia.
Qed.

(** X6. What [rollUntilLikelyLand] sends and returns, in any mode and for
    any budget: it never throws; its requests are exactly the reverse
    lookups (zoom 10, no address details) of the points of the attempts
    1, 2, ..., k in turn, one per generator created, each generator being
    called twice. With a budget of at least 3 attempts the check returned
    is present and belongs to the spot returned: it is the verdict on a
    reply for the coordinates of that spot, or the ["Lookup unavailable"]
    check. *)
Theorem X6_rollUntilLikelyLand_requests (env : Env) (c m : string)
    (ma : option Z) (w : World) :
  let u := crypto_randomUUID env (uuids w) in
  exists (k : nat) (spot : option Spot) (check : option V2.Check) (w' : World),
    V2.rollUntilLikelyLand env c m ma w = (Ret (spot, check), w')
    /\ heap w' = (heap w ++ closures c m u 1 k)%list
    /\ requests w' = (requests w ++ lookups2 c m u 1 k)%list
    /\ uuids w' = S (uuids w)
    /\ (Z.of_nat k <= Z.max 0 (default 8 ma))%Z
    /\ derivations w w' = Z.of_nat k /\ external_calls w w' = Z.of_nat k
    /\ ((3 <= default 8 ma)%Z ->
        exists s ck, spot = Some s /\ check = Some ck
                     /\ (verdict_for env s ck \/ ck = V2.lookup_unavailable)).
Proof.
  intros u.
  destruct (PageFacts.V2_roll_full env c m ma w) as (k & spot & check & E & _ & Hk & Hm).
  fold u in E. exists k, spot, check. eexists. split; [exact E | ].
  cbn [grown heap requests uuids set_uuids].
  split; [reflexivity | ]. split; [reflexivity | ]. split; [reflexivity | ].
  split; [exact Hk | ].
  unfold derivations, external_calls. cbn [grown heap requests set_uuids].
  rewrite !length_app, TraceFacts.closures_length, TraceFacts.lookups2_length.
  split; [lia | ]. split; [lia | ]. exact Hm.
Qed.

(** X7. The index page of app.js ([rollAndCheck]): whatever the lookup
    service does, the call does not throw and leaves a spot and a check;
    it makes between 1 and 10 derivations in ["publicish"] mode and
    between 1 and 3 otherwise, with one lookup each. The status is "bad"
    exactly when the mode is ["publicish"] and the check did not pass;
    and when the status is "good" in ["publicish"] mode, the check is the
    verdict on a reply for the coordinates of the spot shown, that reply
    did not look like water and its place name has at least 6
    characters. *)
Theorem X7_index_page_app (env : Env) (c m : string) (w : World) :
  exists (s : Spot) (ck : V2.Check) (kind : string) (w' : World),
    Pages.rollAndCheck2 env c m w = (Ret (s, Some ck, kind), w')
    /\ (1 <= derivations w w' <= (if String.eqb m "publicish" then 10 else 3))%Z
    /\ external_calls w w' = derivations w w'
    /\ s = rolled None c m (crypto_randomUUID env (uuids w)) (derivations w w')
    /\ (verdict_for env s ck \/ ck = V2.lookup_unavailable)
    /\ (kind = "bad" <-> m = "publicish" /\ V2.ok ck = false)
    /\ (kind = "good" <-> m <> "publicish" \/ V2.ok ck = true)
    /\ (m = "publicish" -> kind = "good" ->
        verdict_for env s ck /\ V2.looksWater ck = false
        /\ (6 <= str_length (V2.place ck))%Z).
Proof.
  set (ma := (if String.eqb m "publicish" then 10 else 3)%Z).
  assert (H3 : (3 <= ma)%Z) by (subst ma; destruct (String.eqb m "publicish"); lia).
  destruct (PageFacts.V2_roll_full env c m (Some ma) w)
    as (k & spot & check & E & Hs & Hk & Hm).
  destruct (Hm H3) as (s & ck & -> & -> & Hv).
  cbn [default from_option id] in Hk.
  assert (Hk1 : (1 <= k)%nat).
  { destruct k as [| k]; [discriminate Hs | lia]. }
  set (kind := if String.eqb m "publicish" && negb (V2.ok ck) then "bad" else "good").
  exists s, ck, kind. eexists.
  split.
  { unfold Pages.rollAndCheck2. fold ma. unfold bind at 1. rewrite E. reflexivity. }
  destruct (PageFacts.grown_counts
              (closures c m (crypto_randomUUID env (uuids w)) 1 k)
              (lookups2 c m (crypto_randomUUID env (uuids w)) 1 k)
              w (set_uuids (S (uuids w)) w) eq_refl eq_refl) as [Hd He].
  rewrite TraceFacts.closures_length in Hd. rewrite TraceFacts.lookups2_length in He.
  rewrite Hd, He.
  split; [lia | ]. split; [reflexivity | ].
  split.
  { destruct k as [| k]; [lia | ]. cbn [held] in Hs.
    injection Hs as ->. f_equal. lia. }
  split; [exact Hv | ].
  assert (Hkind : (kind = "bad" <-> m = "publicish" /\ V2.ok ck = false)
                  /\ (kind = "good" <-> m <> "publicish" \/ V2.ok ck = true)).
  { subst kind. destruct (String.eqb m "publicish") eqn:Hmode.
    - apply String.eqb_eq in Hmode.
      destruct (V2.ok ck); cbn [negb andb]; split; split; intros H;
        try discriminate; auto.
      + destruct H as [_ H]. discriminate.
      + destruct H as [H | H]; [contradiction | discriminate].
    - apply String.eqb_neq in Hmode. cbn [andb]. split; split; intros H;
        try discriminate; auto.
      destruct H as [H _]. contradiction. }
  destruct Hkind as [Hbad Hgood].
  split; [exact Hbad | ]. split; [exact Hgood | ].
  intros Hmode Hg. apply Hgood in Hg as [Hg | Hg]; [contradiction | ].
  now apply PageFacts.V2_passed.
Qed.

(** X8. The index page of part_001 ([rollAndCheck]): whatever the
    tile-size field holds and whatever the two services do, the call does
    not throw and leaves a spot whose tile is the one of
    [makeTileFromCenter] around the point shown, with the side
    [tileMetersFromUI] returns; it makes between 1 and 35 derivations in
    ["publicish"] mode and between 1 and 5 otherwise. The status is "bad"
    exactly when the mode is ["publicish"] and the check did not pass,
    which happens only after all 35 attempts, the spot then being marked
    ["exhausted"]; and a "good" status in ["publicish"] mode is backed by
    a passing reverse lookup of the point shown and a road lookup that
    found a road or failed. *)
Theorem X8_index_page_tiles (env : Env) (c m : string) (tv : option Q)
    (w : World) :
  exists (spot : V3.TileSpot) (kind : string) (w' : World),
    Pages.rollAndCheck3 env c m tv w = (Ret (spot, kind), w')
    /\ V3.tile spot
       = V3.makeTileFromCenter (Math_cos env) (lat (V3.point spot))
           (lon (V3.point spot)) (Some (Pages.tileMetersFromUI tv))
    /\ (1 <= derivations w w' <= (if String.eqb m "publicish" then 35 else 5))%Z
    /\ V3.point spot
       = rolled (Some V3.BRAND) c m (crypto_randomUUID env (uuids w))
           (derivations w w')
    /\ (kind = "bad" <-> m = "publicish" /\ V3.ok (V3.check spot) = false)
    /\ (kind = "good" <-> m <> "publicish" \/ V3.ok (V3.check spot) = true)
    /\ (m = "publicish" -> kind = "good" ->
        backed env (lat (V3.point spot)) (lon (V3.point spot)) (V3.check spot))
    /\ (kind = "bad" ->
        V3.level (V3.check spot) = "exhausted" /\ derivations w w' = 35%Z).
Proof.
  set (ma := (if String.eqb m "publicish" then 35 else 5)%Z).
  assert (H1 : (1 <= ma)%Z) by (subst ma; destruct (String.eqb m "publicish"); lia).
  destruct (PageFacts.V3_roll_full env c m (Some (Pages.tileMetersFromUI tv))
              (Some ma) w) as (roads & r & E & Hk & _ & D).
  destruct (D H1) as (spot & -> & Hr & Hp & Ht & Hc).
  cbn [default from_option id] in Hk, Hc.
  set (kind := if String.eqb m "publicish" && negb (V3.ok (V3.check spot))
               then "bad" else "good").
  exists spot, kind. eexists.
  split.
  { unfold Pages.rollAndCheck3. cbv zeta. fold ma. unfold bind at 1. rewrite E.
    reflexivity. }
  destruct (PageFacts.grown_counts
              (closures c m (crypto_randomUUID env (uuids w)) 1 (length roads))
              (lookups3 c m (crypto_randomUUID env (uuids w)) 1 roads)
              w (set_uuids (S (uuids w)) w) eq_refl eq_refl) as [Hd _].
  rewrite TraceFacts.closures_length in Hd. rewrite Hd.
  split; [exact Ht | ]. split; [lia | ]. split; [exact Hp | ].
  assert (Hkind : (kind = "bad" <-> m = "publicish" /\ V3.ok (V3.check spot) = false)
                  /\ (kind = "good" <-> m <> "publicish" \/ V3.ok (V3.check spot) = true)).
  { subst kind. destruct (String.eqb m "publicish") eqn:Hmode.
    - apply String.eqb_eq in Hmode.
      destruct (V3.ok (V3.check spot)); cbn [negb andb]; split; split; intros H;
        try discriminate; auto.
      + destruct H as [_ H]. discriminate.
      + destruct H as [H | H]; [contradiction | discriminate].
    - apply String.eqb_neq in Hmode. cbn [andb]. split; split; intros H;
        try discriminate; auto.
      destruct H as [H _]. contradiction. }
  destruct Hkind as [Hbad Hgood].
  split; [exact Hbad | ]. split; [exact Hgood | ].
  split.
  - intros -> Hg. apply Hgood in Hg as [Hg | Hg]; [contradiction | ].
    destruct Hc as [[_ Hh] | (Hok & _)]; [ | congruence].
    now apply PageFacts.checked_here_backed.
  - intros Hb. apply Hbad in Hb as [-> Hok].
    destruct Hc as [[Hok' _] | (_ & Hl & Hn)]; [congruence | ].
    split; [exact Hl | ]. rewrite Hn. reflexivity.
Qed.

(** X9. The tile the index page of part_001 asks for: whatever the
    tile-size field holds (a number or not), [tileMetersFromUI] returns a
    side between 0.1 and 100 metres: the value itself when it lies in
    that range, 1 when it is not a finite number or not positive. The
    tile [makeTileFromCenter] builds with it contains its centre, has an
    area between 0.01 and 10000 square metres, is at most 100/111320
    degrees high and, for any cosine, at most 100/(111320 * 0.12) degrees
    wide; where the cosine is at most 1 it is at least as wide as high. *)
Theorem X9_tile_size_from_page (cosine : Q -> Q) (lat lon : Q) (tv : option Q) :
  let s := Pages.tileMetersFromUI tv in
  let T := V3.makeTileFromCenter cosine lat lon (Some s) in
  ((1 # 10 <= s)%Q /\ (s <= 100)%Q)
  /\ (forall v, tv = Some v -> (1 # 10 <= v)%Q -> (v <= 100)%Q -> (s == v)%Q)
  /\ (match tv with None => True | Some v => (v <= 0)%Q end -> s = 1%Q)
  /\ ((1 # 100 <= V3.areaM2 T)%Q /\ (V3.areaM2 T <= 10000)%Q)
  /\ ((V3.south (V3.bounds T) < lat)%Q /\ (lat < V3.north (V3.bounds T))%Q
      /\ (V3.west (V3.bounds T) < lon)%Q /\ (lon < V3.east (V3.bounds T))%Q)
  /\ ((V3.north (V3.bounds T) - V3.south (V3.bounds T)) * 111320 == s)%Q
  /\ (V3.east (V3.bounds T) - V3.west (V3.bounds T) <= 125 # 16698)%Q
  /\ ((cosine (lat * V3.Math_PI / 180) <= 1)%Q ->
      (V3.north (V3.bounds T) - V3.south (V3.bounds T)
       <= V3.east (V3.bounds T) - V3.west (V3.bounds T))%Q).
Proof.
  intros s T.
  destruct (SizeFacts.tileMetersFromUI_range tv) as [S1 S2]. fold s in S1, S2.
  split; [split; assumption | ].
  split.
  { intros v -> V1 V2. now apply SizeFacts.tileMetersFromUI_keeps. }
  split; [apply SizeFacts.tileMetersFromUI_default | ].
  split; [now apply SizeFacts.areaM2_range | ].
  assert (Hh : (0 < s / 2)%Q) by (apply Qlt_shift_div_l; lra).
  destruct (SizeFacts.metersToLonDeg_range cosine (s / 2) lat Hh) as [L1 L2].
  pose proof (SizeFacts.metersToLatDeg_eq (s / 2)) as EL.
  assert (E2 : (s / 2 * 2 == s)%Q) by field.
  assert (Hlat : (0 < V3.metersToLatDeg (s / 2))%Q).
  { unfold V3.metersToLatDeg. apply Qlt_shift_div_l; lra. }
  assert (B : (s / 2 / (111320 * (12 # 100)) <= 125 # 33396)%Q).
  { apply Qle_shift_div_r; [lra | ]. lra. }
  subst T. unfold V3.makeTileFromCenter. cbv zeta.
  cbn [V3.bounds V3.north V3.south V3.east V3.west default from_option id].
  split; [repeat split; lra | ].
  split; [lra | ].
  split; [lra | ].
  intros Hc. pose proof (SizeFacts.metersToLonDeg_ge cosine (s / 2) lat Hh Hc). lra.
Qed.

(** X10. [asStr] bounds what the endpoint takes from a request: the
    result has at most [max] characters and is a prefix of the trimmed
    input, the trimmed input itself when that is short enough; a string
    without white space that is short enough comes back unchanged, and a
    missing or non-string value, read as the empty string, gives the
    empty string. *)
Theorem X10_asStr_bounds (v : string) (max : nat) :
  (String.length (Stripe.asStr v max) <= max)%nat
  /\ String.prefix (Stripe.asStr v max) (trim v) = true
  /\ ((String.length (trim v) <= max)%nat -> Stripe.asStr v max = trim v)
  /\ (spaceless (list_ascii_of_string v) = true ->
      (String.length v <= max)%nat -> Stripe.asStr v max = v)
  /\ Stripe.asStr "" max = "".
Proof.
  split; [apply StringFacts.asStr_length | ].
  split; [apply StringFacts.asStr_prefix | ].
  split; [apply StringFacts.asStr_short | ].
  split; [apply StringFacts.asStr_fix | ].
  apply StringFacts.asStr_short. cbn. lia.
Qed.

(** X11. [looksLikeEmail] accepts exactly the strings of the regular
    expression [^[^\s@]+@[^\s@]+\.[^\s@]+$]: a non-empty local part, an
    [@], and a domain with a dot that has characters on both sides, none
    of them white space or a second [@]. An accepted address therefore
    has no white space, exactly one [@] and at least five characters,
    and it is not changed by [asStr] when it has at most [max]
    characters. *)
Theorem X11_looksLikeEmail_language (s : string) :
  (Stripe.looksLikeEmail s = true <-> matches_email s)
  /\ (Stripe.looksLikeEmail s = true ->
      spaceless (list_ascii_of_string s) = true
      /\ count_occ ascii_dec (list_ascii_of_string s) "@"%char = 1%nat
      /\ (5 <= String.length s)%nat
      /\ forall max, (String.length s <= max)%nat -> Stripe.asStr s max = s).
Proof.
  split; [apply EmailFacts.looksLikeEmail_iff | ].
  intros H. pose proof (EmailFacts.looksLikeEmail_spaceless s H) as Hs.
  destruct (EmailFacts.looksLikeEmail_shape s H) as [H1 H5].
  split; [exact Hs | ]. split; [exact H1 | ]. split; [exact H5 | ].
  intros max. now apply StringFacts.asStr_fix.
Qed.

(** X12. The [deliver] action sends only what it should. Whatever the
    request, the store and the collaborators, it never changes a
    session, and either it leaves the store untouched without claiming a
    fresh delivery, or the session named is paid, its metadata opt in
    with a well-formed address, its payment intent exists and carries no
    marker, and exactly one mail went out: the certificate, to that
    address. The marker is then written on that payment intent, with the
    answer "delivered", or the update failed, the marker is missing and
    the call throws. *)
Theorem X12_deliver_sends_only_when (penv : Stripe.ProcessEnv)
    (cond : Stripe.Conditions) (q body : gmap string string) (st : Stripe.Store) :
  let sid := Stripe.asStr (or_else (Stripe.field q "session_id")
                             (Stripe.field body "session_id")) 200 in
  let r := Stripe.deliver penv cond q body st in
  Stripe.sessions (snd r) = Stripe.sessions st
  /\ ((snd r = st /\ forall to, fst r <> inl (delivered_now to))
      \/ exists pi meta piMeta,
           may_send st sid pi meta piMeta
           /\ Stripe.outbox (snd r)
              = (Stripe.outbox st ++ [certificate_mail penv meta])%list
           /\ ((Stripe.intents (snd r) = Stripe.intents st
                /\ fst r = inr "Stripe update failed")
               \/ (Stripe.intents (snd r)
                   = <[pi := with_marker cond (Stripe.m_to (certificate_mail penv meta))
                               piMeta]> (Stripe.intents st)
                   /\ fst r = inl (delivered_now
                                     (Stripe.m_to (certificate_mail penv meta)))))).
Proof.
  intros sid r.
  destruct (EndpointFacts.deliver_cases penv cond q body st)
    as [[E N] | (pi & meta & piMeta & Hs & _ & _ & [[E _] | [E _]])];
    fold r in E; try fold r in N.
  - rewrite E. split; [reflexivity | ]. left. auto.
  - rewrite E. cbn [fst snd]. split; [reflexivity | ].
    right. exists pi, meta, piMeta. split; [exact Hs | ].
    split; [reflexivity | ]. left. split; reflexivity.
  - rewrite E. cbn [fst snd]. split; [reflexivity | ].
    right. exists pi, meta, piMeta. split; [exact Hs | ].
    split; [reflexivity | ]. right. split; reflexivity.
Qed.

(** X13. The [create] action validates before it asks for a session.
    Whatever the request, it never touches the store of sessions, payment
    intents and mail, and either it refuses with status 400 or 500 and
    asks for nothing, or it asks for exactly one session: then [Number]
    read finite coordinates with [|lat| <= 90] and [|lon| <= 180] and a
    tile size in (0, 1000], the metadata carry the coordinates with six
    decimals, the country, mode and seed cut by [asStr], and the consent
    as exactly ["yes"] or ["no"]: with ["yes"] the address is well formed
    and is also the [customer_email], with ["no"] no address is passed
    on at all. *)
Theorem X13_create_validates (site : Endpoint.Site) (bi : Endpoint.Builtins)
    (svc : Endpoint.Service) (body : gmap string string) (b : Endpoint.Backend) :
  let r := Endpoint.create site bi svc body b in
  Endpoint.store (snd r) = Endpoint.store b
  /\ ((refusal (fst r) /\ snd r = b)
      \/ exists co,
           Endpoint.checkouts (snd r) = (Endpoint.checkouts b ++ [co])%list
           /\ validated site bi body co
           /\ consent_recorded co
           /\ fst r = match Endpoint.sessions_create svc co with
                      | Some url =>
                          inl (Endpoint.reply 200 [("url", Endpoint.VStr url)])
                      | None => inr "Stripe create failed"
                      end).
Proof.
  intros r.
  destruct (EndpointFacts.create_cases site bi svc body b)
    as [[R E] | (co & E & V & C & _ & _ & _ & F)]; fold r in E; try fold r in R;
    try fold r in F.
  - rewrite E. split; [reflexivity | ]. left. rewrite <- E at 1. auto.
  - rewrite E. split; [reflexivity | ]. right. exists co.
    split; [reflexivity | ]. auto.
Qed.

Local Ltac differs :=
  let H := fresh in
  intros H; cbn [fst] in H; unfold Stripe.json in H; congruence.

(** X14. A session [create] asked for is never refused by [deliver] for
    its address. Take any session whose metadata are those [create] sent
    for a request: [deliver] never answers "Missing/invalid email in
    metadata"; when the request did not opt in it sends nothing and
    writes nothing; and whenever it sends, the request had opted in and
    the mail goes to the address of that request, as [asStr] cut it. *)
Theorem X14_created_session_delivery (site : Endpoint.Site)
    (bi : Endpoint.Builtins) (svc : Endpoint.Service)
    (body : gmap string string) (b : Endpoint.Backend) (co : Endpoint.Checkout)
    (penv : Stripe.ProcessEnv) (cond : Stripe.Conditions)
    (q dbody : gmap string string) (st : Stripe.Store) (session : Stripe.Session) :
  Endpoint.checkouts (snd (Endpoint.create site bi svc body b))
  = (Endpoint.checkouts b ++ [co])%list ->
  Stripe.sessions st
  !! Stripe.asStr (or_else (Stripe.field q "session_id")
                     (Stripe.field dbody "session_id")) 200
  = Some session ->
  Stripe.metadata session = Some (Endpoint.c_metadata co) ->
  let r := Stripe.deliver penv cond q dbody st in
  fst r <> inl (Stripe.json 200
                  [("ok", Stripe.JBool false); ("delivered", Stripe.JBool false);
                   ("message", Stripe.JStr "Missing/invalid email in metadata.")])
  /\ (Stripe.field (Endpoint.c_metadata co) "email_consent" = "no" -> snd r = st)
  /\ (snd r <> st ->
      Stripe.field (Endpoint.c_metadata co) "email_consent" = "yes"
      /\ exists mail rest,
           Stripe.outbox (snd r) = (Stripe.outbox st ++ mail :: rest)%list
           /\ rest = []
           /\ Stripe.m_to mail = email_of body
           /\ Stripe.looksLikeEmail (email_of body) = true).
Proof.
  intros Hco Hsess Hmeta r.
  destruct (EndpointFacts.created_checkout site bi svc body b co Hco) as (_ & C & M).
  set (sid := Stripe.asStr (or_else (Stripe.field q "session_id")
                              (Stripe.field dbody "session_id")) 200) in *.
  assert (Hdef : default ∅ (Stripe.metadata session) = Endpoint.c_metadata co)
    by (rewrite Hmeta; reflexivity).
  split; [ | split].
  - subst r. unfold Stripe.deliver. cbv zeta. fold sid.
    destruct (negb (truthy sid) || negb (startsWith sid "cs_")); [differs | ].
    destruct (negb (Stripe.retrieve_works cond)); [differs | ].
    rewrite Hsess, Hdef.
    destruct (negb (String.eqb (Stripe.payment_status session) "paid")); [differs | ].
    destruct (String.eqb (toLowerCase (Stripe.field (Endpoint.c_metadata co)
                                         "email_consent")) "yes") eqn:Hyes;
      cbn [negb]; [ | differs].
    assert (Hy : Stripe.field (Endpoint.c_metadata co) "email_consent" = "yes").
    { destruct C as [(Hy & _) | (Hn & _)]; [exact Hy | ].
      rewrite Hn in Hyes. discriminate Hyes. }
    destruct (EndpointFacts.consent_address co C Hy) as [Hfix Hok].
    rewrite Hfix, Hok, (EndpointFacts.looksLikeEmail_truthy _ Hok). cbn [negb orb].
    destruct (Stripe.payment_intent session) as [pi | ]; [ | differs].
    destruct (if truthy pi then Stripe.intents st !! pi else None) as [piMeta | ];
      [ | differs].
    destruct (String.eqb (toLowerCase (Stripe.field piMeta "certificate_emailed")) "yes");
      [differs | ].
    destruct (negb (Stripe.pdf_works cond)); [differs | ].
    destruct (negb (truthy (Stripe.GMAIL_USER penv))); [differs | ].
    destruct (negb (truthy (Stripe.GMAIL_APP_PASSWORD penv))); [differs | ].
    destruct (negb (Stripe.sendMail_works cond)); [differs | ].
    destruct (negb (Stripe.update_works cond)); differs.
  - intros Hno.
    destruct (EndpointFacts.deliver_cases penv cond q dbody st)
      as [[E _] | (pi & meta & piMeta & Hs & _)]; [exact E | ].
    destruct Hs as (_ & _ & s' & Hs' & -> & _ & Hyes & _).
    fold sid in Hs'. rewrite Hsess in Hs'. injection Hs' as <-.
    rewrite Hdef, Hno in Hyes. discriminate Hyes.
  - intros Hchg.
    destruct (EndpointFacts.deliver_cases penv cond q dbody st)
      as [[E _] | (pi & meta & piMeta & Hs & _ & _ & Hr)]; [contradiction | ].
    destruct Hs as (_ & _ & s' & Hs' & -> & _ & Hyes & Hok & _).
    fold sid in Hs'. rewrite Hsess in Hs'. injection Hs' as <-.
    rewrite Hdef in *.
    assert (Hy : Stripe.field (Endpoint.c_metadata co) "email_consent" = "yes").
    { destruct C as [(Hy & _) | (Hn & _)]; [exact Hy | ].
      rewrite Hn in Hyes. discriminate Hyes. }
    destruct (EndpointFacts.consent_address co C Hy) as [Hfix _].
    split; [exact Hy | ].
    exists (certificate_mail penv (Endpoint.c_metadata co)), [].
    split.
    { destruct Hr as [[E _] | [E _]]; fold r in E; rewrite E; reflexivity. }
    split; [reflexivity | ].
    cbn [certificate_mail Stripe.m_to]. rewrite Hfix, (M Hy) in *. auto.
Qed.

Lemma X14_created_session_delivery_witness :
  let r := Stripe.deliver penv_ok fair session_query ∅ consenting_store in
  fst r <> inl (Stripe.json 200
                  [("ok", Stripe.JBool false); ("delivered", Stripe.JBool false);
                   ("message", Stripe.JStr "Missing/invalid email in metadata.")])
  /\ (Stripe.field (Endpoint.c_metadata consenting_checkout) "email_consent" = "no" ->
      snd r = consenting_store)
  /\ (snd r <> consenting_store ->
      Stripe.field (Endpoint.c_metadata consenting_checkout) "email_consent" = "yes"
      /\ exists mail rest,
           Stripe.outbox (snd r) = (Stripe.outbox consenting_store ++ mail :: rest)%list
           /\ rest = []
           /\ Stripe.m_to mail = email_of consenting_body
           /\ Stripe.looksLikeEmail (email_of consenting_body) = true).
Proof.
  apply (X14_created_session_delivery site_ok bi_small svc_ok consenting_body
           no_backend consenting_checkout penv_ok fair session_query ∅
           consenting_store
           {| Stripe.payment_status := "paid";
              Stripe.metadata := Some (Endpoint.c_metadata consenting_checkout);
              Stripe.payment_intent := Some "pi_2" |});
    vm_compute; reflexivity.
Defined.

(** X15. [create] does not require coordinates. With [Number] reading
    the empty string as 0 and ["1"] as 1, as the language does, a request
    that carries no [lat], no [lon], no [tile_m] and no [email_consent]
    passes the validation on a configured endpoint: a session is asked
    for whose metadata place the tile at ["0.000000"], ["0.000000"] with
    the tile size of [String(1)], without consent and without address. *)
Theorem X15_create_without_coordinates (site : Endpoint.Site)
    (bi : Endpoint.Builtins) (svc : Endpoint.Service)
    (body : gmap string string) (b : Endpoint.Backend) :
  reads_defaults bi ->
  truthy (Endpoint.STRIPE_PRICE_ID site) = true ->
  truthy (Endpoint.SITE_URL site) = true ->
  Stripe.field body "lat" = "" -> Stripe.field body "lon" = "" ->
  Stripe.field body "tile_m" = "" -> Stripe.field body "email_consent" = "" ->
  exists co,
    Endpoint.create site bi svc body b
    = (match Endpoint.sessions_create svc co with
       | Some url => inl (Endpoint.reply 200 [("url", Endpoint.VStr url)])
       | None => inr "Stripe create failed"
       end,
       Endpoint.set_checkouts (Endpoint.checkouts b ++ [co]) b)
    /\ Stripe.field (Endpoint.c_metadata co) "lat" = "0.000000"
    /\ Stripe.field (Endpoint.c_metadata co) "lon" = "0.000000"
    /\ Stripe.field (Endpoint.c_metadata co) "tile_m" = Endpoint.String_ bi 1
    /\ Stripe.field (Endpoint.c_metadata co) "email_consent" = "no"
    /\ Stripe.field (Endpoint.c_metadata co) "email" = ""
    /\ Endpoint.customer_email co = None.
Proof.
  intros [N0 N1] Hp Hu Hlat Hlon Htile Hcons.
  unfold Endpoint.create. rewrite Hp, Hu, Hlat, Hlon, Htile, Hcons.
  cbn [negb orb]. cbv zeta.
  change (Stripe.asStr "" 40) with "". change (Stripe.asStr "" 12) with "".
  change (or_else "" "") with "". change (or_else "" "1") with "1".
  change (or_else "" "no") with "no".
  change (Stripe.asStr "no" 10) with "no".
  change (String.eqb (toLowerCase "no") "yes") with false. cbv iota.
  rewrite N0, N1.
  change (Endpoint.gt (Math_abs 0) 90) with false.
  change (Endpoint.gt (Math_abs 0) 180) with false.
  change (Endpoint.gt 1 0) with true. change (Endpoint.gt 1 1000) with false.
  change (String.eqb "no" "yes") with false.
  cbn [negb orb andb].
  change (Endpoint.Number_toFixed_string 6 0) with "0.000000".
  match goal with
  | |- context [Endpoint.sessions_create svc ?p] => exists p
  end.
  split.
  { destruct (Endpoint.sessions_create svc _); reflexivity. }
  cbn [Endpoint.c_metadata Endpoint.customer_email].
  destruct (EndpointFacts.create_metadata_fields
              (or_else (Stripe.asStr (Stripe.field body "country") 80) "NZ")
              (or_else (Stripe.asStr (Stripe.field body "mode") 40) "publicish")
              (or_else (Stripe.asStr (Stripe.field body "seed") 120) "")
              "0.000000" "0.000000" (Endpoint.String_ bi 1) "" "no")
    as (_ & _ & _ & F4 & F5 & F6 & F7 & F8).
  auto 10.
Qed.

Lemma X15_create_without_coordinates_witness :
  exists co,
    Endpoint.create site_ok bi_small svc_ok ∅ no_backend
    = (match Endpoint.sessions_create svc_ok co with
       | Some url => inl (Endpoint.reply 200 [("url", Endpoint.VStr url)])
       | None => inr "Stripe create failed"
       end,
       Endpoint.set_checkouts (Endpoint.checkouts no_backend ++ [co]) no_backend)
    /\ Stripe.field (Endpoint.c_metadata co) "lat" = "0.000000"
    /\ Stripe.field (Endpoint.c_metadata co) "lon" = "0.000000"
    /\ Stripe.field (Endpoint.c_metadata co) "tile_m" = Endpoint.String_ bi_small 1
    /\ Stripe.field (Endpoint.c_metadata co) "email_consent" = "no"
    /\ Stripe.field (Endpoint.c_metadata co) "email" = ""
    /\ Endpoint.customer_email co = None.
Proof.
  apply (X15_create_without_coordinates site_ok bi_small svc_ok ∅ no_backend);
    try (split; reflexivity); reflexivity.
Defined.


(** X17. [verify] only reads. Whatever the request, it leaves the
    backend as it is; a response that carries [metadata] is the one of a
    paid session with a well-formed id, with exactly the metadata of that
    session and [paid: true]; and for a session that is not paid the
    response is [{ paid: false, status }] and nothing else. *)
Theorem X17_verify_only_reads (cond : Stripe.Conditions) (svc : Endpoint.Service)
    (q body : gmap string string) (b : Endpoint.Backend) :
  let sid := Stripe.asStr (or_else (Stripe.field q "session_id")
                             (Stripe.field body "session_id")) 200 in
  let r := Endpoint.verify cond svc q body b in
  snd r = b
  /\ (forall rep m, fst r = inl rep ->
        In ("metadata", Endpoint.VMeta m) (Endpoint.data rep) ->
        exists session,
          Stripe.sessions (Endpoint.store b) !! sid = Some session
          /\ Stripe.payment_status session = "paid"
          /\ m = default ∅ (Stripe.metadata session)
          /\ startsWith sid "cs_" = true
          /\ In ("paid", Endpoint.VBool true) (Endpoint.data rep))
  /\ (forall session,
        truthy sid = true -> startsWith sid "cs_" = true ->
        Stripe.retrieve_works cond = true ->
        Stripe.sessions (Endpoint.store b) !! sid = Some session ->
        Stripe.payment_status session <> "paid" ->
        fst r = inl (Endpoint.reply 200
                       [("paid", Endpoint.VBool false);
                        ("status", Endpoint.VStr (Stripe.payment_status session))])).
Proof.
  intros sid r. apply EndpointFacts.verify_cases.
Qed.



(** X20. The water check of part_001 is at least as strict as that of
    app.js: every reply [reverseCheck] flags as water,
    [reverseCheckNominatim] flags as water too. So a reply part_001
    passes shows none of the water signs of app.js, and app.js passes it
    as well as soon as its trimmed place name has 6 characters. *)
Theorem X20_water_flag_monotone (d : NominatimData) :
  (V2.looksWater (V2.judge d) = true -> V3.n_looksWater (V3.judge d) = true)
  /\ (V3.n_ok (V3.judge d) = true -> V2.looksWater (V2.judge d) = false)
  /\ (V3.n_ok (V3.judge d) = true ->
      (6 <= str_length (trim (d_display_name d)))%Z ->
      V2.ok (V2.judge d) = true).
Proof.
  pose proof (WaterFacts.V2_water_V3 d) as W.
  assert (N : V3.n_ok (V3.judge d) = true -> V2.looksWater (V2.judge d) = false).
  { intros H. rewrite CheckFacts.V3_ok_bool in H.
    apply andb_true_iff in H as [H _]. apply andb_true_iff in H as [H _].
    apply negb_true_iff in H.
    destruct (V2.looksWater (V2.judge d)); [ | reflexivity].
    rewrite (W eq_refl) in H. discriminate H. }
  split; [exact W | ]. split; [exact N | ].
  intros H L. specialize (N H). revert N. unfold V2.judge. cbv zeta.
  cbn [V2.ok V2.looksWater]. intros ->. cbn [negb andb].
  now apply Z.leb_le.
Qed.

(** X21. The two copies of the endpoint in stripe.js agree where they
    overlap. On [create], whatever the second copy (create and verify
    only) refuses, the first copy refuses with the same answer; and
    whenever the first copy asks for a session, the second copy asks for
    one too, with the same price and URLs and with metadata that the
    first copy's metadata extend (by the tile size, the address and the
    consent); the second copy never passes a customer address. On
    [verify] the two handlers answer alike, and the second copy changes
    nothing under any action but [create]. *)
Theorem X21_two_copies_agree (site : Endpoint.Site) (bi : Endpoint.Builtins)
    (penv : Stripe.ProcessEnv) (cond : Stripe.Conditions) (svc : Endpoint.Service)
    (event : Stripe.Event) (body : gmap string string) (b : Endpoint.Backend) :
  let rn := Endpoint.create site bi svc body b in
  let rl := Legacy.create site bi svc body b in
  (refusal (fst rl) -> rn = rl)
  /\ ((refusal (fst rn) /\ snd rn = b)
      \/ exists co co0,
           snd rn = Endpoint.set_checkouts (Endpoint.checkouts b ++ [co]) b
           /\ snd rl = Endpoint.set_checkouts (Endpoint.checkouts b ++ [co0]) b
           /\ extends co0 co)
  /\ (action_of event = "verify" ->
      Legacy.handler site bi penv cond svc event b
      = Endpoint.handler site bi penv cond svc event b)
  /\ (action_of event <> "create" ->
      snd (Legacy.handler site bi penv cond svc event b) = b).
Proof.
  intros rn rl.
  destruct (LegacyFacts.create_copies site bi svc body b) as [H1 H2].
  split; [exact H1 | ]. split; [exact H2 | ].
  split; [apply LegacyFacts.handlers_verify | apply LegacyFacts.legacy_other_actions].
Qed.



(** X23. The two file names of a certificate agree. The attachment of
    [deliver] and the download of [pageSuccess] are named by the same
    stem, followed by [.pdf] and [.png]: ["certificate-"], the country
    (or "XX") with every run of white space turned into one underscore,
    a dash, and at most the first 10 characters of the seed (or "seed").
    The country part is never empty and never contains white space. *)
Theorem X23_certificate_file_names (meta : gmap string string) :
  exists cpart spart : string,
    Stripe.filename meta = "certificate-" ++ cpart ++ "-" ++ spart ++ ".pdf"
    /\ Checkout.png_name meta = "certificate-" ++ cpart ++ "-" ++ spart ++ ".png"
    /\ spaceless (list_ascii_of_string cpart) = true
    /\ cpart <> ""
    /\ (String.length spart <= 10)%nat
    /\ String.prefix spart (or_else (Stripe.field meta "seed") "seed") = true.
Proof.
  exists (Stripe.underscore (or_else (Stripe.field meta "country") "XX") false),
         (slice0 (or_else (Stripe.field meta "seed") "seed") 10).
  split; [reflexivity | ]. split; [reflexivity | ].
  split; [apply CheckoutFacts.underscore_spaceless | ].
  split.
  { apply CheckoutFacts.underscore_nonempty, CheckoutFacts.or_else_nonempty.
    discriminate. }
  split; [rewrite StringFacts.slice0_length; lia | apply StringFacts.slice0_prefix].
Qed.

